(** * FlowPrint: the hierarchical task store, verified against its specification

    A shallow embedding of [src/store/useTaskStore.ts] (the zustand store
    with its actions and selectors), of the export conversion of
    [src/components/DataManagementPanel.tsx] and of the ECMAScript date
    operations the two rely on, followed by the properties of the
    specification that concern them.

    Conventions of the embedding.
    - A JS object used as a dictionary ([Record<string, T>]) is the
      [gmap string T] of its own properties; the order in which
      [Object.entries] enumerates them is left abstract.  A read [obj[k]]
      also sees the properties that every object inherits from
      [Object.prototype] ([JS.get]).  The prototype of a dictionary is
      [Object.prototype] throughout: the one assignment of the store that
      can replace it, [tasks['__proto__'] = v] where no entry is stored
      under that name, adds no property ([JS.assign]), and what later
      reads would find through the replaced prototype is not modelled.
    - A value of type [T | null] is an [option T]; an optional property
      [p?: T] is an [option T] too ([None] is [undefined]).
    - A [Date] object is its time value: an integral number of milliseconds
      since the epoch, or NaN ([InvalidDate]).
    - A zustand action [set(state => patch)] is a function on [TaskState]
      that returns the state with the patch merged in; an action that can
      throw returns an [Outcome], and the store keeps its state when it
      does ([stateAfter]).
    - Readings of the clock ([new Date()], [Date.now()]) and the results of
      [uuidv4()] are arguments of the action that performs them; so is the
      time zone of the machine. *)

From Stdlib Require Import ZArith Lia Ascii.
From stdpp Require Import base option list gmap strings pretty.

(** ** JavaScript run-time notions *)

Module JS.

(** Errors the modelled code can raise, and computations that may raise. *)
Inductive Error := TypeError | RangeError.

Inductive Outcome (A : Type) : Type :=
  | Ok (a : A)
  | Throw (e : Error).
Arguments Ok {A} a.
Arguments Throw {A} e.

Definition bind {A B} (m : Outcome A) (k : A → Outcome B) : Outcome B :=
  match m with
  | Ok a => k a
  | Throw e => Throw e
  end.

#[global] Instance Outcome_ret : MRet Outcome := @Ok.
#[global] Instance Outcome_bind : MBind Outcome := λ A B k m, bind m k.

(** [ToBoolean] on the value types that the store tests. *)
Definition truthy_string (s : string) : bool :=
  match s with
  | EmptyString => false
  | String _ _ => true
  end.

(** [string | null] (and [string | undefined]). *)
Definition truthy (o : option string) : bool :=
  match o with
  | Some s => truthy_string s
  | None => false
  end.

(** [number | undefined]: [0] is falsy. *)
Definition truthy_number (o : option Z) : bool :=
  match o with
  | Some n => negb (n =? 0)%Z
  | None => false
  end.

(** [a || b] on optional strings and numbers. *)
Definition or_else_string (a : option string) (b : option string) : option string :=
  if truthy a then a else b.

Definition or_else_number (a : option Z) (b : option Z) : option Z :=
  if truthy_number a then a else b.

(** A [Set<string>] keeps its elements in insertion order; adding an
    element that is present changes nothing.  [Array.from(set)] is the
    list itself. *)
Definition Set_add (s : list string) (x : string) : list string :=
  if bool_decide (x ∈ s) then s else s ++ [x].

(** [new Set(xs)] *)
Definition Set_new (xs : list string) : list string := foldl Set_add [] xs.

(** [xs.includes(x)] *)
Definition includes (xs : list string) (x : string) : bool := bool_decide (x ∈ xs).

(** A value as [typeof] and [Array.isArray] see it.  [L] is what an array
    holds in this position and [O] what a plain object holds. *)
Inductive Value (L O : Type) : Type :=
  | Undefined              (* the key is missing, or holds [undefined] *)
  | Null
  | Primitive              (* a boolean, a number or a string *)
  | Array (items : L)
  | Object (props : O).
Arguments Undefined {L O}.
Arguments Null {L O}.
Arguments Primitive {L O}.
Arguments Array {L O} items.
Arguments Object {L O} props.

(** [typeof v === 'object']: true of [null] and of arrays as well. *)
Definition typeof_object {L O} (v : Value L O) : bool :=
  match v with
  | Null | Array _ | Object _ => true
  | Undefined | Primitive => false
  end.

Definition isArray {L O} (v : Value L O) : bool :=
  match v with
  | Array _ => true
  | _ => false
  end.

(** *** Reading and writing a property of a dictionary

    The names of the properties of [Object.prototype]: each holds a
    function, and the accessor [__proto__] gives the prototype object
    itself. *)
Definition Object_prototype : list string :=
  [ "constructor"; "__proto__"; "hasOwnProperty"; "isPrototypeOf";
    "propertyIsEnumerable"; "toLocaleString"; "toString"; "valueOf";
    "__defineGetter__"; "__defineSetter__"; "__lookupGetter__";
    "__lookupSetter__" ].

Definition inherited (k : string) : bool := bool_decide (k ∈ Object_prototype).

(** What [obj[k]] finds: the own property; failing that, for a name of
    [Object.prototype], the inherited value, which is truthy and holds
    none of the properties that the code goes on to read (and none at
    all for a spread); failing that, [undefined]. *)
Inductive Found (A : Type) : Type :=
  | Own (a : A)
  | Inherited
  | NotFound.
Arguments Own {A} a.
Arguments Inherited {A}.
Arguments NotFound {A}.

Definition get {A} (obj : gmap string A) (k : string) : Found A :=
  match obj !! k with
  | Some a => Own a
  | None => if inherited k then Inherited else NotFound
  end.

(** [obj[k] = a].  On the name [__proto__], when the object has no own
    property of that name, the assignment goes to the accessor of
    [Object.prototype]: it replaces the prototype of the object and adds
    no property. *)
Definition assign {A} (obj : gmap string A) (k : string) (a : A) : gmap string A :=
  if bool_decide (k = "__proto__") && bool_decide (obj !! k = None) then obj
  else <[k := a]> obj.

End JS.

Import JS.

(** ** Time values *)

Inductive Date : Type :=
  | Time (tv : Z)
  | InvalidDate.

#[global] Instance Date_eq_dec : EqDecision Date.
Proof. solve_decision. Defined.

(** ** The entities of [src/types/index.ts] *)

Inductive TaskPriority := low | medium | high.

#[global] Instance TaskPriority_eq_dec : EqDecision TaskPriority.
Proof. solve_decision. Defined.

Module Task.
Record t : Type := mk {
  id : string;
  title : string;
  description : option string;
  completed : bool;
  parentId : option string;
  childrenIds : list string;
  createdAt : Date;
  completedAt : option Date;
  estimatedMinutes : option Z;
  tags : list string;
  priority : TaskPriority;
}.

(** [{ ...task, childrenIds: c }] *)
Definition with_childrenIds (c : list string) (x : t) : t :=
  mk (id x) (title x) (description x) (completed x) (parentId x) c
     (createdAt x) (completedAt x) (estimatedMinutes x) (tags x) (priority x).

(** [{ ...task, completed: c, completedAt: d }] *)
Definition with_completion (c : bool) (d : option Date) (x : t) : t :=
  mk (id x) (title x) (description x) c (parentId x) (childrenIds x)
     (createdAt x) d (estimatedMinutes x) (tags x) (priority x).

#[global] Instance eq_dec : EqDecision t.
Proof. solve_decision. Defined.
End Task.

Module TaskColumn.
Record t : Type := mk {
  id : string;
  taskIds : list string;
  parentTaskId : option string;
  level : nat;
}.

(** [{ ...col, taskIds: ids }] *)
Definition with_taskIds (ids : list string) (c : t) : t :=
  mk (id c) ids (parentTaskId c) (level c).

#[global] Instance eq_dec : EqDecision t.
Proof. solve_decision. Defined.
End TaskColumn.

(** [TaskTemplateTaskDefinition]: a tree of definitions. *)
#[local] Unset Elimination Schemes.
Inductive TaskDef : Type :=
  mkTaskDef {
    def_title : string;
    def_description : option string;
    def_estimatedMinutes : option Z;
    def_priority : option TaskPriority;
    def_tags : option (list string);
    def_children : option (list TaskDef);
  }.
#[local] Set Elimination Schemes.

Module TaskTemplate.
Record t : Type := mk {
  id : string;
  name : string;
  tasks : list TaskDef;
}.
End TaskTemplate.

(** [ExportedTask]: a task whose two dates are strings. *)
Module ExportedTask.
Record t : Type := mk {
  id : string;
  title : string;
  description : option string;
  completed : bool;
  parentId : option string;
  childrenIds : list string;
  createdAt : string;
  completedAt : option string;
  estimatedMinutes : option Z;
  tags : list string;
  priority : TaskPriority;
}.
End ExportedTask.

(** [Omit<Partial<Task>, 'createdAt'>]: an object that holds some of the
    keys of a task, [createdAt] apart ([None] is a key that the object
    does not hold).  It is what [updateTask] spreads over a task, and
    what the entry under a key of [tasks] is made of when that entry is
    no task. *)
Module Rest.
Record t : Type := mk {
  id : option string;
  title : option string;
  description : option (option string);
  completed : option bool;
  parentId : option (option string);
  childrenIds : option (list string);
  completedAt : option (option Date);
  estimatedMinutes : option (option Z);
  tags : option (list string);
  priority : option TaskPriority;
}.

(** [{}] *)
Definition empty : t :=
  mk None None None None None None None None None None.

(** [{ ...task, ...rest }] on a task: every key that [rest] holds
    replaces the task's. *)
Definition onto (x : Task.t) (r : t) : Task.t :=
  Task.mk
    (default (Task.id x) (id r))
    (default (Task.title x) (title r))
    (default (Task.description x) (description r))
    (default (Task.completed x) (completed r))
    (default (Task.parentId x) (parentId r))
    (default (Task.childrenIds x) (childrenIds r))
    (Task.createdAt x)
    (default (Task.completedAt x) (completedAt r))
    (default (Task.estimatedMinutes x) (estimatedMinutes r))
    (default (Task.tags x) (tags r))
    (default (Task.priority x) (priority r)).

(** One key of [{ ...o, ...r }]: that of [r] when it holds one, else
    that of [o]. *)
Definition over {A} (r o : option A) : option A :=
  match r with
  | Some a => Some a
  | None => o
  end.

(** [{ ...o, ...rest }] on an object that is no task. *)
Definition merge (o r : t) : t :=
  mk (over (id r) (id o))
     (over (title r) (title o))
     (over (description r) (description o))
     (over (completed r) (completed o))
     (over (parentId r) (parentId o))
     (over (childrenIds r) (childrenIds o))
     (over (completedAt r) (completedAt o))
     (over (estimatedMinutes r) (estimatedMinutes o))
     (over (tags r) (tags o))
     (over (priority r) (priority o)).

(** [{ ...o, childrenIds: c }] *)
Definition with_childrenIds (c : list string) (o : t) : t :=
  mk (id o) (title o) (description o) (completed o) (parentId o) (Some c)
     (completedAt o) (estimatedMinutes o) (tags o) (priority o).

(** [{ ...o, completed: c, completedAt: d }] *)
Definition with_completion (c : bool) (d : option Date) (o : t) : t :=
  mk (id o) (title o) (description o) (Some c) (parentId o) (childrenIds o)
     (Some d) (estimatedMinutes o) (tags o) (priority o).

#[global] Instance eq_dec : EqDecision t.
Proof. solve_decision. Defined.
End Rest.

(** [Partial<Task>], the argument of [updateTask]: [None] is a key that
    is not supplied. *)
Module TaskPatch.
Record t : Type := mk {
  id : option string;
  title : option string;
  description : option (option string);
  completed : option bool;
  parentId : option (option string);
  childrenIds : option (list string);
  createdAt : option Date;
  completedAt : option (option Date);
  estimatedMinutes : option (option Z);
  tags : option (list string);
  priority : option TaskPriority;
}.

Definition empty : t :=
  mk None None None None None None None None None None None.

(** [const { createdAt, ...restOfProperties } = updatedProperties] *)
Definition restOfProperties (p : t) : Rest.t :=
  Rest.mk (id p) (title p) (description p) (completed p) (parentId p)
     (childrenIds p) (completedAt p) (estimatedMinutes p) (tags p)
     (priority p).
End TaskPatch.

(** What is stored under a key of [tasks] at run time.  The type of the
    store says a task, and a task it is when [addTask] or [importState]
    put it there.  But the actions read [tasks[id]] without asking
    whether the key is the object's own: on a name of [Object.prototype]
    they find a function, take it for the task and store what they make
    of it, an object with the few keys they set.  Such an object never
    holds [createdAt]: [updateTask] takes that key out of what it
    spreads, and no other action sets it. *)
Module Entry.
Inductive t : Type :=
  | task (x : Task.t)
  | partial (o : Rest.t).

(** [e.parentId], [e.childrenIds], [e.completed], [e.completedAt],
    [e.title] and [e.createdAt] as the code uses them: [parentId] and
    [completedAt] for their truth value and then their content, so that
    [undefined] and [null] are one; [completed] for its truth value
    only. *)
Definition parentId (e : t) : option string :=
  match e with
  | task x => Task.parentId x
  | partial o => default None (Rest.parentId o)
  end.

Definition childrenIds (e : t) : option (list string) :=
  match e with
  | task x => Some (Task.childrenIds x)
  | partial o => Rest.childrenIds o
  end.

Definition completed (e : t) : bool :=
  match e with
  | task x => Task.completed x
  | partial o => default false (Rest.completed o)
  end.

Definition completedAt (e : t) : option Date :=
  match e with
  | task x => Task.completedAt x
  | partial o => default None (Rest.completedAt o)
  end.

Definition title (e : t) : option string :=
  match e with
  | task x => Some (Task.title x)
  | partial o => Rest.title o
  end.

Definition createdAt (e : t) : option Date :=
  match e with
  | task x => Some (Task.createdAt x)
  | partial _ => None
  end.

(** [{ ...e, ...rest }] *)
Definition spread (e : t) (r : Rest.t) : t :=
  match e with
  | task x => task (Rest.onto x r)
  | partial o => partial (Rest.merge o r)
  end.

(** [{ ...e, childrenIds: c }] *)
Definition with_childrenIds (c : list string) (e : t) : t :=
  match e with
  | task x => task (Task.with_childrenIds c x)
  | partial o => partial (Rest.with_childrenIds c o)
  end.

(** [{ ...e, completed: c, completedAt: d }] *)
Definition with_completion (c : bool) (d : option Date) (e : t) : t :=
  match e with
  | task x => task (Task.with_completion c d x)
  | partial o => partial (Rest.with_completion c d o)
  end.

(** The value that a read of [tasks] finds, taken for a task: an
    inherited function holds none of the keys. *)
Definition of_found (f : Found t) : option t :=
  match f with
  | Own e => Some e
  | Inherited => Some (partial Rest.empty)
  | NotFound => None
  end.

#[global] Instance eq_dec : EqDecision t.
Proof. solve_decision. Defined.
End Entry.

Coercion Entry.task : Task.t >-> Entry.t.

(** [tasks[id]] *)
Definition taskAt (tasks : gmap string Entry.t) (id : string) : option Entry.t :=
  Entry.of_found (get tasks id).

(** [ExportedData], the envelope that [handleExport] builds. *)
Module ExportedData.
Record t : Type := mk {
  version : Z;
  tasks : gmap string ExportedTask.t;
  rootTaskIds : list string;
  taskTemplates : option (gmap string TaskTemplate.t);
}.
End ExportedData.

(** What [importState] can be handed at run time: the parsed JSON is only
    cast to [ExportedData].  The three keys it inspects have any shape; an
    entry of [tasks] is an [ExportedTask] or [null].  (An array in the
    place of [tasks] or [taskTemplates] is not modelled.) *)
Module ImportData.
Record t : Type := mk {
  version : option Z;
  tasks : Value Empty_set (gmap string (option ExportedTask.t));
  rootTaskIds : Value (list string) unit;
  taskTemplates : Value Empty_set (gmap string TaskTemplate.t);
}.
End ImportData.

(** ** The store state ([TaskState] without its methods)

    [taskTemplates] is [None] when the property holds [null], which
    [importState] can store there. *)
Record TaskState : Type := mkState {
  tasks : gmap string Entry.t;
  columns : list TaskColumn.t;
  rootTaskIds : list string;
  selectedTaskId : option string;
  editingTaskId : option string;
  taskTemplates : option (gmap string TaskTemplate.t);
}.

(** The patches that the actions hand to [set]. *)
Definition set_tasks (ts : gmap string Entry.t) (s : TaskState) : TaskState :=
  mkState ts (columns s) (rootTaskIds s) (selectedTaskId s) (editingTaskId s)
          (taskTemplates s).

Definition set_columns (cs : list TaskColumn.t) (s : TaskState) : TaskState :=
  mkState (tasks s) cs (rootTaskIds s) (selectedTaskId s) (editingTaskId s)
          (taskTemplates s).

Definition set_tasks_roots (ts : gmap string Entry.t) (rs : list string)
    (s : TaskState) : TaskState :=
  mkState ts (columns s) rs (selectedTaskId s) (editingTaskId s)
          (taskTemplates s).

(** The state of the store once an action has run: [set] is not reached
    when the action throws. *)
Definition stateAfter (state : TaskState) (o : Outcome TaskState) : TaskState :=
  match o with
  | Ok state' => state'
  | Throw _ => state
  end.

(** ** The actions of the store *)

(** [addTask].  [new Set(undefined)] is the empty set. *)
Definition addTask (task : Task.t) (state : TaskState) : TaskState :=
  let newTasks := <[Task.id task := Entry.task task]> (tasks state) in
  let newRootTaskIds := rootTaskIds state in
  if negb (truthy (Task.parentId task)) then
    let newRootTaskIds :=
      if negb (includes newRootTaskIds (Task.id task))
      then newRootTaskIds ++ [Task.id task]
      else newRootTaskIds in
    set_tasks_roots newTasks newRootTaskIds state
  else
    let pid := default "" (Task.parentId task) in
    match taskAt newTasks pid with
    | Some parent =>
        let childrenIdsSet :=
          Set_add (Set_new (default [] (Entry.childrenIds parent))) (Task.id task) in
        let newTasks :=
          assign newTasks pid (Entry.with_childrenIds childrenIdsSet parent) in
        set_tasks_roots newTasks newRootTaskIds state
    | None => set_tasks_roots newTasks newRootTaskIds state
    end.

(** [updateTask] *)
Definition updateTask (taskId : string) (updatedProperties : TaskPatch.t)
    (state : TaskState) : TaskState :=
  match taskAt (tasks state) taskId with
  | None => state
  | Some taskToUpdate =>
      let restOfProperties := TaskPatch.restOfProperties updatedProperties in
      set_tasks (<[taskId := Entry.spread taskToUpdate restOfProperties]> (tasks state))
                state
  end.

(** [deleteTask].  [parent.childrenIds.filter] throws a [TypeError] when
    the parent holds no [childrenIds]. *)
Definition deleteTask (taskId : string) (state : TaskState) : Outcome TaskState :=
  let newTasks := tasks state in
  match taskAt newTasks taskId with
  | None => Ok state
  | Some taskToDelete =>
      let newTasks := delete taskId newTasks in
      newTasks ←
        (if truthy (Entry.parentId taskToDelete) then
           let pid := default "" (Entry.parentId taskToDelete) in
           match taskAt newTasks pid with
           | Some parent =>
               childrenIds ← match Entry.childrenIds parent with
                             | Some childrenIds => Ok childrenIds
                             | None => Throw TypeError
                             end;
               Ok (assign newTasks pid
                     (Entry.with_childrenIds
                        (filter (λ id, id ≠ taskId) childrenIds) parent))
           | None => Ok newTasks
           end
         else Ok newTasks);
      let newRootTaskIds := filter (λ id, id ≠ taskId) (rootTaskIds state) in
      let newSelectedTaskId :=
        if bool_decide (selectedTaskId state = Some taskId) then None
        else selectedTaskId state in
      let newEditingTaskId :=
        if bool_decide (editingTaskId state = Some taskId) then None
        else editingTaskId state in
      Ok (mkState newTasks (columns state) newRootTaskIds newSelectedTaskId
                  newEditingTaskId (taskTemplates state))
  end.

(** [toggleTaskCompletion]; [now] is the instant that [new Date()] reads. *)
Definition toggleTaskCompletion (now : Date) (taskId : string)
    (state : TaskState) : TaskState :=
  match taskAt (tasks state) taskId with
  | None => state
  | Some task =>
      set_tasks
        (<[taskId := Entry.with_completion
                       (negb (Entry.completed task))
                       (if negb (Entry.completed task) then Some now else None)
                       task]> (tasks state))
        state
  end.

(** [addColumn] and [removeColumn] *)
Definition addColumn (column : TaskColumn.t) (state : TaskState) : TaskState :=
  set_columns (columns state ++ [column]) state.

Definition removeColumn (columnId : string) (state : TaskState) : TaskState :=
  set_columns (filter (λ col, TaskColumn.id col ≠ columnId) (columns state)) state.

(** [setActiveColumns].  [clock n] is what the call of [Date.now()] that
    names the column of level [n] returns.  The loop carries [newColumns]
    and [level]. *)

(** [!!state.tasks[id]] *)
Definition exists_in (ts : gmap string Entry.t) (id : string) : bool :=
  bool_decide (is_Some (taskAt ts id)).

Definition setActiveColumns_body (state : TaskState) (clock : nat → Z)
    (acc : list TaskColumn.t * nat) (taskId : string)
    : list TaskColumn.t * nat :=
  let '(newColumns, level) := acc in
  match taskAt (tasks state) taskId with
  | Some task =>
      match Entry.childrenIds task with
      | Some childrenIds =>
          if (0 <? length childrenIds)%nat then
            let childColumn :=
              TaskColumn.mk
                ("column-" +:+ taskId +:+ "-" +:+ pretty (clock level))
                (filter (λ id, exists_in (tasks state) id) childrenIds)
                (Some taskId)
                level in
            (newColumns ++ [childColumn], S level)
          else acc
      | None => acc
      end
  | None => acc
  end.

Definition setActiveColumns (clock : nat → Z)
    (selectedTaskIdsHierarchy : list string) (state : TaskState) : TaskState :=
  let rootColumn :=
    TaskColumn.mk
      ("column-root-" +:+ pretty (clock 0%nat))
      (filter (λ id, exists_in (tasks state) id) (rootTaskIds state))
      None
      0 in
  let '(newColumns, _) :=
    foldl (setActiveColumns_body state clock) ([rootColumn], 1%nat)
          selectedTaskIdsHierarchy in
  let finalColumns := take 5 newColumns in
  set_columns finalColumns state.

(** ** ECMAScript time arithmetic

    The abstract operations of the language specification (Day,
    YearFromTime, MakeDay, ...), on which [Date.prototype.getDay],
    [setDate], [setHours], [toISOString] and the parsing of date-time
    strings are defined. *)

Module ES.
Local Open Scope Z_scope.

Definition msPerSecond : Z := 1000.
Definition msPerMinute : Z := 60000.
Definition msPerHour : Z := 3600000.
Definition msPerDay : Z := 86400000.
Definition maxTime : Z := 8640000000000000.

Definition Day (t : Z) : Z := t / msPerDay.
Definition TimeWithinDay (t : Z) : Z := t mod msPerDay.

Definition DaysInYear (y : Z) : Z :=
  if negb (y mod 4 =? 0) then 365
  else if negb (y mod 100 =? 0) then 366
  else if negb (y mod 400 =? 0) then 365
  else 366.

Definition DayFromYear (y : Z) : Z :=
  365 * (y - 1970) + (y - 1969) / 4 - (y - 1901) / 100 + (y - 1601) / 400.

Definition TimeFromYear (y : Z) : Z := msPerDay * DayFromYear y.

(** The largest [y] with [TimeFromYear y <= t]: the mean length of a
    year gives a year that is off by one at most. *)
Definition YearFromDay (d : Z) : Z :=
  let y := 1970 + (400 * d) / 146097 in
  if d <? DayFromYear y then y - 1
  else if DayFromYear (y + 1) <=? d then y + 1
  else y.

Definition YearFromTime (t : Z) : Z := YearFromDay (Day t).

Definition leap (y : Z) : Z := if DaysInYear y =? 366 then 1 else 0.
Definition InLeapYear (t : Z) : Z := leap (YearFromTime t).

Definition DayWithinYear (t : Z) : Z := Day t - DayFromYear (YearFromTime t).

(** Day within the year on which month [m] (0 to 11) starts; month 12
    stands for the start of the next year. *)
Definition monthStart (m lp : Z) : Z :=
  if m =? 0 then 0
  else if m =? 1 then 31
  else if m =? 2 then 59 + lp
  else if m =? 3 then 90 + lp
  else if m =? 4 then 120 + lp
  else if m =? 5 then 151 + lp
  else if m =? 6 then 181 + lp
  else if m =? 7 then 212 + lp
  else if m =? 8 then 243 + lp
  else if m =? 9 then 273 + lp
  else if m =? 10 then 304 + lp
  else if m =? 11 then 334 + lp
  else 365 + lp.

Definition monthOfDay (d lp : Z) : Z :=
  if d <? 31 then 0
  else if d <? 59 + lp then 1
  else if d <? 90 + lp then 2
  else if d <? 120 + lp then 3
  else if d <? 151 + lp then 4
  else if d <? 181 + lp then 5
  else if d <? 212 + lp then 6
  else if d <? 243 + lp then 7
  else if d <? 273 + lp then 8
  else if d <? 304 + lp then 9
  else if d <? 334 + lp then 10
  else 11.

Definition MonthFromTime (t : Z) : Z :=
  monthOfDay (DayWithinYear t) (InLeapYear t).

Definition DateFromTime (t : Z) : Z :=
  DayWithinYear t - monthStart (MonthFromTime t) (InLeapYear t) + 1.

Definition WeekDay (t : Z) : Z := (Day t + 4) mod 7.

Definition HourFromTime (t : Z) : Z := (t / msPerHour) mod 24.
Definition MinFromTime (t : Z) : Z := (t / msPerMinute) mod 60.
Definition SecFromTime (t : Z) : Z := (t / msPerSecond) mod 60.
Definition msFromTime (t : Z) : Z := t mod msPerSecond.

Definition MakeTime (hour min sec ms : Z) : Z :=
  hour * msPerHour + min * msPerMinute + sec * msPerSecond + ms.

Definition MakeDay (year month date : Z) : Z :=
  let ym := year + month / 12 in
  let mn := month mod 12 in
  DayFromYear ym + monthStart mn (leap ym) + date - 1.

Definition MakeDate (day time : Z) : Z := day * msPerDay + time.

Definition TimeClip (time : Z) : Date :=
  if Z.abs time <=? maxTime then Time time else InvalidDate.

(** *** Local time.  A zone gives the offset of local time from UTC,
    in milliseconds, in the two ways of the language: [offsetAt t] is
    the offset in force at the instant [t] (LocalTZA(t, true)), and
    [offsetOf l] the offset that the zone assigns to the local time [l]
    (LocalTZA(l, false)).  Where the offset changes (daylight saving) a
    local time is skipped or occurs twice, and [offsetOf] settles what
    the zone makes of it. *)
Record Zone : Type := mkZone {
  offsetAt : Z → Z;
  offsetOf : Z → Z;
}.

Definition LocalTime (zone : Zone) (t : Z) : Z := t + offsetAt zone t.
Definition UTC (zone : Zone) (t : Z) : Z := t - offsetOf zone t.

(** The zone that keeps one offset [tza] at all times. *)
Definition fixed (tza : Z) : Zone := mkZone (λ _, tza) (λ _, tza).

(** [d.getDay()], [d.getDate()] *)
Definition getDay (zone : Zone) (d : Date) : option Z :=
  match d with
  | Time tv => Some (WeekDay (LocalTime zone tv))
  | InvalidDate => None
  end.

Definition getDate (zone : Zone) (d : Date) : option Z :=
  match d with
  | Time tv => Some (DateFromTime (LocalTime zone tv))
  | InvalidDate => None
  end.

Definition getFullYear (zone : Zone) (d : Date) : option Z :=
  match d with
  | Time tv => Some (YearFromTime (LocalTime zone tv))
  | InvalidDate => None
  end.

Definition getMonth (zone : Zone) (d : Date) : option Z :=
  match d with
  | Time tv => Some (MonthFromTime (LocalTime zone tv))
  | InvalidDate => None
  end.

(** [d.setDate(dt)]; [None] is a NaN argument. *)
Definition setDate (zone : Zone) (dt : option Z) (d : Date) : Date :=
  match d, dt with
  | Time tv, Some dt =>
      let t := LocalTime zone tv in
      let newDate :=
        MakeDate (MakeDay (YearFromTime t) (MonthFromTime t) dt)
                 (TimeWithinDay t) in
      TimeClip (UTC zone newDate)
  | _, _ => InvalidDate
  end.

(** [d.setHours(h, m, s, ms)] *)
Definition setHours (zone : Zone) (h m s ms : Z) (d : Date) : Date :=
  match d with
  | Time tv =>
      let t := LocalTime zone tv in
      TimeClip (UTC zone (MakeDate (Day t) (MakeTime h m s ms)))
  | InvalidDate => InvalidDate
  end.

(** [new Date(year, month, 1)]; a year from 0 to 99 stands for 1900
    plus that year. *)
Definition newDate_ym1 (zone : Zone) (year month : option Z) : Date :=
  match year, month with
  | Some y, Some m =>
      let yr := if (0 <=? y) && (y <=? 99) then 1900 + y else y in
      TimeClip (UTC zone (MakeDate (MakeDay yr m 1) (MakeTime 0 0 0 0)))
  | _, _ => InvalidDate
  end.

(** [a >= b] on two dates: the comparison of their time values, false
    when either is NaN. *)
Definition ge (a b : Date) : bool :=
  match a, b with
  | Time x, Time y => y <=? x
  | _, _ => false
  end.

(** *** The date-time string format [YYYY-MM-DDTHH:mm:ss.sssZ] *)

Definition digit (d : Z) : ascii := ascii_of_nat (48 + Z.to_nat d).

(** The last [n] decimal digits of [v]. *)
Fixpoint pad (n : nat) (v : Z) : string :=
  match n with
  | O => EmptyString
  | S n' => String (digit ((v / 10 ^ Z.of_nat n') mod 10)) (pad n' v)
  end.

Definition yearString (y : Z) : string :=
  if (0 <=? y) && (y <=? 9999) then pad 4 y
  else if y <? 0 then String "-"%char (pad 6 (- y))
  else String "+"%char (pad 6 y).

(** [Date.prototype.toISOString]: a [RangeError] on an invalid date. *)
Definition toISOString (d : Date) : Outcome string :=
  match d with
  | InvalidDate => Throw RangeError
  | Time t =>
      Ok (yearString (YearFromTime t)
          +:+ "-" +:+ pad 2 (MonthFromTime t + 1)
          +:+ "-" +:+ pad 2 (DateFromTime t)
          +:+ "T" +:+ pad 2 (HourFromTime t)
          +:+ ":" +:+ pad 2 (MinFromTime t)
          +:+ ":" +:+ pad 2 (SecFromTime t)
          +:+ "." +:+ pad 3 (msFromTime t)
          +:+ "Z")
  end.

(** Reading the format back.  [digits n s] reads [n] decimal digits. *)
Definition digitValue (c : ascii) : option Z :=
  let n := Z.of_nat (nat_of_ascii c) in
  if (48 <=? n) && (n <=? 57) then Some (n - 48) else None.

Fixpoint digits (n : nat) (s : string) : option (Z * string) :=
  match n with
  | O => Some (0, s)
  | S n' =>
      match s with
      | EmptyString => None
      | String c s' =>
          d ← digitValue c;
          '(v, r) ← digits n' s';
          Some (d * 10 ^ Z.of_nat n' + v, r)
      end
  end.

Definition expect (c : ascii) (s : string) : option string :=
  match s with
  | String c' s' => if bool_decide (c = c') then Some s' else None
  | EmptyString => None
  end.

Definition parseYear (s : string) : option (Z * string) :=
  match s with
  | String "+"%char s' => digits 6 s'
  | String "-"%char s' =>
      '(y, r) ← digits 6 s';
      if y =? 0 then None else Some (- y, r)
  | _ => digits 4 s
  end.

Definition DaysInMonth (y m : Z) : Z :=
  monthStart (m + 1) (leap y) - monthStart m (leap y).

(** The complete UTC form, with every field in its range; the time value
    it denotes, or [None] when the string is not of that form. *)
Definition parseISO (s : string) : option Z :=
  '(y, s) ← parseYear s;
  s ← expect "-"%char s;
  '(mo, s) ← digits 2 s;
  s ← expect "-"%char s;
  '(dd, s) ← digits 2 s;
  s ← expect "T"%char s;
  '(hh, s) ← digits 2 s;
  s ← expect ":"%char s;
  '(mi, s) ← digits 2 s;
  s ← expect ":"%char s;
  '(ss, s) ← digits 2 s;
  s ← expect "."%char s;
  '(ms, s) ← digits 3 s;
  s ← expect "Z"%char s;
  if bool_decide (s = EmptyString)
     && (1 <=? mo) && (mo <=? 12)
     && (1 <=? dd) && (dd <=? DaysInMonth y (mo - 1))
     && (hh <=? 23) && (mi <=? 59) && (ss <=? 59)
  then
    let tv := MakeDate (MakeDay y (mo - 1) dd) (MakeTime hh mi ss ms) in
    if Z.abs tv <=? maxTime then Some tv else None
  else None.

(** [new Date(s)] on a string.  The language fixes the result on the
    strings of the date-time format and leaves the others to the
    implementation: [fallback] is what the implementation makes of
    those. *)
Definition newDate_string (fallback : string → Date) (s : string) : Date :=
  match parseISO s with
  | Some tv => Time tv
  | None => fallback s
  end.

End ES.

Coercion ES.fixed : Z >-> ES.Zone.

(** ** The selectors for the statistics panel

    [zone] is the time zone of the machine and [now] the instant that
    [new Date()] reads. *)

(** [Object.values(m)], [Object.entries(m)] and [Object.fromEntries(l)]
    (on a repeated key the later entry wins). *)
Definition Object_values {A} (m : gmap string A) : list A := (map_to_list m).*2.
Definition Object_entries {A} (m : gmap string A) : list (string * A) := map_to_list m.
Definition Object_fromEntries {A} (l : list (string * A)) : gmap string A :=
  list_to_map (reverse l).

(** [task.completed && task.completedAt && new Date(task.completedAt) >= start];
    copying a date keeps its time value. *)
Definition completedSince (start : Date) (task : Entry.t) : bool :=
  Entry.completed task &&
  match Entry.completedAt task with
  | Some completedAt => ES.ge completedAt start
  | None => false
  end.

Definition getCompletedTasksTotalCount (state : TaskState) : nat :=
  length (filter (λ task, Entry.completed task) (Object_values (tasks state))).

Definition todayStart (zone : ES.Zone) (now : Date) : Date :=
  ES.setHours zone 0 0 0 0 now.

Definition getTasksCompletedTodayCount (zone : ES.Zone) (now : Date)
    (state : TaskState) : nat :=
  length (filter (λ task, completedSince (todayStart zone now) task)
                 (Object_values (tasks state))).

(** [today === 0 ? 6 : today - 1] *)
Definition weekOffset (today : Z) : Z :=
  if (today =? 0)%Z then 6%Z else (today - 1)%Z.

Definition weekStart (zone : ES.Zone) (now : Date) : Date :=
  let today := ES.getDay zone now in
  let weekStart := now in
  let weekStart :=
    ES.setDate zone
      (date ← ES.getDate zone now; today ← today; Some (date - weekOffset today)%Z)
      weekStart in
  ES.setHours zone 0 0 0 0 weekStart.

Definition getTasksCompletedThisWeekCount (zone : ES.Zone) (now : Date)
    (state : TaskState) : nat :=
  length (filter (λ task, completedSince (weekStart zone now) task)
                 (Object_values (tasks state))).

Definition monthStart (zone : ES.Zone) (now : Date) : Date :=
  let monthStart :=
    ES.newDate_ym1 zone (ES.getFullYear zone now) (ES.getMonth zone now) in
  ES.setHours zone 0 0 0 0 monthStart.

Definition getTasksCompletedThisMonthCount (zone : ES.Zone) (now : Date)
    (state : TaskState) : nat :=
  length (filter (λ task, completedSince (monthStart zone now) task)
                 (Object_values (tasks state))).

(** ** Export and import *)

Definition CURRENT_DATA_VERSION : Z := 1.

(** [Object.fromEntries(Object.entries(m).map(([id, x]) => [id, f(x)]))],
    where [f] may throw. *)
Definition mapEntries {A B} (f : A → Outcome B) (m : gmap string A)
    : Outcome (gmap string B) :=
  l ← mapM (λ e : string * A, y ← f e.2; Ok (e.1, y)) (Object_entries m);
  Ok (Object_fromEntries l).

(** The conversion of one task in [handleExport].  An entry that is no
    task holds no [createdAt], and [task.createdAt.toISOString()] throws a
    [TypeError]. *)
Definition exportTask (task : Entry.t) : Outcome ExportedTask.t :=
  match task with
  | Entry.partial _ => Throw TypeError
  | Entry.task task =>
      createdAt ← ES.toISOString (Task.createdAt task);
      completedAt ←
        match Task.completedAt task with
        | Some d => s ← ES.toISOString d; Ok (Some s)
        | None => Ok None
        end;
      Ok (ExportedTask.mk (Task.id task) (Task.title task) (Task.description task)
            (Task.completed task) (Task.parentId task) (Task.childrenIds task)
            createdAt completedAt
            (Task.estimatedMinutes task) (Task.tags task) (Task.priority task))
  end.

(** [handleExport], up to [dataToExport] (what follows writes the file). *)
Definition handleExport (state : TaskState) : Outcome ExportedData.t :=
  exportedTasks ← mapEntries exportTask (tasks state);
  Ok (ExportedData.mk CURRENT_DATA_VERSION exportedTasks (rootTaskIds state)
        (taskTemplates state)).

(** The exported envelope as the value that [importState] receives. *)
Definition asImportData (d : ExportedData.t) : ImportData.t :=
  ImportData.mk
    (Some (ExportedData.version d))
    (Object (Some <$> ExportedData.tasks d))
    (Array (ExportedData.rootTaskIds d))
    (match ExportedData.taskTemplates d with
     | Some m => Object m
     | None => Null
     end).

(** [Object.entries(v)] on a value: a [TypeError] on [null] and
    [undefined]; a number or a boolean has no entries. *)
Definition Object_entries_of {A} (v : Value Empty_set (gmap string A))
    : Outcome (list (string * A)) :=
  match v with
  | Undefined | Null => Throw TypeError
  | Primitive => Ok []
  | Array e => match e with end
  | Object m => Ok (Object_entries m)
  end.

(** The body of the [map] callback of [importState]: reading a property of
    [null] throws. *)
Definition rehydrate (fallback : string → Date)
    (task : option ExportedTask.t) : Outcome Entry.t :=
  match task with
  | None => Throw TypeError
  | Some task =>
      Ok (Entry.task
            (Task.mk (ExportedTask.id task) (ExportedTask.title task)
               (ExportedTask.description task) (ExportedTask.completed task)
               (ExportedTask.parentId task) (ExportedTask.childrenIds task)
               (ES.newDate_string fallback (ExportedTask.createdAt task))
               (if truthy (ExportedTask.completedAt task)
                then Some (ES.newDate_string fallback
                             (default "" (ExportedTask.completedAt task)))
                else None)
               (ExportedTask.estimatedMinutes task) (ExportedTask.tags task)
               (ExportedTask.priority task)))
  end.

(** What the store holds once [set] has been given [data.rootTaskIds] and
    [data.taskTemplates]; the guard lets through an array for the first,
    and an object or [null] for the second. *)
Definition storedRootTaskIds (v : Value (list string) unit) : list string :=
  match v with
  | Array l => l
  | _ => []
  end.

Definition storedTaskTemplates (v : Value Empty_set (gmap string TaskTemplate.t))
    : option (gmap string TaskTemplate.t) :=
  match v with
  | Object m => Some m
  | _ => None
  end.

(** [importState]; [data = None] is a [data] that is [null], [undefined]
    or not an object at all. *)
Definition importState (fallback : string → Date) (data : option ImportData.t)
    (state : TaskState) : bool * TaskState :=
  match data with
  | None => (false, state)
  | Some data =>
      if negb (typeof_object (ImportData.tasks data))
         || negb (isArray (ImportData.rootTaskIds data))
         || negb (typeof_object (ImportData.taskTemplates data))
      then (false, state)
      else
        let attempt :=
          entries ← Object_entries_of (ImportData.tasks data);
          l ← mapM (λ e : string * option ExportedTask.t,
                      task ← rehydrate fallback e.2; Ok (e.1, task)) entries;
          Ok (Object_fromEntries l) in
        match attempt with
        | Ok rehydratedTasks =>
            (true,
             mkState rehydratedTasks []
                     (storedRootTaskIds (ImportData.rootTaskIds data))
                     None None
                     (storedTaskTemplates (ImportData.taskTemplates data)))
        | Throw _ => (false, state)
        end
  end.

(** ** Templates *)

(** [addTemplate]: spreading [null] gives the empty object. *)
Definition addTemplate (template : TaskTemplate.t) (state : TaskState)
    : TaskState :=
  mkState (tasks state) (columns state) (rootTaskIds state)
          (selectedTaskId state) (editingTaskId state)
          (Some (<[TaskTemplate.id template := template]>
                   (default ∅ (taskTemplates state)))).

(** The variables that [applyTemplate] declares before its helper. *)
Record Generated : Type := mkGenerated {
  generatedTopLevelTaskIds : list string;
  tempTasks : gmap string Task.t;
  tempRootTaskIds : list string;
  tempParentChildMap : gmap string (list string);
  uuidCalls : nat;
}.

Definition noneGenerated : Generated := mkGenerated [] ∅ [] ∅ 0.

(** [processTaskDefinition], the helper declared inside [applyTemplate].
    [uuidv4 n] is the identifier that the call number [n] of [uuidv4()]
    returns and [clock n] the instant read while the task number [n] is
    built.  Under a parent whose name [tempParentChildMap] inherits, the
    map is given no list and [push] is not a function: a [TypeError]. *)
Fixpoint processTaskDefinition (uuidv4 : nat → string) (clock : nat → Date)
    (startDateTime : option Date) (taskDef : TaskDef)
    (currentParentId : option string) (g : Generated) {struct taskDef}
    : Outcome (string * Generated) :=
  match taskDef with
  | mkTaskDef title description estimatedMinutes priority tags children =>
      let newTaskId := uuidv4 (uuidCalls g) in
      let newTask :=
        Task.mk newTaskId title
          (or_else_string description None)
          false currentParentId []
          (default (clock (uuidCalls g)) startDateTime)
          None
          (or_else_number estimatedMinutes None)
          (default [] tags)
          (default medium priority) in
      let tempTasks := assign (tempTasks g) newTaskId newTask in
      g ←
        (if truthy currentParentId then
           let pid := default "" currentParentId in
           children ←
             match get (tempParentChildMap g) pid with
             | Own children => Ok children
             | NotFound => Ok []
             | Inherited => Throw TypeError
             end;
           Ok (mkGenerated (generatedTopLevelTaskIds g)
                 tempTasks
                 (tempRootTaskIds g)
                 (<[pid := children ++ [newTaskId]]> (tempParentChildMap g))
                 (S (uuidCalls g)))
         else
           Ok (mkGenerated (generatedTopLevelTaskIds g ++ [newTaskId])
                 tempTasks
                 (tempRootTaskIds g ++ [newTaskId])
                 (tempParentChildMap g)
                 (S (uuidCalls g))));
      g ←
        match children with
        | Some children =>
            (fix forEach (defs : list TaskDef) (g : Generated) : Outcome Generated :=
               match defs with
               | [] => Ok g
               | childDef :: defs' =>
                   match processTaskDefinition uuidv4 clock startDateTime childDef
                           (Some newTaskId) g with
                   | Ok r => forEach defs' r.2
                   | Throw e => Throw e
                   end
               end) children g
        | None => Ok g
        end;
      Ok (newTaskId, g)
  end.

(** [applyTemplate] of [src/store/useTaskStore.ts].  The callback handed
    to [template.tasks.forEach] has an empty body: it does not call
    [processTaskDefinition].  Under a name that [taskTemplates] inherits,
    [template.tasks] is [undefined] and the call of [forEach] throws; in
    the patch handed to [set], spreading a [childrenIds] that the parent
    does not hold, or the function found under an inherited name, throws
    as well. *)
Definition applyTemplate (uuidv4 : nat → string) (clock : nat → Date)
    (templateId : string) (parentId : option string)
    (startDateTime : option Date) (state : TaskState)
    : Outcome (list string * TaskState) :=
  match taskTemplates state with
  | None => Throw TypeError
  | Some templates =>
      match get templates templateId with
      | NotFound => Ok ([], state)
      | Inherited => Throw TypeError
      | Own template =>
          let g := foldl (λ g (taskDef : TaskDef), g) noneGenerated
                         (TaskTemplate.tasks template) in
          let tempTasks :=
            map_fold
              (λ pId ids (tempTasks : gmap string Task.t),
                 match get tempTasks pId with
                 | Own task => <[pId := Task.with_childrenIds ids task]> tempTasks
                 | _ => tempTasks
                 end)
              (tempTasks g) (tempParentChildMap g) in
          let finalTasks := (Entry.task <$> tempTasks) ∪ tasks state in
          let finalRootTaskIds :=
            foldl (λ roots id,
                     if negb (includes roots id) then roots ++ [id] else roots)
                  (rootTaskIds state) (tempRootTaskIds g) in
          let pid := default "" parentId in
          finalTasks ←
            (if truthy parentId then
               match taskAt finalTasks pid with
               | Some parentTask =>
                   childrenIds ← match Entry.childrenIds parentTask with
                                 | Some childrenIds => Ok childrenIds
                                 | None => Throw TypeError
                                 end;
                   generated ← match get (tempParentChildMap g) pid with
                               | Own ids => Ok ids
                               | NotFound => Ok []
                               | Inherited => Throw TypeError
                               end;
                   let newChildrenForParent := Set_new (childrenIds ++ generated) in
                   Ok (assign finalTasks pid
                         (Entry.with_childrenIds newChildrenForParent parentTask))
               | None => Ok finalTasks
               end
             else Ok finalTasks);
          newColumns ←
            mapM (λ col,
                    if bool_decide (TaskColumn.parentTaskId col = parentId) then
                      added ← match get (tempParentChildMap g)
                                        (if truthy parentId then pid else "") with
                              | Own ids => Ok ids
                              | NotFound => Ok (tempRootTaskIds g)
                              | Inherited => Throw TypeError
                              end;
                      Ok (TaskColumn.with_taskIds
                            (foldl Set_add (Set_new (TaskColumn.taskIds col)) added)
                            col)
                    else Ok col)
                 (columns state);
          let newColumns :=
            if negb (truthy parentId) then
              match list_find
                      (λ col, TaskColumn.parentTaskId col = None
                              ∧ TaskColumn.level col = 0%nat) newColumns with
              | Some (rootColumnIndex, rootColumn) =>
                  <[rootColumnIndex :=
                      TaskColumn.with_taskIds
                        (foldl Set_add (Set_new (TaskColumn.taskIds rootColumn))
                               (tempRootTaskIds g))
                        rootColumn]> newColumns
              | None => newColumns
              end
            else newColumns in
          Ok (generatedTopLevelTaskIds g,
              mkState finalTasks newColumns finalRootTaskIds
                      (selectedTaskId state) (editingTaskId state)
                      (taskTemplates state))
      end
  end.

(** The earlier [applyTemplate] (the store as it stood before the import
    and the statistics were added): one task for each top-level
    definition, each handed to [addTask].  Its recursive helper
    [createTasksFromTemplate] is declared and never called. *)
Module Legacy.

Definition newTask (uuidv4 : nat → string) (clock : nat → Date)
    (parentId : option string) (n : nat) (taskDef : TaskDef) : Task.t :=
  Task.mk (uuidv4 n) (def_title taskDef) (def_description taskDef)
    false parentId [] (clock n) None
    (def_estimatedMinutes taskDef)
    (default [] (def_tags taskDef))
    (default medium (def_priority taskDef)).

Definition applyTemplate (uuidv4 : nat → string) (clock : nat → Date)
    (templateId : string) (parentId : option string)
    (startDateTime : option Date) (state : TaskState)
    : Outcome (list string * TaskState) :=
  match taskTemplates state with
  | None => Throw TypeError
  | Some templates =>
      match get templates templateId with
      | NotFound => Ok ([], state)
      | Inherited => Throw TypeError
      | Own template =>
          let '(topLevelTaskIds, state, _) :=
            foldl (λ '(topLevelTaskIds, state, n) taskDef,
                     let newTask := newTask uuidv4 clock parentId n taskDef in
                     (topLevelTaskIds ++ [Task.id newTask],
                      addTask newTask state, S n))
                  ([], state, 0%nat) (TaskTemplate.tasks template) in
          Ok (topLevelTaskIds, state)
      end
  end.

End Legacy.

(** ** The state the store starts in

    [initialCoreState] and [nonPersistentState]; [now] is the instant at
    which the module is loaded. *)

Definition simpleDef (title : string) (description : option string)
    (estimatedMinutes : option Z) (priority : option TaskPriority)
    (tags : option (list string)) : TaskDef :=
  mkTaskDef title description estimatedMinutes priority tags None.

Definition template_morning : TaskTemplate.t :=
  TaskTemplate.mk "template-morning" "朝の準備ルーティン"
    [ simpleDef "起床・着替え" (Some "アラームで起き、今日の服装を選ぶ。") (Some 15%Z) None None;
      simpleDef "朝食" (Some "シリアルとコーヒーを準備して食べる。") (Some 20%Z) None None;
      simpleDef "歯磨き・洗顔" None (Some 10%Z) None None;
      simpleDef "今日の予定確認" None (Some 5%Z) (Some high) None ].

Definition template_project_kickoff : TaskTemplate.t :=
  TaskTemplate.mk "template-project-kickoff" "プロジェクト開始準備"
    [ simpleDef "要件定義確認" None (Some 120%Z) (Some high) None;
      mkTaskDef "タスク洗い出し" None None (Some high) None
        (Some [ simpleDef "WBS作成" None (Some 60%Z) None None;
                simpleDef "担当者割り当て" None (Some 30%Z) None None ]);
      simpleDef "スケジュール作成" None (Some 90%Z) (Some medium) None;
      simpleDef "キックオフミーティング設定" None None (Some low) (Some ["meeting"]) ].

Definition initialTasks (now : Date) : gmap string Task.t :=
  <["task-1" := Task.mk "task-1" "親タスク 1 (サンプル)" (Some "これは親タスク1の説明です。")
                  false None ["task-2"; "task-3"] now None None [] medium]>
  (<["task-2" := Task.mk "task-2" "子タスク 1-1 (サンプル)" (Some "子タスク1-1の詳細。")
                   false (Some "task-1") [] now None None [] low]>
  (<["task-3" := Task.mk "task-3" "子タスク 1-2 (サンプル)" None
                   false (Some "task-1") ["task-4"] now None None [] high]>
  (<["task-4" := Task.mk "task-4" "孫タスク 1-2-1 (サンプル)" None
                   true (Some "task-3") [] now (Some now) None [] medium]>
  (<["task-5" := Task.mk "task-5" "親タスク 2 (サンプル)" None
                   false None [] now None None [] medium]> ∅)))).

Definition initialState (now : Date) : TaskState :=
  mkState
    (Entry.task <$> initialTasks now)
    []
    ["task-1"; "task-5"]
    None
    None
    (Some (<["template-morning" := template_morning]>
           (<["template-project-kickoff" := template_project_kickoff]> ∅))).

(** ** Notions of the specification *)

(** How many times an identifier appears in a sequence. *)
Definition occurrences (x : string) (l : list string) : nat :=
  length (filter (λ y, y = x) l).

(** A well-formed date: a time value within the range of the language
    (100,000,000 days on either side of the epoch), or NaN. *)
Definition wfDate (d : Date) : Prop :=
  match d with
  | Time tv => (Z.abs tv ≤ ES.maxTime)%Z
  | InvalidDate => True
  end.

Definition wfTask (task : Task.t) : Prop :=
  wfDate (Task.createdAt task) ∧
  match Task.completedAt task with
  | Some d => wfDate d
  | None => True
  end.

(** An entry whose dates are well formed: it holds dates when it is a
    task. *)
Definition wfEntry (task : Entry.t) : Prop :=
  match task with
  | Entry.task task => wfTask task
  | Entry.partial _ => True
  end.

(** The data model: the [childrenIds] of an entry are exactly the entries
    whose [parentId] is the key of that entry. *)
Definition childrenMirror (ts : gmap string Entry.t) : Prop :=
  map_Forall (λ P p,
      Forall (λ c, Entry.parentId <$> ts !! c = Some (Some P))
             (default [] (Entry.childrenIds p))
      ∧ map_Forall (λ c t, Entry.parentId t = Some P
                           → c ∈ default [] (Entry.childrenIds p)) ts)
    ts.

#[global] Instance childrenMirror_dec ts : Decision (childrenMirror ts).
Proof. unfold childrenMirror. apply _. Defined.

(** The projection of section 4.2 of the specification, as the code
    computes it: column 0 holds the root identifiers under which a read of
    the mapping finds something (an entry, or a property that every
    object inherits); every identifier of the hierarchy whose entry has a
    child contributes the next column, with the children filtered in the
    same way; five columns at most. *)
Definition hasChildren (ts : gmap string Entry.t) (taskId : string) : Prop :=
  match ts !! taskId with
  | Some task => default [] (Entry.childrenIds task) ≠ []
  | None => False
  end.

#[global] Instance hasChildren_dec ts taskId : Decision (hasChildren ts taskId).
Proof. unfold hasChildren. destruct (ts !! taskId); apply _. Defined.

Definition presentIds (ts : gmap string Entry.t) (ids : list string) : list string :=
  filter (λ id, is_Some (taskAt ts id)) ids.

Definition rootColumnOf (clock : nat → Z) (state : TaskState) : TaskColumn.t :=
  TaskColumn.mk ("column-root-" +:+ pretty (clock 0%nat))
    (presentIds (tasks state) (rootTaskIds state)) None 0.

Definition childColumnOf (clock : nat → Z) (state : TaskState)
    (level : nat) (taskId : string) : TaskColumn.t :=
  TaskColumn.mk ("column-" +:+ taskId +:+ "-" +:+ pretty (clock level))
    (presentIds (tasks state)
       (default [] (tasks state !! taskId ≫= Entry.childrenIds)))
    (Some taskId) level.

Definition projection (clock : nat → Z) (hierarchy : list string)
    (state : TaskState) : list TaskColumn.t :=
  take 5
    (rootColumnOf clock state
     :: imap (λ i taskId, childColumnOf clock state (S i) taskId)
             (filter (hasChildren (tasks state)) hierarchy)).

(** ** Sample tasks and states for the concrete checks *)

Definition plainTask (id : string) (parentId : option string)
    (childrenIds : list string) : Task.t :=
  Task.mk id "task" None false parentId childrenIds (Time 0) None None [] medium.

Definition stateOf (ts : gmap string Task.t) (roots : list string) : TaskState :=
  mkState (Entry.task <$> ts) [] roots None None (Some ∅).

(** Thursday 26 October 2023, 12:00 UTC (the instant the test suite of
    the store fixes). *)
Definition sampleNow : Z := 1698321600000.

(** A zone with daylight saving: two hours ahead of UTC until Sunday 29
    October 2023, 01:00 UTC, and one hour ahead from then on; the local
    hour from 02:00 to 03:00 of that day, which occurs twice, is taken
    for its first occurrence. *)
Definition sampleZone : ES.Zone :=
  ES.mkZone
    (λ t, if (t <? 1698541200000)%Z then 7200000 else 3600000)%Z
    (λ l, if (l <? 1698548400000)%Z then 7200000 else 3600000)%Z.

(** Sunday 29 October 2023, 12:00 UTC: after the change of that week. *)
Definition sampleSunday : Z := 1698580800000.

(** Section 4.5 of the specification, in its words: the week starts at
    00:00 local time of the day that lies [(dayOfWeek + 6) % 7] days
    before the current day.  [mondayLocal l] is that local time, for the
    local time [l]; [mondayOf tza now] the instant it denotes in a zone
    of one offset. *)
Definition mondayLocal (l : Z) : Z :=
  ((ES.Day l - (ES.WeekDay l + 6) mod 7) * ES.msPerDay)%Z.

Definition mondayOf (tza now : Z) : Z :=
  ((ES.Day (now + tza) - (ES.WeekDay (now + tza) + 6) mod 7) * ES.msPerDay - tza)%Z.

(** An entry that is completed, with a valid [completedAt] at or after
    [start]. *)
Definition completedAtOrAfter (start : Z) (task : Entry.t) : bool :=
  Entry.completed task &&
  match Entry.completedAt task with
  | Some (Time c) => (start <=? c)%Z
  | _ => false
  end.

#[global] Instance wfDate_dec d : Decision (wfDate d).
Proof. destruct d; apply _. Defined.

#[global] Instance wfTask_dec task : Decision (wfTask task).
Proof. unfold wfTask. destruct (Task.completedAt task); apply _. Defined.

#[global] Instance wfEntry_dec task : Decision (wfEntry task).
Proof. destruct task; apply _. Defined.

(** ** The remaining actions of the store *)

Definition setEditingTaskId (taskId : option string) (state : TaskState) : TaskState :=
  mkState (tasks state) (columns state) (rootTaskIds state)
          (selectedTaskId state) taskId (taskTemplates state).

Definition setSelectedTaskId (taskId : option string) (state : TaskState) : TaskState :=
  mkState (tasks state) (columns state) (rootTaskIds state)
          taskId (editingTaskId state) (taskTemplates state).

(** [deleteTemplate]: spreading [null] gives the empty object. *)
Definition deleteTemplate (templateId : string) (state : TaskState) : TaskState :=
  let newTemplates := default ∅ (taskTemplates state) in
  mkState (tasks state) (columns state) (rootTaskIds state)
          (selectedTaskId state) (editingTaskId state)
          (Some (delete templateId newTemplates)).

(** ** [handleImportChange] of [DataManagementPanel], from the parsed
    document on

    [parsedData = None] is a document that is not an object (reading
    [version] off [null] throws, and the handler catches it; on a
    primitive the checks below fail).  [proceed] is the answer to the
    confirmation that a different version asks for. *)

(** [!v || typeof v !== 'object']: [undefined] and [null] are falsy, and a
    primitive, truthy or not, is no object. *)
Definition falsy_or_not_object {L O} (v : Value L O) : bool :=
  match v with
  | Array _ | Object _ => false
  | Undefined | Null | Primitive => true
  end.

(** [!v || !Array.isArray(v)] *)
Definition falsy_or_not_array {L O} (v : Value L O) : bool :=
  match v with
  | Array _ => false
  | _ => true
  end.

Definition handleImportChange (fallback : string → Date) (clock : nat → Z)
    (proceed : bool) (parsedData : option ImportData.t) (state : TaskState)
    : TaskState :=
  match parsedData with
  | None => state
  | Some data =>
      if negb (bool_decide (ImportData.version data = Some CURRENT_DATA_VERSION))
         && negb proceed
      then state
      else if falsy_or_not_object (ImportData.tasks data)
              || falsy_or_not_array (ImportData.rootTaskIds data)
              || falsy_or_not_object (ImportData.taskTemplates data)
      then state
      else
        let '(success, state) := importState fallback (Some data) state in
        if success then setActiveColumns clock [] state else state
  end.

(** ** [src/utils/escpos.ts]

    A [Uint8Array] is the list of its bytes.  A string is held as the
    bytes of its UTF-8 form, which is what [TextEncoder] produces. *)

Module Escpos.
Local Open Scope Z_scope.

Definition ESC : Z := 27.
Definition GS : Z := 29.
Definition LF : Z := 10.

Definition INIT_PRINTER : list Z := [ESC; 64].
Definition CUT_PAPER_FULL : list Z := [GS; 86; 0].
Definition ALIGN_LEFT : list Z := [ESC; 97; 0].
Definition ALIGN_CENTER : list Z := [ESC; 97; 1].
Definition ALIGN_RIGHT : list Z := [ESC; 97; 2].
Definition TXT_NORMAL : list Z := [ESC; 33; 0].
Definition TXT_BOLD_ON : list Z := [ESC; 69; 1].
Definition TXT_BOLD_OFF : list Z := [ESC; 69; 0].
Definition TXT_UNDERLINE_ON : list Z := [ESC; 45; 1].
Definition TXT_UNDERLINE_OFF : list Z := [ESC; 45; 0].

(** [new Uint8Array(n)]: [n] zero bytes. *)
Definition Uint8Array_new (n : nat) : list Z := replicate n 0%Z.

(** [target.set(source, offset)]: a [RangeError] when the source does
    not fit. *)
Definition Uint8Array_set (target source : list Z) (offset : nat)
    : Outcome (list Z) :=
  if (offset + length source <=? length target)%nat
  then Ok (take offset target ++ source
           ++ drop (offset + length source) target)
  else Throw RangeError.

(** [new TextEncoder().encode(text)] *)
Fixpoint TextEncoder_encode (text : string) : list Z :=
  match text with
  | EmptyString => []
  | String c text' => Z.of_nat (nat_of_ascii c) :: TextEncoder_encode text'
  end.

Inductive Encoding := utf_8 | shift_jis.

Definition encodeText (text : string) (encoding : Encoding) : list Z :=
  match encoding with
  | shift_jis => TextEncoder_encode text
  | utf_8 => TextEncoder_encode text
  end.

(** [arrs.reduce((sum, arr) => sum + arr.length, 0)] *)
Definition totalLengthOf (arrs : list (list Z)) : nat :=
  foldl (λ sum arr, (sum + length arr)%nat) 0%nat arrs.

(** The loops [for (const cmd of cmds) { buf.set(cmd, offset); offset +=
    cmd.length }]. *)
Definition setEach (cmds : list (list Z)) (start : list Z * nat)
    : Outcome (list Z * nat) :=
  foldl (λ (acc : Outcome (list Z * nat)) cmd,
           '(buf, offset) ← acc;
           buf ← Uint8Array_set buf cmd offset;
           Ok (buf, (offset + length cmd)%nat))
        (Ok start) cmds.

Definition createTextBlock (text : string) (align : list Z)
    (bold underline : bool) : Outcome (list Z) :=
  let textBytes := encodeText text utf_8 in
  let lfBytes := [LF] in
  let formatCommands :=
    (if bold then [TXT_BOLD_ON] else [])
    ++ (if underline then [TXT_UNDERLINE_ON] else []) in
  let resetFormatCommands :=
    (if bold then [TXT_BOLD_OFF] else [])
    ++ (if underline then [TXT_UNDERLINE_OFF] else []) in
  let totalLength :=
    (length align + totalLengthOf formatCommands + length textBytes
     + length lfBytes + totalLengthOf resetFormatCommands)%nat in
  let command := Uint8Array_new totalLength in
  let offset := 0%nat in
  command ← Uint8Array_set command align offset;
  let offset := (offset + length align)%nat in
  '(command, offset) ← setEach formatCommands (command, offset);
  command ← Uint8Array_set command textBytes offset;
  let offset := (offset + length textBytes)%nat in
  '(command, offset) ← setEach resetFormatCommands (command, offset);
  command ← Uint8Array_set command lfBytes offset;
  Ok command.

Record PrintedTask : Type := mkPrintedTask {
  name : string;
  completed : bool;
}.

(** [commands.push(x)] for a block that may have thrown. *)
Definition push (commands : Outcome (list (list Z))) (cmd : Outcome (list Z))
    : Outcome (list (list Z)) :=
  cmds ← commands; c ← cmd; Ok (cmds ++ [c]).

Definition separator : string := "--------------------------------".

(** [`${n}`] on a number that holds an integer: its decimal digits up
    to 2^53 in size, where every integer is a number of the language;
    beyond that the language prints the shortest digits that give the
    number back, padded with zeros, and from 10^21 on the exponential
    form, which [beyond] stands for. *)
Definition Number_toString (beyond : Z → string) (n : Z) : string :=
  if Z.abs n <=? 2 ^ 53 then pretty n else beyond n.

Definition generateReceipt (beyond : Z → string)
    (header date time : string)
    (tasks : list PrintedTask) (totalTasks : Z) (footer : string)
    : Outcome (list Z) :=
  let commands := Ok [INIT_PRINTER] in
  let commands :=
    if truthy_string header then
      push (push commands (Ok ALIGN_CENTER))
           (createTextBlock header ALIGN_CENTER true false)
    else commands in
  let commands := push commands (Ok ALIGN_CENTER) in
  let commands :=
    push commands
      (createTextBlock ("Date: " +:+ date +:+ "   Time: " +:+ time)
         ALIGN_CENTER false false) in
  let commands := push commands (createTextBlock separator ALIGN_CENTER false false) in
  let commands := push commands (Ok ALIGN_LEFT) in
  let commands :=
    foldl (λ commands task,
             push commands
               (createTextBlock
                  ((if completed task then "[X]" else "[ ]") +:+ " " +:+ name task)
                  ALIGN_LEFT false false))
          commands tasks in
  let commands := push commands (Ok ALIGN_CENTER) in
  let commands := push commands (createTextBlock separator ALIGN_CENTER false false) in
  let commands := push commands (Ok ALIGN_LEFT) in
  let commands :=
    push commands
      (createTextBlock ("Total Tasks: " +:+ Number_toString beyond totalTasks)
         ALIGN_LEFT true false) in
  let commands :=
    if truthy_string footer then
      push (push commands (Ok ALIGN_CENTER))
           (createTextBlock footer ALIGN_CENTER false true)
    else commands in
  let commands := push commands (Ok [LF; LF; LF]) in
  let commands := push commands (Ok CUT_PAPER_FULL) in
  commands ← commands;
  let totalLength := foldl (λ totalLength cmd, (totalLength + length cmd)%nat) 0%nat commands in
  let receiptData := Uint8Array_new totalLength in
  '(receiptData, _) ← setEach commands (receiptData, 0%nat);
  Ok receiptData.

End Escpos.

(** [handlePrintColumn] of [PrintSettings]: what is found under the
    identifiers of a column, as handed to the receipt.  Under a name
    that the mapping inherits, [filter(Boolean)] keeps the function that
    the read finds, which has no [title] and no [completed]. *)
Record ShownTask : Type := mkShownTask {
  shown_name : option string;
  shown_completed : bool;
}.

Definition columnTasksToShow (allTasks : gmap string Entry.t)
    (columnToPrint : TaskColumn.t) : list ShownTask :=
  (λ task, mkShownTask (Entry.title task) (Entry.completed task))
    <$> omap (λ tid, taskAt allTasks tid) (TaskColumn.taskIds columnToPrint).

(** ** [buildHierarchy] of [Board.handleTaskClick]

    The recursion follows [parentId] upwards; [fuel] bounds the depth of
    the calls ([None] when it runs out, where the engine gives up with a
    stack overflow). *)
Fixpoint buildHierarchy (fuel : nat) (tasks : gmap string Entry.t)
    (currentId : string) (currentPath : list string) : option (list string) :=
  match fuel with
  | O => None
  | S fuel =>
      match taskAt tasks currentId with
      | None => Some currentPath
      | Some t =>
          let currentPath := currentId :: currentPath in
          if truthy (Entry.parentId t)
          then buildHierarchy fuel tasks (default "" (Entry.parentId t)) currentPath
          else Some currentPath
      end
  end.

(** The number of definitions in a tree of definitions. *)
Fixpoint defSize (taskDef : TaskDef) : nat :=
  match taskDef with
  | mkTaskDef _ _ _ _ _ children =>
      S (match children with
         | Some children =>
             (fix sizes (defs : list TaskDef) : nat :=
                match defs with
                | [] => O
                | d :: defs' => (defSize d + sizes defs')%nat
                end) children
         | None => O
         end)
  end.

(** The first day of the month of the local time [l], at 00:00, as a
    local time; [firstOfMonth tza now] is the instant it denotes in a
    zone of one offset. *)
Definition firstOfMonthLocal (l : Z) : Z :=
  ((ES.Day l - (ES.DateFromTime l - 1)) * ES.msPerDay)%Z.

Definition firstOfMonth (tza now : Z) : Z :=
  ((ES.Day (now + tza) - (ES.DateFromTime (now + tza) - 1)) * ES.msPerDay - tza)%Z.

(** The task that [importState] builds from an exported one. *)
Definition rehydrated (fallback : string → Date) (task : ExportedTask.t) : Task.t :=
  Task.mk (ExportedTask.id task) (ExportedTask.title task)
    (ExportedTask.description task) (ExportedTask.completed task)
    (ExportedTask.parentId task) (ExportedTask.childrenIds task)
    (ES.newDate_string fallback (ExportedTask.createdAt task))
    (match ExportedTask.completedAt task with
     | Some (String c s) => Some (ES.newDate_string fallback (String c s))
     | _ => None
     end)
    (ExportedTask.estimatedMinutes task) (ExportedTask.tags task)
    (ExportedTask.priority task).

(** The bytes of one text block: alignment, formats on, text, formats
    off, line feed. *)
Definition textBlock (text : string) (align : list Z) (bold underline : bool)
    : list Z :=
  align
  ++ (if bold then Escpos.TXT_BOLD_ON else [])
  ++ (if underline then Escpos.TXT_UNDERLINE_ON else [])
  ++ Escpos.TextEncoder_encode text
  ++ (if bold then Escpos.TXT_BOLD_OFF else [])
  ++ (if underline then Escpos.TXT_UNDERLINE_OFF else [])
  ++ [Escpos.LF].

(** The line of the receipt for one task. *)
Definition taskLine (task : Escpos.PrintedTask) : list Z :=
  textBlock ((if Escpos.completed task then "[X]" else "[ ]") +:+ " "
             +:+ Escpos.name task)
            Escpos.ALIGN_LEFT false false.

(** The depth of the sample tasks in the initial state. *)
Definition sampleDepth (k : string) : nat :=
  if bool_decide (k = "task-4") then 2
  else if bool_decide (k = "task-1") then 0
  else 1.

(** * Properties *)

(** ** Sets in insertion order *)

Section InsertionOrderedSets.
Implicit Types (s xs : list string) (x y : string).

Lemma elem_of_Set_add s x y : y ∈ Set_add s x ↔ y ∈ s ∨ y = x.
Proof.
  unfold Set_add. case_bool_decide as Hx.
  - split; [by left | intros [?| ->]; done].
  - rewrite elem_of_app, list_elem_of_singleton. done.
Qed.

Lemma NoDup_Set_add s x : NoDup s → NoDup (Set_add s x).
Proof.
  intros Hs. unfold Set_add. case_bool_decide as Hx; [done|].
  apply NoDup_app. split_and!; [done| |apply NoDup_singleton].
  intros y Hy Hy'. apply list_elem_of_singleton in Hy' as ->. done.
Qed.

Lemma elem_of_foldl_Set_add xs s y :
  y ∈ foldl Set_add s xs ↔ y ∈ s ∨ y ∈ xs.
Proof.
  revert s. induction xs as [|x xs IH]; intros s; simpl.
  - rewrite elem_of_nil. tauto.
  - rewrite IH, elem_of_Set_add, elem_of_cons. tauto.
Qed.

Lemma NoDup_foldl_Set_add xs s : NoDup s → NoDup (foldl Set_add s xs).
Proof.
  revert s. induction xs as [|x xs IH]; intros s Hs; simpl; [done|].
  apply IH, NoDup_Set_add, Hs.
Qed.

Lemma elem_of_Set_new xs y : y ∈ Set_new xs ↔ y ∈ xs.
Proof.
  unfold Set_new. rewrite elem_of_foldl_Set_add, elem_of_nil. tauto.
Qed.

Lemma NoDup_Set_new xs : NoDup (Set_new xs).
Proof. apply NoDup_foldl_Set_add, NoDup_nil_2. Qed.

(** Adding elements that are present changes nothing. *)
Lemma foldl_Set_add_present xs s : xs ⊆ s → foldl Set_add s xs = s.
Proof.
  revert s. induction xs as [|x xs IH]; intros s Hsub; simpl; [done|].
  assert (Set_add s x = s) as ->.
  { unfold Set_add. rewrite bool_decide_eq_true_2; [done|]. apply Hsub. left. }
  apply IH. intros y Hy. apply Hsub. by right.
Qed.

Lemma foldl_Set_add_nil s : foldl Set_add s [] = s.
Proof. done. Qed.

(** A sequence without repetition is its own set. *)
Lemma foldl_Set_add_NoDup xs s :
  NoDup (s ++ xs) → foldl Set_add s xs = s ++ xs.
Proof.
  revert s. induction xs as [|x xs IH]; intros s Hnd; simpl.
  - by rewrite app_nil_r.
  - assert (Set_add s x = s ++ [x]) as ->.
    { unfold Set_add. rewrite bool_decide_eq_false_2; [done|].
      apply NoDup_app in Hnd as (_ & Hd & _). intros Hx. apply (Hd x Hx). left. }
    rewrite IH; rewrite <- app_assoc; done.
Qed.

Lemma Set_new_NoDup xs : NoDup xs → Set_new xs = xs.
Proof. intros Hnd. unfold Set_new. by rewrite foldl_Set_add_NoDup. Qed.

End InsertionOrderedSets.

(** ** Counting occurrences *)

Section Occurrences.
Implicit Types (l : list string) (x y : string).

Lemma occurrences_app x l1 l2 :
  occurrences x (l1 ++ l2) = (occurrences x l1 + occurrences x l2)%nat.
Proof. unfold occurrences. by rewrite filter_app, length_app. Qed.

Lemma occurrences_singleton x : occurrences x [x] = 1%nat.
Proof. unfold occurrences. rewrite filter_cons_True; done. Qed.

Lemma occurrences_absent x l : x ∉ l → occurrences x l = 0%nat.
Proof.
  intros Hx. unfold occurrences.
  induction l as [|y l IH]; [done|].
  apply not_elem_of_cons in Hx as [Hne Hx].
  rewrite filter_cons_False; [by apply IH | congruence].
Qed.

Lemma occurrences_pos x l : x ∈ l → (0 < occurrences x l)%nat.
Proof.
  intros Hx. unfold occurrences.
  induction l as [|y l IH]; [by apply elem_of_nil in Hx|].
  destruct (decide (y = x)) as [->|Hne].
  - rewrite filter_cons_True; [simpl; lia | done].
  - rewrite filter_cons_False; [|done].
    apply elem_of_cons in Hx as [->|Hx]; [done | by apply IH].
Qed.

Lemma occurrences_NoDup x l : NoDup l → x ∈ l → occurrences x l = 1%nat.
Proof.
  intros Hnd Hx. induction Hnd as [|y l Hy Hnd IH]; [by apply elem_of_nil in Hx|].
  change (y :: l) with ([y] ++ l). rewrite occurrences_app.
  destruct (decide (y = x)) as [->|Hne].
  - rewrite occurrences_singleton, occurrences_absent; done.
  - apply elem_of_cons in Hx as [->|Hx]; [done|].
    rewrite (occurrences_absent x [y]), IH; [done..|].
    rewrite list_elem_of_singleton. congruence.
Qed.

Lemma occurrences_Set_add_new x l :
  occurrences x (Set_add (Set_new l) x) = 1%nat.
Proof.
  apply occurrences_NoDup.
  - apply NoDup_Set_add, NoDup_Set_new.
  - apply elem_of_Set_add. by right.
Qed.

End Occurrences.

(** ** Reading and writing a dictionary *)

Section Dictionary.
Context {A : Type}.
Implicit Types (m : gmap string A) (k : string) (a : A).

Lemma get_own m k a : m !! k = Some a → get m k = Own a.
Proof. intros H. unfold get. by rewrite H. Qed.

Lemma get_inherited m k : m !! k = None → inherited k = true → get m k = Inherited.
Proof. intros H Hi. unfold get. by rewrite H, Hi. Qed.

Lemma get_absent m k : m !! k = None → inherited k = false → get m k = NotFound.
Proof. intros H Hi. unfold get. by rewrite H, Hi. Qed.

Lemma assign_own m k a : is_Some (m !! k) → assign m k a = <[k := a]> m.
Proof.
  intros [b Hb]. unfold assign.
  rewrite (bool_decide_eq_false_2 (m !! k = None)) by congruence.
  by rewrite andb_false_r.
Qed.

Lemma assign_ne m k a : k ≠ "__proto__" → assign m k a = <[k := a]> m.
Proof. intros H. unfold assign. by rewrite bool_decide_eq_false_2. Qed.

Lemma assign_lookup_ne m k a k' : k' ≠ k → assign m k a !! k' = m !! k'.
Proof.
  intros H. unfold assign. destruct (_ && _); [done|]. by rewrite lookup_insert_ne.
Qed.
End Dictionary.

Section TaskAt.
Implicit Types (ts : gmap string Entry.t) (k : string) (e : Entry.t).

Lemma taskAt_own ts k e : ts !! k = Some e → taskAt ts k = Some e.
Proof. intros H. unfold taskAt. by rewrite (get_own _ _ e). Qed.

Lemma taskAt_inherited ts k :
  ts !! k = None → inherited k = true →
  taskAt ts k = Some (Entry.partial Rest.empty).
Proof. intros H Hi. unfold taskAt. by rewrite get_inherited. Qed.

Lemma taskAt_absent ts k :
  ts !! k = None → inherited k = false → taskAt ts k = None.
Proof. intros H Hi. unfold taskAt. by rewrite get_absent. Qed.

Lemma taskAt_is_Some ts k :
  is_Some (taskAt ts k) ↔ is_Some (ts !! k) ∨ inherited k = true.
Proof.
  unfold taskAt, get. destruct (ts !! k) as [e|] eqn:He; simpl.
  - split; eauto.
  - destruct (inherited k); simpl.
    + split; eauto.
    + split; [by intros [x Hx]|]. intros [[x Hx]|?]; done.
Qed.

Lemma taskAt_None ts k :
  taskAt ts k = None ↔ ts !! k = None ∧ inherited k = false.
Proof.
  unfold taskAt, get. destruct (ts !! k) as [e|] eqn:He; simpl.
  - split; [done|]. by intros [? _].
  - destruct (inherited k); simpl; split; try done. by intros [_ ?].
Qed.

(** What a read finds has the [childrenIds] of the stored entry, and
    none when nothing is stored. *)
Lemma taskAt_childrenIds ts k :
  taskAt ts k ≫= Entry.childrenIds = ts !! k ≫= Entry.childrenIds.
Proof.
  unfold taskAt, get. destruct (ts !! k) as [e|]; [done|].
  by destruct (inherited k).
Qed.

Lemma taskAt_parentId ts k :
  taskAt ts k ≫= Entry.parentId = ts !! k ≫= Entry.parentId.
Proof.
  unfold taskAt, get. destruct (ts !! k) as [e|]; [done|].
  by destruct (inherited k).
Qed.
End TaskAt.

(** ** [addTask] *)

Section AddTask.
Implicit Types (T : Task.t) (s : TaskState) (P : string) (e : Entry.t).

Lemma truthy_Some_ne P : P ≠ "" → truthy (Some P) = true.
Proof. by destruct P. Qed.

Lemma childrenIds_with_childrenIds c e :
  Entry.childrenIds (Entry.with_childrenIds c e) = Some c.
Proof. by destruct e. Qed.

Lemma parentId_with_childrenIds c e :
  Entry.parentId (Entry.with_childrenIds c e) = Entry.parentId e.
Proof. by destruct e. Qed.

Lemma addTask_root T s :
  truthy (Task.parentId T) = false →
  addTask T s =
    set_tasks_roots (<[Task.id T := Entry.task T]> (tasks s))
      (if includes (rootTaskIds s) (Task.id T) then rootTaskIds s
       else rootTaskIds s ++ [Task.id T]) s.
Proof.
  intros Hp. unfold addTask. rewrite Hp. simpl.
  by destruct (includes (rootTaskIds s) (Task.id T)).
Qed.

Lemma addTask_child T s P parent :
  Task.parentId T = Some P → P ≠ "" →
  taskAt (<[Task.id T := Entry.task T]> (tasks s)) P = Some parent →
  addTask T s =
    set_tasks_roots
      (assign (<[Task.id T := Entry.task T]> (tasks s)) P
         (Entry.with_childrenIds
            (Set_add (Set_new (default [] (Entry.childrenIds parent))) (Task.id T))
            parent))
      (rootTaskIds s) s.
Proof.
  intros Hp Hne Hparent. unfold addTask.
  rewrite Hp, (truthy_Some_ne P Hne). simpl. by rewrite Hparent.
Qed.

Lemma addTask_orphan T s P :
  Task.parentId T = Some P → P ≠ "" →
  taskAt (<[Task.id T := Entry.task T]> (tasks s)) P = None →
  addTask T s =
    set_tasks_roots (<[Task.id T := Entry.task T]> (tasks s)) (rootTaskIds s) s.
Proof.
  intros Hp Hne Hparent. unfold addTask.
  rewrite Hp, (truthy_Some_ne P Hne). simpl. by rewrite Hparent.
Qed.

(** The roots after [addTask], whatever the parent. *)
Lemma addTask_rootTaskIds T s :
  rootTaskIds (addTask T s) =
    if truthy (Task.parentId T) then rootTaskIds s
    else if includes (rootTaskIds s) (Task.id T) then rootTaskIds s
    else rootTaskIds s ++ [Task.id T].
Proof.
  unfold addTask. destruct (truthy (Task.parentId T)); simpl;
    by repeat case_match.
Qed.

Lemma addTask_others T s :
  columns (addTask T s) = columns s
  ∧ selectedTaskId (addTask T s) = selectedTaskId s
  ∧ editingTaskId (addTask T s) = editingTaskId s
  ∧ taskTemplates (addTask T s) = taskTemplates s.
Proof.
  unfold addTask. destruct (truthy (Task.parentId T)); simpl;
    by repeat case_match.
Qed.

Lemma addTask_root_once T s :
  Task.parentId T = None →
  (occurrences (Task.id T) (rootTaskIds s) ≤ 1)%nat →
  occurrences (Task.id T) (rootTaskIds (addTask T s)) = 1%nat.
Proof.
  intros Hp Hle. rewrite addTask_root by (by rewrite Hp). simpl.
  unfold includes. case_bool_decide as Hin.
  - apply occurrences_pos in Hin. lia.
  - rewrite occurrences_app, occurrences_singleton, occurrences_absent; done.
Qed.

Lemma addTask_child_once T s P :
  Task.parentId T = Some P → P ≠ "" →
  is_Some (tasks s !! P) →
  ∃ e c, tasks (addTask T s) !! P = Some e
         ∧ Entry.childrenIds e = Some c
         ∧ occurrences (Task.id T) c = 1%nat.
Proof.
  intros Hp Hne Hex.
  assert (is_Some (<[Task.id T := Entry.task T]> (tasks s) !! P)) as [parent Hparent].
  { rewrite lookup_insert_is_Some. destruct (decide (Task.id T = P)); auto. }
  rewrite (addTask_child T s P parent Hp Hne (taskAt_own _ _ _ Hparent)). simpl.
  rewrite assign_own by eauto. rewrite lookup_insert_eq.
  eexists _, _. split; [done|]. split.
  - apply childrenIds_with_childrenIds.
  - apply occurrences_Set_add_new.
Qed.

End AddTask.

(** C5 (amended).  After [addTask T]: when [T.parentId] is null and the
    identifier of [T] is registered at most once among the roots beforehand,
    it appears in [rootTaskIds] exactly once, also after a second
    [addTask T]; when [T.parentId] is a non-empty identifier [P] under
    which the mapping holds an entry, the identifier of [T] appears in
    the [childrenIds] of [P] exactly once, also after a second
    [addTask T]. *)
Theorem addTask_registers_once (T : Task.t) (s : TaskState) :
  (Task.parentId T = None →
   (occurrences (Task.id T) (rootTaskIds s) ≤ 1)%nat →
   occurrences (Task.id T) (rootTaskIds (addTask T s)) = 1%nat
   ∧ occurrences (Task.id T) (rootTaskIds (addTask T (addTask T s))) = 1%nat)
  ∧ (∀ P, Task.parentId T = Some P → P ≠ "" → is_Some (tasks s !! P) →
     (∃ p c, tasks (addTask T s) !! P = Some p
             ∧ Entry.childrenIds p = Some c
             ∧ occurrences (Task.id T) c = 1%nat)
     ∧ (∃ p c, tasks (addTask T (addTask T s)) !! P = Some p
               ∧ Entry.childrenIds p = Some c
               ∧ occurrences (Task.id T) c = 1%nat)).
Proof.
  split.
  - intros Hp Hle.
    pose proof (addTask_root_once T s Hp Hle) as H1.
    split; [done|]. apply addTask_root_once; [done | lia].
  - intros P Hp Hne Hex.
    destruct (addTask_child_once T s P Hp Hne Hex) as (p & c & Hlook & Hc & Hocc).
    split; [by exists p, c|].
    apply addTask_child_once; [done..|]. by rewrite Hlook.
Qed.

Lemma addTask_registers_once_witness :
  let T := plainTask "task-6" None [] in
  let U := plainTask "task-7" (Some "task-5") [] in
  let s := initialState (Time sampleNow) in
  (occurrences "task-6" (rootTaskIds (addTask T (addTask T s))) = 1%nat)
  ∧ (∃ p c, tasks (addTask U (addTask U s)) !! "task-5" = Some p
            ∧ Entry.childrenIds p = Some c
            ∧ occurrences "task-7" c = 1%nat).
Proof.
  intros T U s. split.
  - apply (proj1 (addTask_registers_once T s)); [reflexivity | vm_compute; lia].
  - eapply (proj2 (addTask_registers_once U s) "task-5");
      [reflexivity | discriminate | vm_compute; eauto].
Defined.

(** C5 as stated fails in two places: an identifier that the roots hold
    twice stays there twice, and a parent whose identifier is the empty
    string counts as no parent at all. *)
Lemma addTask_not_always_once :
  (let T := plainTask "a" None [] in
   let s := stateOf ∅ ["a"; "a"] in
   Task.parentId T = None
   ∧ occurrences (Task.id T) (rootTaskIds (addTask T s)) = 2%nat)
  ∧ (let T := plainTask "b" (Some "") [] in
     let s := stateOf {["" := plainTask "" None []]} [""] in
     Task.parentId T = Some ""
     ∧ is_Some (tasks s !! "")
     ∧ tasks (addTask T s) !! "" ≫= Entry.childrenIds = Some []).
Proof.
  split; simpl; split_and!; try reflexivity.
  rewrite map_fmap_singleton, lookup_singleton_eq. eauto.
Qed.

(** ** [deleteTask] *)

Section DeleteTask.
Implicit Types (s : TaskState) (t : Task.t) (e p : Entry.t) (id P k : string).

Lemma filter_ne_absent id (l : list string) :
  id ∉ l → filter (λ x, x ≠ id) l = l.
Proof.
  induction l as [|y l IH]; [done|]. intros [Hy Hl]%not_elem_of_cons.
  rewrite filter_cons_True by congruence. by rewrite IH.
Qed.

(** Filtering one identifier out keeps the others in their order. *)
Lemma filter_remove_one id (l1 l2 : list string) :
  id ∉ l1 → id ∉ l2 →
  filter (λ x, x ≠ id) (l1 ++ id :: l2) = l1 ++ l2.
Proof.
  intros H1 H2. rewrite filter_app, filter_cons_False by auto.
  rewrite !filter_ne_absent; done.
Qed.

Lemma not_elem_of_filter_ne id (l : list string) :
  id ∉ filter (λ x, x ≠ id) l.
Proof. rewrite list_elem_of_filter. tauto. Qed.

(** The state that [deleteTask id] hands to [set] once it has settled
    the task mapping. *)
Local Abbreviation removed id s newTasks :=
  (mkState newTasks (columns s)
     (filter (λ x, x ≠ id) (rootTaskIds s))
     (if bool_decide (selectedTaskId s = Some id) then None else selectedTaskId s)
     (if bool_decide (editingTaskId s = Some id) then None else editingTaskId s)
     (taskTemplates s)).

Lemma deleteTask_absent id s :
  tasks s !! id = None → inherited id = false → deleteTask id s = Ok s.
Proof. intros H Hi. unfold deleteTask. by rewrite taskAt_absent. Qed.

Lemma deleteTask_no_parent id s e :
  taskAt (tasks s) id = Some e → truthy (Entry.parentId e) = false →
  deleteTask id s = Ok (removed id s (delete id (tasks s))).
Proof. intros He Hp. unfold deleteTask. by rewrite He, Hp. Qed.

Lemma deleteTask_dangling id s e P :
  taskAt (tasks s) id = Some e → Entry.parentId e = Some P → P ≠ "" →
  taskAt (delete id (tasks s)) P = None →
  deleteTask id s = Ok (removed id s (delete id (tasks s))).
Proof.
  intros He HP Hne Hd. unfold deleteTask.
  rewrite He, HP, (truthy_Some_ne P Hne). simpl. by rewrite Hd.
Qed.

Lemma deleteTask_parent id s e P p c :
  taskAt (tasks s) id = Some e → Entry.parentId e = Some P → P ≠ "" →
  delete id (tasks s) !! P = Some p → Entry.childrenIds p = Some c →
  deleteTask id s =
    Ok (removed id s
          (<[P := Entry.with_childrenIds (filter (λ x, x ≠ id) c) p]>
             (delete id (tasks s)))).
Proof.
  intros He HP Hne Hp Hc. unfold deleteTask.
  rewrite He, HP, (truthy_Some_ne P Hne). simpl.
  rewrite (taskAt_own _ _ _ Hp), Hc. simpl.
  by rewrite assign_own by eauto.
Qed.

Lemma deleteTask_throws id s e P p :
  taskAt (tasks s) id = Some e → Entry.parentId e = Some P → P ≠ "" →
  taskAt (delete id (tasks s)) P = Some p → Entry.childrenIds p = None →
  deleteTask id s = Throw TypeError.
Proof.
  intros He HP Hne Hp Hc. unfold deleteTask.
  rewrite He, HP, (truthy_Some_ne P Hne). simpl. by rewrite Hp, Hc.
Qed.

(** The three ways in which [deleteTask] ends on something it found. *)
Lemma deleteTask_cases id s e :
  taskAt (tasks s) id = Some e →
  deleteTask id s = Ok (removed id s (delete id (tasks s)))
    ∧ (truthy (Entry.parentId e) = false
       ∨ ∃ P, Entry.parentId e = Some P ∧ P ≠ ""
              ∧ taskAt (delete id (tasks s)) P = None)
  ∨ (∃ P p c, Entry.parentId e = Some P ∧ P ≠ ""
              ∧ delete id (tasks s) !! P = Some p
              ∧ Entry.childrenIds p = Some c
              ∧ deleteTask id s =
                  Ok (removed id s
                        (<[P := Entry.with_childrenIds (filter (λ x, x ≠ id) c) p]>
                           (delete id (tasks s)))))
  ∨ (∃ P p, Entry.parentId e = Some P ∧ P ≠ ""
            ∧ taskAt (delete id (tasks s)) P = Some p
            ∧ Entry.childrenIds p = None
            ∧ deleteTask id s = Throw TypeError).
Proof.
  intros He.
  destruct (truthy (Entry.parentId e)) eqn:Ht.
  2: { left. split; [by apply (deleteTask_no_parent id s e)|by left]. }
  destruct (Entry.parentId e) as [P|] eqn:HP; [|done].
  assert (P ≠ "") as Hne by (by intros ->).
  destruct (taskAt (delete id (tasks s)) P) as [p|] eqn:Hp.
  2: { left. split; [by apply (deleteTask_dangling id s e P)|].
       right. by exists P. }
  destruct (Entry.childrenIds p) as [c|] eqn:Hc.
  - right. left. exists P, p, c.
    assert (delete id (tasks s) !! P = Some p) as Hown.
    { unfold taskAt, get in Hp. destruct (delete id (tasks s) !! P) as [p'|] eqn:Hd.
      - simpl in Hp. congruence.
      - destruct (inherited P); simpl in Hp; [|done].
        injection Hp as <-. done. }
    split_and!; try done. by apply (deleteTask_parent id s e P p c).
  - right. right. exists P, p. split_and!; try done.
    by apply (deleteTask_throws id s e P p).
Qed.

Lemma deleteTask_fields id s s' e :
  taskAt (tasks s) id = Some e → deleteTask id s = Ok s' →
  columns s' = columns s
  ∧ rootTaskIds s' = filter (λ x, x ≠ id) (rootTaskIds s)
  ∧ selectedTaskId s' =
      (if bool_decide (selectedTaskId s = Some id) then None else selectedTaskId s)
  ∧ editingTaskId s' =
      (if bool_decide (editingTaskId s = Some id) then None else editingTaskId s)
  ∧ taskTemplates s' = taskTemplates s.
Proof.
  intros He Hs'.
  destruct (deleteTask_cases id s e He)
    as [[H _] | [(P & p & c & _ & _ & _ & _ & H) | (P & p & _ & _ & _ & _ & H)]];
    rewrite H in Hs'; [| |done]; injection Hs' as <-; done.
Qed.

(** The task mapping after a deletion that went through. *)
Lemma deleteTask_lookup id s s' e k :
  taskAt (tasks s) id = Some e → deleteTask id s = Ok s' →
  tasks s' !! k =
    if bool_decide (k = id) then None
    else if bool_decide (Entry.parentId e = Some k) && truthy (Entry.parentId e)
    then (λ p, Entry.with_childrenIds
                 (filter (λ x, x ≠ id) (default [] (Entry.childrenIds p))) p)
           <$> tasks s !! k
    else tasks s !! k.
Proof.
  intros He Hs'.
  destruct (deleteTask_cases id s e He)
    as [[H Hcase] | [(P & p & c & HP & Hne & Hp & Hc & H)
                    | (P & p & _ & _ & _ & _ & H)]];
    rewrite H in Hs'; [| |done]; injection Hs' as <-; cbn [tasks]; clear H.
  - case_bool_decide as Hk; [subst; apply lookup_delete_eq|].
    rewrite lookup_delete_ne by done.
    destruct Hcase as [Hf | (P & HP & Hne & Hd)].
    + by rewrite Hf, andb_false_r.
    + rewrite HP, (truthy_Some_ne P Hne), andb_true_r.
      case_bool_decide as HPk; [|done]. injection HPk as ->.
      apply taskAt_None in Hd as [Hd _].
      rewrite lookup_delete_ne in Hd by done. by rewrite Hd.
  - rewrite HP, (truthy_Some_ne P Hne), andb_true_r.
    assert (P ≠ id) as HPid by (intros ->; by rewrite lookup_delete_eq in Hp).
    rewrite lookup_delete_ne in Hp by done.
    case_bool_decide as Hk; [subst k|].
    + rewrite lookup_insert_ne by done. apply lookup_delete_eq.
    + case_bool_decide as HPk.
      * injection HPk as <-. rewrite lookup_insert_eq, Hp. simpl. by rewrite Hc.
      * rewrite lookup_insert_ne by congruence. by rewrite lookup_delete_ne.
Qed.

End DeleteTask.

(** C6 (amended).  [deleteTask id] does nothing when [id] is absent and is
    not the name of a property that every object inherits.  On an existing
    task whose [parentId], when it is not empty, is the identifier of
    another entry that holds [childrenIds] (as every task does) or a name
    under which the mapping, the task itself set aside, neither holds nor
    inherits anything, it removes the task from the mapping; in the first
    case it takes [id] out of the [childrenIds] of the parent and leaves
    the other children in their order; it removes [id] from
    [rootTaskIds]; it sets [selectedTaskId] and [editingTaskId] to null
    when they are [id]; every other entry is left as it was, so each child
    of the deleted task stays in the mapping with its [parentId] still
    naming [id]. *)
Theorem deleteTask_spec (id : string) (s : TaskState) :
  (tasks s !! id = None → inherited id = false → deleteTask id s = Ok s)
  ∧ (∀ t : Task.t, tasks s !! id = Some (Entry.task t) →
       (∀ P, Task.parentId t = Some P → P ≠ "" →
          (∃ p, P ≠ id ∧ tasks s !! P = Some p ∧ is_Some (Entry.childrenIds p))
          ∨ ((P = id ∨ tasks s !! P = None) ∧ inherited P = false)) →
       ∃ s', deleteTask id s = Ok s'
         ∧ tasks s' !! id = None
         ∧ (∀ P p c, Task.parentId t = Some P → P ≠ "" → P ≠ id →
              tasks s !! P = Some p → Entry.childrenIds p = Some c →
              tasks s' !! P =
                Some (Entry.with_childrenIds (filter (λ x, x ≠ id) c) p)
              ∧ (id ∉ filter (λ x, x ≠ id) c)
              ∧ (∀ l1 l2, c = l1 ++ id :: l2 → id ∉ l1 → id ∉ l2 →
                   filter (λ x, x ≠ id) c = l1 ++ l2))
         ∧ rootTaskIds s' = filter (λ x, x ≠ id) (rootTaskIds s)
         ∧ (id ∉ rootTaskIds s')
         ∧ selectedTaskId s' =
             (if bool_decide (selectedTaskId s = Some id) then None
              else selectedTaskId s)
         ∧ editingTaskId s' =
             (if bool_decide (editingTaskId s = Some id) then None
              else editingTaskId s)
         ∧ (∀ k, k ≠ id → Task.parentId t ≠ Some k →
              tasks s' !! k = tasks s !! k)
         ∧ (∀ c e, c ≠ id → tasks s !! c = Some e →
              Entry.parentId e = Some id →
              ∃ e', tasks s' !! c = Some e'
                    ∧ Entry.parentId e' = Some id)).
Proof.
  split; [apply deleteTask_absent|].
  intros t Ht Hparent.
  pose proof (taskAt_own _ _ _ Ht) as He.
  assert (∃ s', deleteTask id s = Ok s') as [s' Hs'].
  { destruct (deleteTask_cases id s _ He)
      as [[H _] | [(P & p & c & _ & _ & _ & _ & H) | (P & p & HP & Hne & Hp & Hc & _)]];
      [eauto..|]. exfalso. simpl in HP.
    destruct (Hparent P HP Hne) as [(p' & HPid & Hp' & Hc') | [Habs Hi]].
    - rewrite (taskAt_own _ _ p') in Hp by (by rewrite lookup_delete_ne).
      injection Hp as <-. rewrite Hc in Hc'. by destruct Hc'.
    - rewrite taskAt_absent in Hp; [done| |done].
      destruct Habs as [-> | Habs]; [apply lookup_delete_eq|].
      destruct (decide (P = id)) as [->|]; [apply lookup_delete_eq|].
      by rewrite lookup_delete_ne. }
  exists s'. split; [done|].
  destruct (deleteTask_fields id s s' _ He Hs') as (_ & Hroots & Hsel & Hed & _).
  pose proof (λ k, deleteTask_lookup id s s' _ k He Hs') as Hlook.
  simpl in Hlook.
  split_and!.
  - by rewrite Hlook, bool_decide_eq_true_2.
  - intros P p c HP Hne Hid Hp Hc. split_and!.
    + rewrite Hlook, bool_decide_eq_false_2 by done.
      rewrite HP, (truthy_Some_ne P Hne), bool_decide_eq_true_2 by done.
      rewrite Hp. simpl. by rewrite Hc.
    + apply not_elem_of_filter_ne.
    + intros l1 l2 -> H1 H2. by apply filter_remove_one.
  - done.
  - rewrite Hroots. apply not_elem_of_filter_ne.
  - done.
  - done.
  - intros k Hk HP. rewrite Hlook, bool_decide_eq_false_2 by done.
    by rewrite (bool_decide_eq_false_2 (Task.parentId t = Some k)).
  - intros c e Hc Hce Hpar.
    rewrite Hlook, bool_decide_eq_false_2 by done.
    rewrite Hce. simpl. destruct (_ && _); simpl; [|eauto].
    eexists. split; [done|]. by rewrite parentId_with_childrenIds.
Qed.

Lemma deleteTask_spec_witness :
  let s := initialState (Time sampleNow) in
  ∃ s', deleteTask "task-3" s = Ok s'
        ∧ tasks s' !! "task-3" = None
        ∧ tasks s' !! "task-1" ≫= Entry.childrenIds = Some ["task-2"]
        ∧ tasks s' !! "task-4" ≫= Entry.parentId = Some "task-3".
Proof.
  intros s.
  destruct (proj2 (deleteTask_spec "task-3" s) _ eq_refl)
    as (s' & Hs' & Hgone & Hparent & _ & _ & _ & _ & _ & Hchild).
  - intros P [= <-] _. left. eexists. split; [discriminate|].
    split; [reflexivity|]. simpl. eauto.
  - exists s'. split_and!.
    + exact Hs'.
    + exact Hgone.
    + destruct (Hparent "task-1" _ _ eq_refl ltac:(discriminate) ltac:(discriminate)
                  eq_refl eq_refl) as (-> & _). reflexivity.
    + destruct (Hchild "task-4" _ ltac:(discriminate) eq_refl eq_refl)
        as (e' & H1 & H2). rewrite H1. simpl. exact H2.
Defined.

(** C6 as stated fails in three places.  A parent whose identifier is the
    empty string counts as no parent: its [childrenIds] are left alone.
    An absent identifier that names an inherited property is found all the
    same: it is filtered out of [rootTaskIds] and the selection is
    cleared.  And a task whose [parentId] is such a name cannot be
    deleted: the function found for the parent has no [childrenIds], and
    the action throws. *)
Lemma deleteTask_not_as_claimed :
  (let s := stateOf (<["" := plainTask "" None ["c"]]>
                     (<["c" := plainTask "c" (Some "") []]> ∅)) [""] in
   tasks s !! "c" ≫= Entry.parentId = Some ""
   ∧ tasks s !! "" ≫= Entry.childrenIds = Some ["c"]
   ∧ tasks (stateAfter s (deleteTask "c" s)) !! "" ≫= Entry.childrenIds = Some ["c"])
  ∧ (let s := setSelectedTaskId (Some "constructor") (stateOf ∅ ["constructor"]) in
     tasks s !! "constructor" = None
     ∧ deleteTask "constructor" s = Ok (stateOf ∅ []))
  ∧ (let s := stateOf {["x" := plainTask "x" (Some "toString") []]} [] in
     is_Some (tasks s !! "x")
     ∧ deleteTask "x" s = Throw TypeError).
Proof.
  split; [|split]; cbv zeta; split_and!; try (vm_compute; reflexivity).
  vm_compute. eauto.
Qed.

(** ** [toggleTaskCompletion] *)

Lemma toggleTaskCompletion_lookup now id s k :
  tasks (toggleTaskCompletion now id s) !! k =
    if bool_decide (k = id)
    then match taskAt (tasks s) id with
         | Some e => Some (Entry.with_completion (negb (Entry.completed e))
                             (if negb (Entry.completed e) then Some now else None) e)
         | None => None
         end
    else tasks s !! k.
Proof.
  unfold toggleTaskCompletion. case_bool_decide as Hk.
  - subst k. destruct (taskAt (tasks s) id) as [e|] eqn:He; simpl.
    + by rewrite lookup_insert_eq.
    + by apply taskAt_None in He as [? _].
  - destruct (taskAt (tasks s) id) as [e|] eqn:He; simpl; [|done].
    by rewrite lookup_insert_ne.
Qed.




(** ** [updateTask] *)

Lemma updateTask_lookup id patch s k :
  tasks (updateTask id patch s) !! k =
    if bool_decide (k = id)
    then (λ e, Entry.spread e (TaskPatch.restOfProperties patch))
           <$> taskAt (tasks s) id
    else tasks s !! k.
Proof.
  unfold updateTask. case_bool_decide as Hk.
  - subst k. destruct (taskAt (tasks s) id) as [e|] eqn:He; simpl.
    + by rewrite lookup_insert_eq.
    + by apply taskAt_None in He as [? _].
  - destruct (taskAt (tasks s) id) as [e|] eqn:He; simpl; [|done].
    by rewrite lookup_insert_ne.
Qed.

Lemma updateTask_others id patch s :
  columns (updateTask id patch s) = columns s
  ∧ rootTaskIds (updateTask id patch s) = rootTaskIds s
  ∧ selectedTaskId (updateTask id patch s) = selectedTaskId s
  ∧ editingTaskId (updateTask id patch s) = editingTaskId s
  ∧ taskTemplates (updateTask id patch s) = taskTemplates s.
Proof. unfold updateTask. by destruct (taskAt (tasks s) id). Qed.

(** What [updateTask] makes of a task. *)
Lemma updateTask_task id patch s (t : Task.t) :
  tasks s !! id = Some (Entry.task t) →
  ∃ t' : Task.t,
    tasks (updateTask id patch s) !! id = Some (Entry.task t')
    ∧ Task.id t' = default (Task.id t) (TaskPatch.id patch)
    ∧ Task.title t' = default (Task.title t) (TaskPatch.title patch)
    ∧ Task.description t' = default (Task.description t) (TaskPatch.description patch)
    ∧ Task.completed t' = default (Task.completed t) (TaskPatch.completed patch)
    ∧ Task.parentId t' = default (Task.parentId t) (TaskPatch.parentId patch)
    ∧ Task.childrenIds t' = default (Task.childrenIds t) (TaskPatch.childrenIds patch)
    ∧ Task.completedAt t' = default (Task.completedAt t) (TaskPatch.completedAt patch)
    ∧ Task.estimatedMinutes t'
      = default (Task.estimatedMinutes t) (TaskPatch.estimatedMinutes patch)
    ∧ Task.tags t' = default (Task.tags t) (TaskPatch.tags patch)
    ∧ Task.priority t' = default (Task.priority t) (TaskPatch.priority patch)
    ∧ Task.createdAt t' = Task.createdAt t.
Proof.
  intros Ht. rewrite updateTask_lookup, bool_decide_eq_true_2 by done.
  rewrite (taskAt_own _ _ _ Ht). simpl. eexists. split; [done|]. by split_and!.
Qed.






(** ** [setActiveColumns] *)

Section SetActiveColumns.
Variable clock : nat → Z.
Implicit Types (s : TaskState) (h : list string).

Lemma presentIds_exists_in (ts : gmap string Entry.t) (ids : list string) :
  filter (λ id, exists_in ts id) ids = presentIds ts ids.
Proof.
  apply list_filter_iff. intros id. unfold exists_in.
  by rewrite bool_decide_spec.
Qed.

Lemma setActiveColumns_body_spec s cols level taskId :
  setActiveColumns_body s clock (cols, level) taskId =
    if decide (hasChildren (tasks s) taskId)
    then (cols ++ [childColumnOf clock s level taskId], S level)
    else (cols, level).
Proof.
  destruct (decide (hasChildren (tasks s) taskId)) as [Hc|Hc];
    unfold hasChildren in Hc;
    unfold setActiveColumns_body, childColumnOf, taskAt, get;
    destruct (tasks s !! taskId) as [task|] eqn:Ht; simpl in *; try done.
  - destruct (Entry.childrenIds task) as [[|c cs]|] eqn:Hch; simpl in *; try done.
    by rewrite presentIds_exists_in.
  - destruct (Entry.childrenIds task) as [[|c cs]|] eqn:Hch; simpl in *; try done.
    by destruct Hc.
  - by destruct (inherited taskId).
Qed.

Lemma setActiveColumns_loop s h cols level :
  foldl (setActiveColumns_body s clock) (cols, level) h =
    (cols ++ imap (λ i taskId, childColumnOf clock s (level + i) taskId)
                  (filter (hasChildren (tasks s)) h),
     (level + length (filter (hasChildren (tasks s)) h))%nat).
Proof.
  revert cols level. induction h as [|taskId h IH]; intros cols level; cbn [foldl].
  - simpl. by rewrite app_nil_r, Nat.add_0_r.
  - rewrite setActiveColumns_body_spec.
    destruct (decide (hasChildren (tasks s) taskId)) as [Hc|Hc].
    + rewrite filter_cons_True by done. rewrite IH. simpl.
      rewrite <- app_assoc. simpl. rewrite Nat.add_0_r.
      f_equal; [|lia]. do 2 f_equal.
      apply imap_ext. intros i x _. simpl. f_equal. lia.
    + rewrite filter_cons_False by done. apply IH.
Qed.

Lemma setActiveColumns_columns h s :
  columns (setActiveColumns clock h s) = projection clock h s.
Proof.
  unfold setActiveColumns, projection.
  rewrite presentIds_exists_in.
  change (TaskColumn.mk _ (presentIds _ _) None 0) with (rootColumnOf clock s).
  rewrite setActiveColumns_loop. simpl. done.
Qed.

Lemma setActiveColumns_others h s :
  tasks (setActiveColumns clock h s) = tasks s
  ∧ rootTaskIds (setActiveColumns clock h s) = rootTaskIds s
  ∧ selectedTaskId (setActiveColumns clock h s) = selectedTaskId s
  ∧ editingTaskId (setActiveColumns clock h s) = editingTaskId s
  ∧ taskTemplates (setActiveColumns clock h s) = taskTemplates s.
Proof.
  unfold setActiveColumns.
  by destruct (foldl _ _ _).
Qed.

Lemma projection_length h s :
  length (projection clock h s)
  = (S (length (filter (hasChildren (tasks s)) h)) `min` 5)%nat.
Proof.
  unfold projection. rewrite length_take. cbn [length]. rewrite length_imap.
  apply Nat.min_comm.
Qed.

End SetActiveColumns.




(** ** Time arithmetic *)

Module ESFacts.
Import ES.
Local Open Scope Z_scope.

Ltac unfold_consts :=
  unfold msPerDay, msPerHour, msPerMinute, msPerSecond, maxTime in *.

Lemma DaysInYear_cases y : DaysInYear y = 365 + leap y.
Proof. unfold leap, DaysInYear. repeat case_match; simpl in *; lia. Qed.

Lemma leap_cases y : leap y = 0 ∨ leap y = 1.
Proof. unfold leap. case_match; auto. Qed.

Lemma DayFromYear_succ y : DayFromYear (y + 1) = DayFromYear y + DaysInYear y.
Proof.
  unfold DayFromYear, DaysInYear.
  repeat match goal with
         | |- context [negb (?a =? ?b)] => destruct (Z.eqb_spec a b)
         end; simpl; Z.div_mod_to_equations; lia.
Qed.

Lemma DayFromYear_mono y y' : y ≤ y' → DayFromYear y ≤ DayFromYear y'.
Proof. unfold DayFromYear. intros. Z.div_mod_to_equations. lia. Qed.

Lemma YearFromDay_bracket d :
  DayFromYear (YearFromDay d) ≤ d < DayFromYear (YearFromDay d + 1).
Proof.
  unfold YearFromDay.
  set (y := 1970 + 400 * d / 146097).
  assert (DayFromYear (y - 1) ≤ d < DayFromYear (y + 2)) as Hy.
  { unfold DayFromYear, y. Z.div_mod_to_equations. lia. }
  destruct (Z.ltb_spec d (DayFromYear y)).
  - replace (y - 1 + 1) with y by lia. lia.
  - destruct (Z.leb_spec (DayFromYear (y + 1)) d).
    + replace (y + 1 + 1) with (y + 2) by lia. lia.
    + lia.
Qed.

Lemma YearFromDay_unique d y :
  DayFromYear y ≤ d < DayFromYear (y + 1) → YearFromDay d = y.
Proof.
  intros Hy. pose proof (YearFromDay_bracket d) as Hb.
  destruct (Z.lt_trichotomy (YearFromDay d) y) as [Hlt|[Heq|Hgt]]; [|done|].
  - pose proof (DayFromYear_mono (YearFromDay d + 1) y). lia.
  - pose proof (DayFromYear_mono (y + 1) (YearFromDay d)). lia.
Qed.

Lemma DayWithinYear_range t :
  0 ≤ DayWithinYear t < 365 + InLeapYear t.
Proof.
  unfold DayWithinYear, InLeapYear, YearFromTime.
  pose proof (YearFromDay_bracket (Day t)) as Hb.
  rewrite DayFromYear_succ, DaysInYear_cases in Hb. lia.
Qed.

Lemma monthOfDay_spec d lp :
  (lp = 0 ∨ lp = 1) → 0 ≤ d < 365 + lp →
  0 ≤ monthOfDay d lp ≤ 11
  ∧ monthStart (monthOfDay d lp) lp ≤ d < monthStart (monthOfDay d lp + 1) lp.
Proof.
  intros Hlp Hd. unfold monthOfDay.
  repeat match goal with
         | |- context [?a <? ?b] => destruct (Z.ltb_spec a b)
         end; unfold monthStart; simpl; lia.
Qed.

Lemma MonthFromTime_range t : 0 ≤ MonthFromTime t ≤ 11.
Proof.
  apply monthOfDay_spec; [apply leap_cases | apply DayWithinYear_range].
Qed.

Lemma DateFromTime_range t :
  1 ≤ DateFromTime t ≤ DaysInMonth (YearFromTime t) (MonthFromTime t).
Proof.
  unfold DateFromTime, DaysInMonth, MonthFromTime, InLeapYear.
  pose proof (monthOfDay_spec (DayWithinYear t) (leap (YearFromTime t))
                (leap_cases _) (DayWithinYear_range t)). lia.
Qed.

Lemma DaysInMonth_le_31 y m : 0 ≤ m ≤ 11 → DaysInMonth y m ≤ 31.
Proof.
  intros Hm. unfold DaysInMonth. destruct (leap_cases y) as [-> | ->];
    assert (m = 0 ∨ m = 1 ∨ m = 2 ∨ m = 3 ∨ m = 4 ∨ m = 5 ∨ m = 6 ∨ m = 7
            ∨ m = 8 ∨ m = 9 ∨ m = 10 ∨ m = 11) as Hcases by lia;
    repeat (destruct Hcases as [-> | Hcases]; [unfold monthStart; simpl; lia|]);
    subst; unfold monthStart; simpl; lia.
Qed.

(** [MakeDay] on the fields of a time value gives its day back; on
    another day of the month it moves by the difference. *)
Lemma MakeDay_fields t dt :
  MakeDay (YearFromTime t) (MonthFromTime t) dt
  = Day t + (dt - DateFromTime t).
Proof.
  pose proof (MonthFromTime_range t) as Hm.
  unfold MakeDay.
  rewrite Z.div_small, Z.mod_small, Z.add_0_r by lia.
  unfold DateFromTime, DayWithinYear, InLeapYear. lia.
Qed.

Lemma MakeTime_fields t :
  MakeTime (HourFromTime t) (MinFromTime t) (SecFromTime t) (msFromTime t)
  = TimeWithinDay t.
Proof.
  unfold MakeTime, HourFromTime, MinFromTime, SecFromTime, msFromTime,
    TimeWithinDay. unfold_consts. Z.div_mod_to_equations. lia.
Qed.

Lemma MakeDate_Day t : MakeDate (Day t) (TimeWithinDay t) = t.
Proof.
  unfold MakeDate, Day, TimeWithinDay. unfold_consts.
  Z.div_mod_to_equations. lia.
Qed.

Lemma time_fields_range t :
  0 ≤ HourFromTime t ≤ 23 ∧ 0 ≤ MinFromTime t ≤ 59
  ∧ 0 ≤ SecFromTime t ≤ 59 ∧ 0 ≤ msFromTime t ≤ 999.
Proof.
  unfold HourFromTime, MinFromTime, SecFromTime, msFromTime. unfold_consts.
  Z.div_mod_to_equations. lia.
Qed.

Lemma YearFromTime_range t :
  Z.abs t ≤ maxTime → -271821 ≤ YearFromTime t ≤ 275760.
Proof.
  intros Ht. unfold YearFromTime.
  pose proof (YearFromDay_bracket (Day t)) as Hb.
  assert (-100000000 ≤ Day t ≤ 100000000) as Hd.
  { unfold Day. unfold_consts. Z.div_mod_to_equations. lia. }
  split.
  - destruct (Z.le_gt_cases (-271821) (YearFromDay (Day t))) as [|Hlt]; [done|].
    pose proof (DayFromYear_mono (YearFromDay (Day t) + 1) (-271821)) as Hm.
    assert (DayFromYear (-271821) = -100000109) as Hc by reflexivity. lia.
  - destruct (Z.le_gt_cases (YearFromDay (Day t)) 275760) as [|Hlt]; [done|].
    pose proof (DayFromYear_mono 275761 (YearFromDay (Day t))) as Hm.
    assert (DayFromYear 275761 = 100000110) as Hc by reflexivity. lia.
Qed.

(** *** Digits *)

Lemma append_String c s r : String c s +:+ r = String c (s +:+ r).
Proof. reflexivity. Qed.

Lemma append_Empty r : "" +:+ r = r.
Proof. reflexivity. Qed.

Lemma digitValue_digit d : 0 ≤ d ≤ 9 → digitValue (digit d) = Some d.
Proof.
  intros Hd.
  assert (d = 0 ∨ d = 1 ∨ d = 2 ∨ d = 3 ∨ d = 4 ∨ d = 5 ∨ d = 6 ∨ d = 7
          ∨ d = 8 ∨ d = 9) as Hcases by lia.
  repeat (destruct Hcases as [-> | Hcases]; [reflexivity|]). by subst.
Qed.

Lemma mod_10_digit a : 0 ≤ a mod 10 ≤ 9.
Proof. pose proof (Z.mod_pos_bound a 10). lia. Qed.

Lemma digits_pad n v rest :
  0 ≤ v → digits n (pad n v +:+ rest) = Some (v mod 10 ^ Z.of_nat n, rest).
Proof.
  intros Hv. induction n as [|n IH].
  - simpl. by rewrite Z.mod_1_r.
  - cbn [pad]. rewrite append_String. cbn [digits].
    rewrite digitValue_digit by apply mod_10_digit.
    cbn [mbind option_bind]. rewrite IH. cbn [mbind option_bind].
    do 2 f_equal.
    rewrite Nat2Z.inj_succ, Z.pow_succ_r by lia.
    assert (0 < 10 ^ Z.of_nat n) by (apply Z.pow_pos_nonneg; lia).
    rewrite (Z.mul_comm 10), Z.rem_mul_r by lia. lia.
Qed.

Lemma digits_pad_small n v rest :
  0 ≤ v < 10 ^ Z.of_nat n → digits n (pad n v +:+ rest) = Some (v, rest).
Proof. intros Hv. rewrite digits_pad, Z.mod_small by lia. done. Qed.

Lemma parseYear_digit d s :
  0 ≤ d ≤ 9 → parseYear (String (digit d) s) = digits 4 (String (digit d) s).
Proof.
  intros Hd.
  assert (d = 0 ∨ d = 1 ∨ d = 2 ∨ d = 3 ∨ d = 4 ∨ d = 5 ∨ d = 6 ∨ d = 7
          ∨ d = 8 ∨ d = 9) as Hcases by lia.
  repeat (destruct Hcases as [-> | Hcases]; [reflexivity|]). by subst.
Qed.

Lemma parseYear_yearString y rest :
  -999999 ≤ y ≤ 999999 →
  parseYear (yearString y +:+ rest) = Some (y, rest).
Proof.
  intros Hy. unfold yearString.
  destruct (Z.leb_spec 0 y); cbn [andb].
  - destruct (Z.leb_spec y 9999); cbn [andb].
    + change (pad 4 y) with (String (digit ((y / 10 ^ Z.of_nat 3) mod 10)) (pad 3 y)).
      rewrite append_String.
      rewrite parseYear_digit by apply mod_10_digit.
      rewrite <- append_String.
      change (String (digit ((y / 10 ^ Z.of_nat 3) mod 10)) (pad 3 y))
        with (pad 4 y).
      apply digits_pad_small. simpl. lia.
    + destruct (Z.ltb_spec y 0); [lia|].
      rewrite append_String. cbn [parseYear].
      apply digits_pad_small. simpl. lia.
  - destruct (Z.ltb_spec y 0); [|lia].
    rewrite append_String. cbn [parseYear].
    rewrite digits_pad_small by (simpl; lia). cbn [mbind option_bind].
    destruct (Z.eqb_spec (- y) 0); [lia|]. do 2 f_equal. lia.
Qed.

(** *** The round trip of the date-time format *)

Lemma Ok_inj {A} (a b : A) : Ok a = Ok b → a = b.
Proof. congruence. Qed.

Lemma expect_String c r : expect c (String c r) = Some r.
Proof. unfold expect. by rewrite bool_decide_eq_true_2. Qed.

Lemma bind_Some {A B} (x : A) (f : A → option B) : Some x ≫= f = f x.
Proof. reflexivity. Qed.

Lemma digits2_pad v rest :
  0 ≤ v ≤ 99 → digits 2 (pad 2 v +:+ rest) = Some (v, rest).
Proof. intros. apply digits_pad_small. change (10 ^ Z.of_nat 2) with 100. lia. Qed.

Lemma digits3_pad v rest :
  0 ≤ v ≤ 999 → digits 3 (pad 3 v +:+ rest) = Some (v, rest).
Proof. intros. apply digits_pad_small. change (10 ^ Z.of_nat 3) with 1000. lia. Qed.

Lemma toISOString_nonempty d s : toISOString d = Ok s → s ≠ "".
Proof.
  destruct d as [t|]; [|done]. intros Hs. apply Ok_inj in Hs. subst s.
  unfold yearString.
  change (pad 4 (YearFromTime t))
    with (String (digit ((YearFromTime t / 10 ^ Z.of_nat 3) mod 10))
            (pad 3 (YearFromTime t))).
  repeat case_match; by rewrite append_String.
Qed.

Ltac next_separator :=
  rewrite bind_Some; cbv beta match;
  rewrite append_String, append_Empty, expect_String, bind_Some; cbv beta.

Lemma parseISO_toISOString t s :
  Z.abs t ≤ maxTime → toISOString (Time t) = Ok s → parseISO s = Some t.
Proof.
  intros Ht Hs. apply Ok_inj in Hs. subst s.
  pose proof (YearFromTime_range t Ht) as Hy.
  pose proof (MonthFromTime_range t) as Hm.
  pose proof (DateFromTime_range t) as Hd.
  pose proof (DaysInMonth_le_31 (YearFromTime t) (MonthFromTime t) Hm) as Hd31.
  pose proof (time_fields_range t) as (Hh & Hmi & Hs & Hms).
  unfold parseISO.
  rewrite parseYear_yearString by lia. next_separator.
  rewrite digits2_pad by lia. next_separator.
  rewrite digits2_pad by lia. next_separator.
  rewrite digits2_pad by lia. next_separator.
  rewrite digits2_pad by lia. next_separator.
  rewrite digits2_pad by lia. next_separator.
  rewrite digits3_pad by lia.
  rewrite bind_Some; cbv beta match. rewrite expect_String, bind_Some; cbv beta.
  rewrite bool_decide_eq_true_2 by done.
  replace (MonthFromTime t + 1 - 1) with (MonthFromTime t) by lia.
  rewrite MakeDay_fields, MakeTime_fields.
  replace (Day t + (DateFromTime t - DateFromTime t)) with (Day t) by lia.
  rewrite MakeDate_Day.
  repeat match goal with
         | |- context [?a <=? ?b] => destruct (Z.leb_spec a b); [|lia]
         end.
  done.
Qed.

Lemma newDate_toISOString fallback d s :
  wfDate d → toISOString d = Ok s → newDate_string fallback s = d.
Proof.
  destruct d as [t|]; [|done]. intros Ht Hs. unfold newDate_string.
  by rewrite (parseISO_toISOString t s Ht Hs).
Qed.

End ESFacts.

(** ** Export and import *)

Section Entries.
Context {A B : Type}.
Implicit Types (f : A → Outcome B) (g : A → B) (l : list (string * A))
  (m : gmap string A).

Lemma mapM_entries_Ok f g l :
  Forall (λ e, f e.2 = Ok (g e.2)) l →
  mapM (λ e : string * A, y ← f e.2; Ok (e.1, y)) l = Ok (prod_map id g <$> l).
Proof.
  induction 1 as [|e l He Hl IH]; [done|].
  cbn [mapM]. rewrite He. cbn. rewrite IH. done.
Qed.

Lemma mapM_entries_Throw f l e err :
  e ∈ l → (∀ e', e' ∈ l → f e'.2 = Throw err ∨ ∃ y, f e'.2 = Ok y) →
  f e.2 = Throw err →
  mapM (λ e : string * A, y ← f e.2; Ok (e.1, y)) l = Throw err.
Proof.
  intros Hin Hall He. induction l as [|e' l IH]; [by apply elem_of_nil in Hin|].
  cbn [mapM].
  destruct (Hall e') as [Hf | [y Hf]]; [by left| |]; rewrite Hf; cbn; [done|].
  apply elem_of_cons in Hin as [->|Hin]; [congruence|].
  rewrite IH; [done|done|]. intros e'' He''. apply Hall. by right.
Qed.

Lemma mapM_entries_inv f l (l' : list (string * B)) :
  mapM (λ e : string * A, y ← f e.2; Ok (e.1, y)) l = Ok l' →
  Forall (λ e, ∃ y, f e.2 = Ok y) l.
Proof.
  revert l'. induction l as [|e l IH]; intros l' H; [done|].
  cbn [mapM] in H. destruct (f e.2) as [y|err] eqn:Hf; cbn in H; [|done].
  destruct (mapM _ l) as [k|err] eqn:Hk; cbn in H; [|done].
  constructor; eauto.
Qed.

Lemma Object_fromEntries_fmap g m :
  Object_fromEntries (prod_map id g <$> Object_entries m) = g <$> m.
Proof.
  unfold Object_fromEntries, Object_entries.
  rewrite <- (list_to_map_to_list m) at 2.
  rewrite <- list_to_map_fmap.
  apply list_to_map_proper; [|apply reverse_Permutation].
  rewrite reverse_Permutation.
  rewrite <- list_fmap_compose.
  rewrite (list_fmap_ext (fst ∘ prod_map id g) fst) by (by intros ? []).
  apply NoDup_fst_map_to_list.
Qed.

(** When the callback succeeds on every value, the result is the
    mapping with the callback applied under each key. *)
Lemma mapEntries_Ok f g m :
  (∀ k x, m !! k = Some x → f x = Ok (g x)) →
  mapEntries f m = Ok (g <$> m).
Proof.
  intros Hf. unfold mapEntries.
  rewrite (mapM_entries_Ok f g).
  - cbn. by rewrite Object_fromEntries_fmap.
  - apply Forall_forall. intros [k x] Hkx. apply Hf with k.
    by apply elem_of_map_to_list.
Qed.

Lemma mapEntries_inv `{Inhabited B} f m (m' : gmap string B) :
  mapEntries f m = Ok m' →
  ∃ g, (∀ k x, m !! k = Some x → f x = Ok (g x)) ∧ m' = g <$> m.
Proof.
  intros Hm.
  set (g := λ x, match f x with Ok y => y | Throw _ => inhabitant end).
  assert (∀ k x, m !! k = Some x → f x = Ok (g x)) as Hg.
  { unfold mapEntries in Hm.
    destruct (mapM _ (Object_entries m)) as [l|err] eqn:Hl; [|done].
    apply mapM_entries_inv in Hl. rewrite Forall_forall in Hl.
    intros k x Hkx. destruct (Hl (k, x)) as [y Hy].
    { by apply elem_of_map_to_list. }
    unfold g. simpl in Hy. by rewrite Hy. }
  exists g. split; [done|].
  rewrite (mapEntries_Ok f g m Hg) in Hm. congruence.
Qed.

End Entries.

#[local] Instance ExportedTask_inhabited : Inhabited ExportedTask.t :=
  populate (ExportedTask.mk "" "" None false None [] "" None None [] medium).

#[local] Instance Entry_inhabited : Inhabited Entry.t :=
  populate (Entry.task (plainTask "" None [])).

Section Codec.
Variable fallback : string → Date.

(** A well-formed task comes back from its exported form. *)
Lemma rehydrate_exportTask (task : Entry.t) exported :
  wfEntry task → exportTask task = Ok exported →
  rehydrate fallback (Some exported) = Ok task.
Proof.
  intros Hwf Hex. destruct task as [task|o]; [|done].
  destruct Hwf as [Hc Hd]. unfold exportTask in Hex.
  destruct (ES.toISOString (Task.createdAt task)) as [c|] eqn:Hcs; [|done].
  cbn in Hex.
  destruct task as [i ti de co pa ch cr cd em ta pr]. simpl in *.
  destruct cd as [d|].
  - destruct (ES.toISOString d) as [ds|] eqn:Hds; [|done]. cbn in Hex.
    injection Hex as <-. unfold rehydrate. simpl.
    pose proof (ESFacts.toISOString_nonempty d ds Hds) as Hne.
    destruct ds as [|a ds]; [done|]. simpl.
    by rewrite (ESFacts.newDate_toISOString fallback cr c),
               (ESFacts.newDate_toISOString fallback d (String a ds)).
  - cbn in Hex. injection Hex as <-. unfold rehydrate. simpl.
    by rewrite (ESFacts.newDate_toISOString fallback cr c).
Qed.

Lemma importState_rejected data s :
  match data with
  | None => True
  | Some data =>
      typeof_object (ImportData.tasks data) = false
      ∨ isArray (ImportData.rootTaskIds data) = false
      ∨ typeof_object (ImportData.taskTemplates data) = false
      ∨ ImportData.tasks data = Null
  end →
  importState fallback data s = (false, s).
Proof.
  destruct data as [data|]; [|done]. unfold importState.
  intros [-> | [-> | [-> | ->]]]; simpl; try done.
  - by rewrite orb_true_r.
  - by rewrite orb_true_r.
  - by destruct (_ || _).
Qed.

Lemma importState_accepted v m roots tpl g s :
  (tpl = Null ∨ ∃ o, tpl = Object o) →
  (∀ k e, m !! k = Some e → rehydrate fallback e = Ok (g e)) →
  importState fallback (Some (ImportData.mk v (Object m) (Array roots) tpl)) s
  = (true, mkState (g <$> m) [] roots None None (storedTaskTemplates tpl)).
Proof.
  intros Htpl Hg. unfold importState. simpl.
  assert (typeof_object tpl = true) as -> by (by destruct Htpl as [-> | [o ->]]).
  simpl.
  pose proof (mapEntries_Ok (rehydrate fallback) g m Hg) as Hm.
  unfold mapEntries in Hm. cbn in Hm |- *.
  destruct (mapM _ (Object_entries m)) as [l|]; cbn in Hm |- *; [|done].
  by injection Hm as ->.
Qed.

End Codec.



(** C3 at the input on which it fails: [importState] accepts an envelope
    whose [taskTemplates] is [null], since [typeof null] is ['object']; it
    returns true and stores the [null]. *)
Theorem importState_accepts_null_taskTemplates (fallback : string → Date)
    (s : TaskState) :
  importState fallback (Some (ImportData.mk (Some 1%Z) (Object ∅) (Array []) Null)) s
  = (true, mkState ∅ [] [] None None None).
Proof. reflexivity. Qed.
(** ** The statistics *)

Section Statistics.
Import ES ESFacts.
Local Open Scope Z_scope.

(** Counting in the values of a mapping is counting its entries. *)
Lemma count_values_size (P : Entry.t → bool) (m : gmap string Entry.t) :
  length (filter (λ task, P task) (Object_values m))
  = size (filter (λ kt : string * Entry.t, P kt.2) m).
Proof.
  unfold Object_values.
  induction m as [|k task m Hk IH] using map_ind.
  - by rewrite map_filter_empty, map_size_empty, map_to_list_empty.
  - rewrite (map_to_list_insert m k task Hk). cbn [fmap list_fmap snd].
    destruct (P task) eqn:HP.
    + rewrite filter_cons_True by (simpl; by rewrite HP).
      rewrite map_filter_insert_True by (simpl; by rewrite HP).
      rewrite map_size_insert_None by (by rewrite map_lookup_filter_None; left).
      simpl. by rewrite IH.
    + rewrite filter_cons_False by (rewrite HP; by intros []).
      rewrite map_filter_insert_False by (simpl; rewrite HP; by intros []).
      by rewrite delete_id.
Qed.

Lemma weekOffset_mod today :
  0 ≤ today ≤ 6 → weekOffset today = (today + 6) mod 7.
Proof.
  intros H. unfold weekOffset.
  destruct (Z.eqb_spec today 0); Z.div_mod_to_equations; lia.
Qed.

Lemma WeekDay_range t : 0 ≤ WeekDay t ≤ 6.
Proof. unfold WeekDay. Z.div_mod_to_equations. lia. Qed.

Lemma TimeClip_in_range t : Z.abs t ≤ maxTime → TimeClip t = Time t.
Proof.
  intros H. unfold TimeClip. by destruct (Z.leb_spec (Z.abs t) maxTime); [|lia].
Qed.

Lemma Day_shift t k : Day (t - k * msPerDay) = Day t - k.
Proof.
  unfold Day. replace (t - k * msPerDay) with (t + (- k) * msPerDay) by lia.
  rewrite Z.div_add by done. lia.
Qed.

Lemma TimeWithinDay_range t : 0 ≤ TimeWithinDay t < msPerDay.
Proof. unfold TimeWithinDay. by apply Z.mod_pos_bound. Qed.

(** [setDate] with the day of the month moved back by [k] moves the
    local time back by [k] days. *)
Lemma setDate_back_local (zone : Zone) t k :
  Z.abs (UTC zone (LocalTime zone t - k * msPerDay)) ≤ maxTime →
  setDate zone (Some (DateFromTime (LocalTime zone t) - k)) (Time t)
  = Time (UTC zone (LocalTime zone t - k * msPerDay)).
Proof.
  intros Hr. unfold setDate. rewrite MakeDay_fields.
  rewrite <- TimeClip_in_range by done. do 2 f_equal.
  pose proof (MakeDate_Day (LocalTime zone t)) as Hd.
  unfold MakeDate in *. lia.
Qed.

Lemma setHours_midnight_local (zone : Zone) t :
  Z.abs (UTC zone (Day (LocalTime zone t) * msPerDay)) ≤ maxTime →
  setHours zone 0 0 0 0 (Time t) = Time (UTC zone (Day (LocalTime zone t) * msPerDay)).
Proof.
  intros Hr. unfold setHours. rewrite <- TimeClip_in_range by done.
  do 2 f_equal. unfold MakeDate, MakeTime. lia.
Qed.

(** The same in a zone of one offset. *)
Lemma setDate_back (tza : Z) t k :
  Z.abs (t - k * msPerDay) ≤ maxTime →
  setDate tza (Some (DateFromTime (LocalTime tza t) - k)) (Time t)
  = Time (t - k * msPerDay).
Proof.
  intros Hr. rewrite (setDate_back_local (fixed tza) t k); unfold UTC, LocalTime; cbn; [f_equal|]; lia.
Qed.

Lemma setHours_midnight (tza : Z) t :
  Z.abs (Day (t + tza) * msPerDay - tza) ≤ maxTime →
  setHours tza 0 0 0 0 (Time t) = Time (Day (t + tza) * msPerDay - tza).
Proof.
  intros Hr. rewrite (setHours_midnight_local (fixed tza) t); unfold UTC, LocalTime; cbn; done.
Qed.

(** Monday 00:00 of the week of a local time. *)
Lemma mondayLocal_bounds l :
  mondayLocal l ≤ l < mondayLocal l + 7 * msPerDay.
Proof.
  unfold mondayLocal.
  pose proof (MakeDate_Day l) as Hd.
  pose proof (TimeWithinDay_range l) as Hw.
  assert (0 ≤ (WeekDay l + 6) mod 7 ≤ 6) by (Z.div_mod_to_equations; lia).
  unfold MakeDate in Hd. unfold_consts. lia.
Qed.

Lemma mondayLocal_is_monday l :
  WeekDay (mondayLocal l) = 1 ∧ TimeWithinDay (mondayLocal l) = 0.
Proof.
  unfold mondayLocal.
  unfold WeekDay at 1, TimeWithinDay, Day at 1.
  rewrite Z.div_mul, Z.mod_mul by done. split; [|done].
  unfold WeekDay. Z.div_mod_to_equations. lia.
Qed.

Lemma mondayOf_mondayLocal tza now :
  mondayOf tza now = mondayLocal (now + tza) - tza.
Proof. done. Qed.

Lemma mondayOf_bounds tza now :
  mondayOf tza now ≤ now < mondayOf tza now + 7 * msPerDay.
Proof.
  rewrite mondayOf_mondayLocal.
  pose proof (mondayLocal_bounds (now + tza)). lia.
Qed.

Lemma mondayOf_is_monday tza now :
  WeekDay (mondayOf tza now + tza) = 1
  ∧ TimeWithinDay (mondayOf tza now + tza) = 0.
Proof.
  rewrite mondayOf_mondayLocal.
  replace (mondayLocal (now + tza) - tza + tza) with (mondayLocal (now + tza)) by lia.
  apply mondayLocal_is_monday.
Qed.

(** The start of the week in any zone: [setDate] goes back to the
    Monday at the time of day of [now]; when the zone reads that local
    time back on the same day, [setHours] lands on 00:00 of the
    Monday. *)
Lemma weekStart_local (zone : Zone) now :
  let l := LocalTime zone now in
  let k := (WeekDay l + 6) mod 7 in
  Z.abs (UTC zone (l - k * msPerDay)) ≤ maxTime →
  Day (LocalTime zone (UTC zone (l - k * msPerDay))) = Day (l - k * msPerDay) →
  Z.abs (UTC zone (mondayLocal l)) ≤ maxTime →
  weekStart zone (Time now) = Time (UTC zone (mondayLocal l)).
Proof.
  intros l k. subst l k. intros Hr1 Hday Hr2. unfold weekStart.
  cbn [getDay getDate mbind option_bind].
  rewrite weekOffset_mod by apply WeekDay_range.
  rewrite setDate_back_local by done.
  set (l := LocalTime zone now) in *.
  set (k := (WeekDay l + 6) mod 7) in *.
  assert (Day (LocalTime zone (UTC zone (l - k * msPerDay))) * msPerDay
          = mondayLocal l) as Hm.
  { rewrite Hday, Day_shift. done. }
  rewrite setHours_midnight_local; rewrite Hm; done.
Qed.

Lemma weekStart_monday (tza : Z) now :
  - maxTime + 8 * msPerDay ≤ now ≤ maxTime →
  weekStart tza (Time now) = Time (mondayOf tza now).
Proof.
  intros Hnow.
  pose proof (mondayOf_bounds tza now) as Hb.
  rewrite mondayOf_mondayLocal in *.
  assert (0 ≤ (WeekDay (now + tza) + 6) mod 7 ≤ 6) by (Z.div_mod_to_equations; lia).
  rewrite weekStart_local; unfold UTC, LocalTime; cbn [offsetAt offsetOf fixed].
  - done.
  - unfold_consts. lia.
  - f_equal. lia.
  - unfold_consts. lia.
Qed.

Lemma completedSince_Time start task :
  completedSince (Time start) task = completedAtOrAfter start task.
Proof.
  unfold completedSince, completedAtOrAfter.
  by destruct (Entry.completedAt task) as [[c|]|].
Qed.

End Statistics.

(** C9.  The offset [today === 0 ? 6 : today - 1] is [(today + 6) % 7] on
    every day of the week.  In the time zone of the machine, whatever its
    changes of offset, let [l] be the local time at [now]: the day that
    lies [(dayOfWeek + 6) % 7] days before the current day is a Monday, at
    most six days back, and [mondayLocal l] is 00:00 of that day.  When the
    zone reads the local time of that Monday at the time of day of [now]
    back on the same day (it does unless a change of offset skips over the
    midnight after it), the week starts at the instant that the zone
    gives for 00:00 of that Monday, and the selector counts exactly the
    entries that are completed and whose [completedAt] is a valid instant
    at or after that start.  (The instants involved are taken within the
    range of time values.) *)
Theorem getTasksCompletedThisWeekCount_spec (zone : ES.Zone) (now : Z)
    (s : TaskState) :
  let l := ES.LocalTime zone now in
  let k := ((ES.WeekDay l + 6) mod 7)%Z in
  (∀ today, (0 ≤ today ≤ 6)%Z → weekOffset today = ((today + 6) mod 7)%Z)
  ∧ mondayLocal l = ((ES.Day l - k) * ES.msPerDay)%Z
  ∧ ES.WeekDay (mondayLocal l) = 1%Z
  ∧ ES.TimeWithinDay (mondayLocal l) = 0%Z
  ∧ (mondayLocal l ≤ l < mondayLocal l + 7 * ES.msPerDay)%Z
  ∧ ((Z.abs (ES.UTC zone (l - k * ES.msPerDay)) ≤ ES.maxTime)%Z →
     ES.Day (ES.LocalTime zone (ES.UTC zone (l - k * ES.msPerDay)))
     = ES.Day (l - k * ES.msPerDay)%Z →
     (Z.abs (ES.UTC zone (mondayLocal l)) ≤ ES.maxTime)%Z →
     weekStart zone (Time now) = Time (ES.UTC zone (mondayLocal l))
     ∧ (ES.offsetAt zone (ES.UTC zone (mondayLocal l))
        = ES.offsetOf zone (mondayLocal l) →
        ES.LocalTime zone (ES.UTC zone (mondayLocal l)) = mondayLocal l)
     ∧ getTasksCompletedThisWeekCount zone (Time now) s
       = size (filter (λ kt : string * Entry.t,
                         completedAtOrAfter (ES.UTC zone (mondayLocal l)) kt.2)
                      (tasks s))).
Proof.
  intros l k.
  pose proof (mondayLocal_is_monday l) as [Hmon Hmid].
  split; [apply weekOffset_mod|]. split; [done|].
  split; [done|]. split; [done|]. split; [apply mondayLocal_bounds|].
  intros Hr1 Hday Hr2.
  pose proof (weekStart_local zone now Hr1 Hday Hr2) as Hstart. fold l in Hstart.
  split; [done|]. split.
  - intros Hoff. unfold ES.LocalTime, ES.UTC in *. rewrite Hoff. lia.
  - unfold getTasksCompletedThisWeekCount. rewrite Hstart.
    rewrite <- count_values_size.
    erewrite list_filter_iff; [reflexivity|].
    intros task. by rewrite completedSince_Time.
Qed.

Lemma getTasksCompletedThisWeekCount_spec_witness :
  let s := toggleTaskCompletion (Time 1698013800000) "task-1"
             (initialState (Time sampleNow)) in
  weekStart sampleZone (Time sampleSunday) = Time 1698012000000
  ∧ getTasksCompletedThisWeekCount sampleZone (Time sampleSunday) s = 2%nat.
Proof.
  intros s.
  destruct (proj2 (proj2 (proj2 (proj2 (proj2
              (getTasksCompletedThisWeekCount_spec sampleZone sampleSunday s))))))
    as (Hstart & _ & Hcount).
  { vm_compute. discriminate. }
  { vm_compute. reflexivity. }
  { vm_compute. discriminate. }
  split; [exact Hstart|]. rewrite Hcount. vm_compute. reflexivity.
Defined.

(** ** [applyTemplate] *)

Section ApplyTemplate.
Variables (uuidv4 : nat → string) (clock : nat → Date).
Implicit Types (s : TaskState) (parentId : option string).

Lemma forEach_empty_body {A B} (g : A) (l : list B) :
  foldl (λ g (_ : B), g) g l = g.
Proof. by induction l. Qed.

Lemma mapM_Ok_fmap {A B} (f : A → Outcome B) (g : A → B) (l : list A) :
  (∀ x, x ∈ l → f x = Ok (g x)) → mapM f l = Ok (g <$> l).
Proof.
  induction l as [|x l IH]; intros Hf; [done|].
  cbn [mapM]. rewrite Hf by apply list_elem_of_here. cbn.
  rewrite IH by (intros y Hy; apply Hf; by apply list_elem_of_further). done.
Qed.

Lemma applyTemplate_absent templateId parentId start s templates :
  taskTemplates s = Some templates → templates !! templateId = None →
  inherited templateId = false →
  applyTemplate uuidv4 clock templateId parentId start s = Ok ([], s).
Proof.
  intros Ht Hn Hi. unfold applyTemplate. by rewrite Ht, (get_absent _ _ Hn Hi).
Qed.

Lemma applyTemplate_inherited templateId parentId start s templates :
  taskTemplates s = Some templates → templates !! templateId = None →
  inherited templateId = true →
  applyTemplate uuidv4 clock templateId parentId start s = Throw TypeError.
Proof.
  intros Ht Hn Hi. unfold applyTemplate. by rewrite Ht, (get_inherited _ _ Hn Hi).
Qed.

(** Whatever the stored template holds, the current [applyTemplate]
    generates no task: called for the top level it returns no
    identifier, and the mapping and the roots stay as they are. *)
Lemma applyTemplate_generates_nothing templateId start s templates template :
  taskTemplates s = Some templates → templates !! templateId = Some template →
  ∃ s', applyTemplate uuidv4 clock templateId None start s = Ok ([], s')
        ∧ tasks s' = tasks s
        ∧ rootTaskIds s' = rootTaskIds s.
Proof.
  intros Ht Hl. unfold applyTemplate. rewrite Ht, (get_own _ _ _ Hl).
  rewrite forEach_empty_body. cbn [noneGenerated generatedTopLevelTaskIds
    tempTasks tempRootTaskIds tempParentChildMap].
  rewrite map_fold_empty, fmap_empty, (left_id_L ∅ (∪)). cbn [foldl truthy].
  cbn [mbind Outcome_bind bind].
  rewrite (mapM_Ok_fmap _
             (λ col, match TaskColumn.parentTaskId col with
                     | None => TaskColumn.with_taskIds
                                 (Set_new (TaskColumn.taskIds col)) col
                     | Some _ => col
                     end)).
  - cbn. eexists. split; [reflexivity|]. done.
  - intros col _. by destruct (TaskColumn.parentTaskId col).
Qed.

(** The earlier implementation: the identifiers of the generated tasks in
    the order of the definitions, each task added by [addTask]. *)
Lemma Legacy_loop parentId (defs : list TaskDef) ids s n :
  foldl (λ '(topLevelTaskIds, state, n) taskDef,
           let newTask := Legacy.newTask uuidv4 clock parentId n taskDef in
           (topLevelTaskIds ++ [Task.id newTask], addTask newTask state, S n))
        (ids, s, n) defs
  = (ids ++ (uuidv4 <$> seq n (length defs)),
     foldl (λ state task, addTask task state) s
           (imap (λ i taskDef, Legacy.newTask uuidv4 clock parentId (n + i) taskDef)
                 defs),
     (n + length defs)%nat).
Proof.
  revert ids s n. induction defs as [|d defs IH]; intros ids s n; cbn [foldl].
  - simpl. by rewrite app_nil_r, Nat.add_0_r.
  - rewrite IH. cbn [length seq fmap list_fmap imap foldl].
    rewrite Nat.add_0_r, <- app_assoc. cbn [app Legacy.newTask Task.id].
    f_equal; [f_equal|lia].
    f_equal. apply imap_ext. intros i x _. simpl. f_equal. lia.
Qed.

Lemma Legacy_applyTemplate_spec templateId parentId start s templates :
  taskTemplates s = Some templates →
  Legacy.applyTemplate uuidv4 clock templateId parentId start s
  = match get templates templateId with
    | NotFound => Ok ([], s)
    | Inherited => Throw TypeError
    | Own template =>
        Ok (uuidv4 <$> seq 0 (length (TaskTemplate.tasks template)),
            foldl (λ state task, addTask task state) s
              (imap (λ i taskDef, Legacy.newTask uuidv4 clock parentId i taskDef)
                    (TaskTemplate.tasks template)))
    end.
Proof.
  intros Ht. unfold Legacy.applyTemplate. rewrite Ht.
  destruct (get templates templateId) as [template| |]; [|done..].
  by rewrite Legacy_loop.
Qed.

End ApplyTemplate.

(** C1 at an input on which it fails: on the store as it starts, the
    template of the morning routine is stored and holds four top-level
    definitions, yet [applyTemplate] returns no identifier and leaves the
    store as it was. *)
Theorem applyTemplate_morning_generates_nothing
    (uuidv4 : nat → string) (clock : nat → Date) (start : option Date) (now : Date) :
  taskTemplates (initialState now) ≫= (.!! "template-morning") = Some template_morning
  ∧ length (TaskTemplate.tasks template_morning) = 4%nat
  ∧ applyTemplate uuidv4 clock "template-morning" None start (initialState now)
    = Ok ([], initialState now).
Proof. split_and!; reflexivity. Qed.

(** * Further properties of the code *)

(** ** [addTask] and [deleteTask] together *)

Section AddDelete.
Implicit Types (T : Task.t) (s : TaskState) (P id : string).

(** X1.  A task whose parent [P] is not in the mapping: when [P] is
    not the name of a property that every object inherits, the task is
    stored under its own identifier and nothing else changes in the
    mapping; when [P] is such a name other than [__proto__], the
    mapping gets, in addition, an entry under [P] that holds nothing but
    [childrenIds] with the identifier of the task.  In both cases the
    roots and the columns stay as they are. *)
Theorem addTask_missing_parent T s P :
  Task.parentId T = Some P → P ≠ "" → P ≠ Task.id T → tasks s !! P = None →
  (inherited P = false →
     tasks (addTask T s) = <[Task.id T := Entry.task T]> (tasks s))
  ∧ (inherited P = true → P ≠ "__proto__" →
     tasks (addTask T s)
     = <[P := Entry.partial (Rest.with_childrenIds [Task.id T] Rest.empty)]>
         (<[Task.id T := Entry.task T]> (tasks s)))
  ∧ rootTaskIds (addTask T s) = rootTaskIds s
  ∧ columns (addTask T s) = columns s.
Proof.
  intros HP Hne Hid Hnone.
  assert (<[Task.id T := Entry.task T]> (tasks s) !! P = None) as Hnew
    by (by rewrite lookup_insert_ne).
  split_and!.
  - intros Hi. rewrite (addTask_orphan T s P) by (by rewrite ?taskAt_absent). done.
  - intros Hi Hproto.
    rewrite (addTask_child T s P (Entry.partial Rest.empty))
      by (by rewrite ?taskAt_inherited).
    cbn [tasks set_tasks_roots]. by rewrite assign_ne.
  - rewrite addTask_rootTaskIds, HP. by rewrite (truthy_Some_ne P Hne).
  - apply addTask_others.
Qed.

Lemma addTask_missing_parent_witness :
  let T := plainTask "x" (Some "gone") [] in
  let U := plainTask "y" (Some "constructor") [] in
  let s := initialState (Time sampleNow) in
  tasks (addTask T s) = <["x" := Entry.task T]> (tasks s)
  ∧ tasks (addTask U s)
    = <["constructor" := Entry.partial (Rest.with_childrenIds ["y"] Rest.empty)]>
        (<["y" := Entry.task U]> (tasks s))
  ∧ rootTaskIds (addTask T s) = ["task-1"; "task-5"]
  ∧ columns (addTask T s) = [].
Proof.
  intros T U s.
  destruct (addTask_missing_parent T s "gone") as (H1 & _ & H3 & H4);
    [reflexivity|discriminate..|reflexivity|].
  destruct (addTask_missing_parent U s "constructor") as (_ & H2 & _);
    [reflexivity|discriminate..|reflexivity|].
  split_and!; [by apply H1 | by apply H2 | exact H3 | exact H4].
Defined.

Lemma NoDup_filter_ne id (l : list string) :
  NoDup l → NoDup (filter (λ x, x ≠ id) l).
Proof. apply NoDup_filter. Qed.

(** X2.  [addTask] and [deleteTask] keep [rootTaskIds] free of
    repetitions, whether [deleteTask] returns or throws. *)
Theorem rootTaskIds_NoDup_kept T id s :
  NoDup (rootTaskIds s) →
  NoDup (rootTaskIds (addTask T s))
  ∧ NoDup (rootTaskIds (stateAfter s (deleteTask id s))).
Proof.
  intros Hnd. split.
  - rewrite addTask_rootTaskIds.
    destruct (truthy (Task.parentId T)); [done|].
    unfold includes. case_bool_decide as Hin; simpl; [done|].
    apply NoDup_app. split_and!; [done| |apply NoDup_singleton].
    intros x Hx Hx'. apply list_elem_of_singleton in Hx' as ->. done.
  - destruct (deleteTask id s) as [s'|err] eqn:Hd; cbn [stateAfter]; [|done].
    destruct (taskAt (tasks s) id) as [e|] eqn:He.
    + destruct (deleteTask_fields id s s' e He Hd) as (_ & -> & _).
      by apply NoDup_filter.
    + unfold deleteTask in Hd. rewrite He in Hd. by injection Hd as <-.
Qed.

Lemma rootTaskIds_NoDup_kept_witness :
  NoDup (rootTaskIds (addTask (plainTask "task-1" None [])
                        (initialState (Time sampleNow))))
  ∧ NoDup (rootTaskIds (stateAfter (initialState (Time sampleNow))
                          (deleteTask "task-1" (initialState (Time sampleNow))))).
Proof.
  apply (rootTaskIds_NoDup_kept (plainTask "task-1" None []) "task-1"
           (initialState (Time sampleNow))).
  apply (bool_decide_unpack _). vm_compute. exact I.
Defined.

(** X3.  Deleting a root task that was just added gives the state back,
    when its identifier was unused and is neither selected nor edited. *)
Theorem deleteTask_addTask_root T s :
  truthy (Task.parentId T) = false →
  tasks s !! Task.id T = None →
  Task.id T ∉ rootTaskIds s →
  selectedTaskId s ≠ Some (Task.id T) →
  editingTaskId s ≠ Some (Task.id T) →
  deleteTask (Task.id T) (addTask T s) = Ok s.
Proof.
  intros Hp Hfresh Hroot Hsel Hed.
  rewrite addTask_root by done.
  unfold includes. rewrite bool_decide_eq_false_2 by done.
  rewrite (deleteTask_no_parent _ _ (Entry.task T));
    [|by apply taskAt_own, lookup_insert_eq|done].
  cbn [tasks rootTaskIds selectedTaskId editingTaskId
    columns taskTemplates set_tasks_roots].
  rewrite delete_insert_id by done.
  rewrite filter_app, filter_ne_absent, filter_cons_False, filter_nil, app_nil_r
    by (done || by intros ?).
  rewrite !bool_decide_eq_false_2 by done.
  by destruct s.
Qed.

Lemma deleteTask_addTask_root_witness :
  let s := initialState (Time sampleNow) in
  deleteTask "task-6" (addTask (plainTask "task-6" None []) s) = Ok s.
Proof.
  intros s.
  apply (deleteTask_addTask_root (plainTask "task-6" None []) s);
    [reflexivity | reflexivity | | discriminate | discriminate].
  apply (bool_decide_unpack _). vm_compute. exact I.
Defined.

Lemma with_childrenIds_id (p : Entry.t) c :
  Entry.childrenIds p = Some c → Entry.with_childrenIds c p = p.
Proof.
  destruct p as [x|o]; simpl; intros Hc.
  - injection Hc as <-. by destruct x.
  - destruct o. simpl in *. by subst.
Qed.

Lemma with_childrenIds_twice (p : Entry.t) c c' :
  Entry.with_childrenIds c (Entry.with_childrenIds c' p)
  = Entry.with_childrenIds c p.
Proof. by destruct p as [[]|[]]. Qed.

(** X4.  The same for a child: deleting a task that was just added
    under an existing parent restores the parent's [childrenIds], and
    the whole state, when those held no repetition beforehand. *)
Theorem deleteTask_addTask_child T s P (p : Entry.t) c :
  Task.parentId T = Some P → P ≠ "" →
  tasks s !! P = Some p →
  Entry.childrenIds p = Some c →
  NoDup c →
  Task.id T ∉ c →
  tasks s !! Task.id T = None →
  Task.id T ∉ rootTaskIds s →
  selectedTaskId s ≠ Some (Task.id T) →
  editingTaskId s ≠ Some (Task.id T) →
  deleteTask (Task.id T) (addTask T s) = Ok s.
Proof.
  intros HP Hne Hp Hc Hnd Hnin Hfresh Hroot Hsel Hed.
  assert (P ≠ Task.id T) as Hid by (intros ->; congruence).
  assert (<[Task.id T := Entry.task T]> (tasks s) !! P = Some p) as Hnew
    by (by rewrite lookup_insert_ne).
  rewrite (addTask_child T s P p) by (by rewrite ?(taskAt_own _ _ p)).
  rewrite assign_own by eauto. rewrite Hc. cbn [default].
  rewrite Set_new_NoDup by done. unfold Set_add.
  rewrite bool_decide_eq_false_2 by done.
  rewrite (deleteTask_parent _ _ (Entry.task T) P
             (Entry.with_childrenIds (c ++ [Task.id T]) p) (c ++ [Task.id T])).
  - cbn [tasks rootTaskIds selectedTaskId editingTaskId columns taskTemplates
         set_tasks_roots].
    rewrite !bool_decide_eq_false_2 by done.
    rewrite (filter_ne_absent _ (rootTaskIds s)) by done.
    rewrite filter_app, filter_ne_absent, filter_cons_False, filter_nil, app_nil_r
      by (done || by intros ?).
    rewrite with_childrenIds_twice, (with_childrenIds_id p c Hc).
    destruct s as [ts cs rs se ed tp].
    cbn [tasks columns rootTaskIds selectedTaskId editingTaskId taskTemplates] in *.
    do 2 f_equal.
    apply map_eq. intros k.
    destruct (decide (k = P)) as [->|HkP].
    + by rewrite lookup_insert_eq.
    + rewrite lookup_insert_ne by done.
      destruct (decide (k = Task.id T)) as [->|Hk].
      * by rewrite lookup_delete_eq.
      * by rewrite lookup_delete_ne, !lookup_insert_ne.
  - cbn [tasks set_tasks_roots].
    apply taskAt_own. by rewrite lookup_insert_ne, lookup_insert_eq.
  - done.
  - done.
  - cbn [tasks set_tasks_roots].
    by rewrite lookup_delete_ne, lookup_insert_eq.
  - apply childrenIds_with_childrenIds.
Qed.

Lemma deleteTask_addTask_child_witness :
  let s := initialState (Time sampleNow) in
  deleteTask "task-6" (addTask (plainTask "task-6" (Some "task-1") []) s) = Ok s.
Proof.
  intros s.
  eapply (deleteTask_addTask_child (plainTask "task-6" (Some "task-1") []) s "task-1");
    [reflexivity | discriminate | reflexivity | reflexivity | | | reflexivity |
     | discriminate | discriminate];
    apply (bool_decide_unpack _); vm_compute; exact I.
Defined.

End AddDelete.

(** ** Completion and the statistics *)

Section Completion.
Import ES ESFacts.
Implicit Types (s : TaskState) (id : string) (t : Task.t).

(** X5.  [toggleTaskCompletion] touches [completed] and [completedAt] of
    the one task only; and a completed task toggled twice is completed
    again with the instant of the second toggle as [completedAt], not
    the one it had. *)
Theorem toggleTaskCompletion_frame (now now' : Date) id s :
  (∀ k, k ≠ id → tasks (toggleTaskCompletion now id s) !! k = tasks s !! k)
  ∧ (∀ t, tasks s !! id = Some (Entry.task t) →
       ∃ t', tasks (toggleTaskCompletion now id s) !! id = Some (Entry.task t')
             ∧ Task.with_completion (Task.completed t) (Task.completedAt t) t' = t)
  ∧ rootTaskIds (toggleTaskCompletion now id s) = rootTaskIds s
  ∧ columns (toggleTaskCompletion now id s) = columns s
  ∧ selectedTaskId (toggleTaskCompletion now id s) = selectedTaskId s
  ∧ (∀ t, tasks s !! id = Some (Entry.task t) → Task.completed t = true →
       ∃ t'', tasks (toggleTaskCompletion now' id (toggleTaskCompletion now id s)) !! id
              = Some (Entry.task t'')
              ∧ Task.completed t'' = true
              ∧ Task.completedAt t'' = Some now').
Proof.
  split_and!.
  - intros k Hk. by rewrite toggleTaskCompletion_lookup, bool_decide_eq_false_2.
  - intros t Ht.
    rewrite toggleTaskCompletion_lookup, bool_decide_eq_true_2 by done.
    rewrite (taskAt_own _ _ _ Ht). cbn [Entry.with_completion Entry.completed].
    eexists. split; [done|]. by destruct t.
  - unfold toggleTaskCompletion. by destruct (taskAt (tasks s) id).
  - unfold toggleTaskCompletion. by destruct (taskAt (tasks s) id).
  - unfold toggleTaskCompletion. by destruct (taskAt (tasks s) id).
  - intros t Ht Hc.
    rewrite toggleTaskCompletion_lookup, bool_decide_eq_true_2 by done.
    erewrite taskAt_own
      by (rewrite toggleTaskCompletion_lookup, bool_decide_eq_true_2 by done;
          by rewrite (taskAt_own _ _ _ Ht)).
    cbn [Entry.with_completion Entry.completed Task.with_completion Task.completed].
    rewrite Hc. cbn [negb]. eexists. split; [done|]. done.
Qed.

Lemma toggleTaskCompletion_frame_witness :
  let s := initialState (Time sampleNow) in
  ∃ t'', tasks (toggleTaskCompletion (Time 2) "task-4"
                  (toggleTaskCompletion (Time 1) "task-4" s)) !! "task-4"
         = Some (Entry.task t'')
         ∧ Task.completed t'' = true
         ∧ Task.completedAt t'' = Some (Time 2).
Proof.
  intros s.
  destruct (toggleTaskCompletion_frame (Time 1) (Time 2) "task-4" s)
    as (_ & _ & _ & _ & _ & H).
  exact (H _ eq_refl eq_refl).
Defined.

Lemma size_filter_insert_present (P : Entry.t → bool) (m : gmap string Entry.t) id (t t' : Entry.t) :
  m !! id = Some t →
  (size (filter (λ kt : string * Entry.t, P kt.2) (<[id := t']> m))
   + (if P t then 1 else 0)
   = size (filter (λ kt : string * Entry.t, P kt.2) m)
     + (if P t' then 1 else 0))%nat.
Proof.
  intros Hm.
  rewrite <- (insert_delete_eq m id t') by done.
  rewrite <- (insert_delete_id m id t) at 2 by done.
  assert (filter (λ kt : string * Entry.t, P kt.2) (delete id m) !! id = None) as Hf.
  { rewrite map_lookup_filter_None. left. apply lookup_delete_eq. }
  destruct (P t) eqn:HPt, (P t') eqn:HPt';
    repeat first
      [ rewrite map_filter_insert_True by (simpl; by rewrite ?HPt, ?HPt')
      | rewrite map_filter_insert_False by (simpl; rewrite ?HPt, ?HPt'; by intros [])
      | rewrite map_size_insert_None by done
      | rewrite delete_delete_eq ];
    lia.
Qed.

(** X6.  Completing a task raises the total of completed tasks by one,
    and reopening one lowers it by one. *)
Theorem getCompletedTasksTotalCount_toggle (now : Date) id s (t : Entry.t) :
  tasks s !! id = Some t →
  getCompletedTasksTotalCount (toggleTaskCompletion now id s)
  = if Entry.completed t
    then (getCompletedTasksTotalCount s - 1)%nat
    else S (getCompletedTasksTotalCount s).
Proof.
  intros Ht. unfold getCompletedTasksTotalCount, toggleTaskCompletion.
  rewrite (taskAt_own _ _ _ Ht). cbn [tasks set_tasks].
  rewrite !(count_values_size Entry.completed).
  pose proof (size_filter_insert_present Entry.completed (tasks s) id t
                (Entry.with_completion (negb (Entry.completed t))
                   (if negb (Entry.completed t) then Some now else None) t) Ht) as H.
  assert (∀ c d, Entry.completed (Entry.with_completion c d t) = c) as Hc
    by (intros c d; by destruct t).
  rewrite Hc in H.
  destruct (Entry.completed t); cbn [negb] in *; lia.
Qed.

Lemma getCompletedTasksTotalCount_toggle_witness :
  getCompletedTasksTotalCount
    (toggleTaskCompletion (Time 1) "task-1" (initialState (Time sampleNow)))
  = 2%nat.
Proof.
  rewrite (getCompletedTasksTotalCount_toggle (Time 1) "task-1"
             (initialState (Time sampleNow)) _ eq_refl).
  reflexivity.
Defined.

End Completion.

Section Windows.
Import ES ESFacts.
Local Open Scope Z_scope.
Implicit Types (tza now : Z) (s : TaskState).

Lemma todayStart_midnight tza now :
  - maxTime + 2 * msPerDay ≤ now ≤ maxTime →
  todayStart tza (Time now) = Time (Day (now + tza) * msPerDay - tza).
Proof.
  intros Hnow. unfold todayStart. apply setHours_midnight.
  pose proof (MakeDate_Day (now + tza)) as Hd.
  pose proof (TimeWithinDay_range (now + tza)) as Hw.
  unfold MakeDate in Hd. unfold_consts. lia.
Qed.

Lemma monthOfDay_monthStart m lp :
  0 ≤ m ≤ 11 → lp = 0 ∨ lp = 1 → monthOfDay (monthStart m lp) lp = m.
Proof.
  intros Hm Hlp.
  assert (m = 0 ∨ m = 1 ∨ m = 2 ∨ m = 3 ∨ m = 4 ∨ m = 5 ∨ m = 6 ∨ m = 7
          ∨ m = 8 ∨ m = 9 ∨ m = 10 ∨ m = 11) as Hcases by lia.
  destruct Hlp as [-> | ->];
    repeat (destruct Hcases as [-> | Hcases]; [reflexivity|]); by subst.
Qed.

Lemma Day_of_midnight d : Day (d * msPerDay) = d ∧ TimeWithinDay (d * msPerDay) = 0.
Proof. unfold Day, TimeWithinDay. by rewrite Z.div_mul, Z.mod_mul. Qed.

(** The first day of the month of [t], as a day number. *)
Lemma first_of_month t :
  let d := Day t - (DateFromTime t - 1) in
  YearFromDay d = YearFromTime t
  ∧ monthOfDay (d - DayFromYear (YearFromTime t)) (InLeapYear t) = MonthFromTime t
  ∧ d - DayFromYear (YearFromTime t) = monthStart (MonthFromTime t) (InLeapYear t)
  ∧ d ≤ Day t.
Proof.
  intros d.
  pose proof (DayWithinYear_range t) as Hr.
  pose proof (MonthFromTime_range t) as Hm.
  pose proof (monthOfDay_spec (DayWithinYear t) (InLeapYear t) (leap_cases _) Hr)
    as (_ & Hlo & _).
  fold (MonthFromTime t) in Hlo.
  pose proof (DateFromTime_range t) as Hdt.
  assert (d - DayFromYear (YearFromTime t) = monthStart (MonthFromTime t) (InLeapYear t))
    as Hd.
  { unfold d, DateFromTime, DayWithinYear. lia. }
  assert (0 ≤ monthStart (MonthFromTime t) (InLeapYear t)) as Hms.
  { pose proof (monthOfDay_spec 0 (InLeapYear t) (leap_cases _)) as H0.
    destruct (leap_cases (YearFromTime t)) as [Hl|Hl]; unfold InLeapYear;
      rewrite Hl;
      assert (MonthFromTime t = 0 ∨ MonthFromTime t = 1 ∨ MonthFromTime t = 2
              ∨ MonthFromTime t = 3 ∨ MonthFromTime t = 4 ∨ MonthFromTime t = 5
              ∨ MonthFromTime t = 6 ∨ MonthFromTime t = 7 ∨ MonthFromTime t = 8
              ∨ MonthFromTime t = 9 ∨ MonthFromTime t = 10 ∨ MonthFromTime t = 11)
        as Hcases by lia;
      repeat (destruct Hcases as [-> | Hcases]; [by vm_compute|]);
      rewrite Hcases; by vm_compute. }
  split_and!.
  - apply YearFromDay_unique.
    rewrite DayFromYear_succ, DaysInYear_cases.
    unfold DayWithinYear, InLeapYear in *. lia.
  - rewrite Hd. apply monthOfDay_monthStart; [done | apply leap_cases].
  - done.
  - lia.
Qed.

Lemma YearFromTime_nonneg t : 0 ≤ t → 1970 ≤ YearFromTime t.
Proof.
  intros Ht. unfold YearFromTime.
  pose proof (YearFromDay_bracket (Day t)) as Hb.
  assert (0 ≤ Day t) by (unfold Day; unfold_consts; Z.div_mod_to_equations; lia).
  destruct (Z.le_gt_cases 1970 (YearFromDay (Day t))) as [|Hlt]; [done|].
  pose proof (DayFromYear_mono (YearFromDay (Day t) + 1) 1970) as Hm.
  assert (DayFromYear 1970 = 0) as Hc by reflexivity. lia.
Qed.

End Windows.

Section MonthWindow.
Import ESFacts.
Local Open Scope Z_scope.

(** The start of the month in any zone: [new Date(year, month, 1)] is
    the instant the zone gives to the first of the month at 00:00, and
    [setHours] keeps it when the zone reads it back on that day. *)
Lemma monthStart_first_local (zone : ES.Zone) now :
  let f := firstOfMonthLocal (ES.LocalTime zone now) in
  0 ≤ ES.LocalTime zone now →
  Z.abs (ES.UTC zone f) ≤ ES.maxTime →
  ES.Day (ES.LocalTime zone (ES.UTC zone f)) = ES.Day f →
  monthStart zone (Time now) = Time (ES.UTC zone f).
Proof.
  intros f Hpos Hr Hback. unfold monthStart.
  cbn [ES.getFullYear ES.getMonth ES.newDate_ym1].
  pose proof (YearFromTime_nonneg (ES.LocalTime zone now) Hpos) as Hy.
  destruct (Z.leb_spec 0 (ES.YearFromTime (ES.LocalTime zone now))); [|lia].
  destruct (Z.leb_spec (ES.YearFromTime (ES.LocalTime zone now)) 99); [lia|].
  cbn [andb]. rewrite MakeDay_fields.
  assert (ES.MakeDate (ES.Day (ES.LocalTime zone now)
                       + (1 - ES.DateFromTime (ES.LocalTime zone now)))
            (ES.MakeTime 0 0 0 0) = f) as ->.
  { unfold f, firstOfMonthLocal, ES.MakeDate, ES.MakeTime. lia. }
  rewrite TimeClip_in_range by done.
  assert (ES.Day f * ES.msPerDay = f) as Hf.
  { unfold f, firstOfMonthLocal. by rewrite (proj1 (Day_of_midnight _)). }
  rewrite setHours_midnight_local; rewrite Hback, Hf; done.
Qed.

Lemma monthStart_first tza now :
  0 ≤ now + tza → now ≤ ES.maxTime → Z.abs tza ≤ ES.msPerDay →
  monthStart tza (Time now) = Time (firstOfMonth tza now).
Proof.
  intros Hpos Hmax Htza.
  pose proof (first_of_month (now + tza)) as (Hyear & _ & Hd & Hle).
  pose proof (YearFromTime_nonneg (now + tza) Hpos) as Hy.
  pose proof (YearFromDay_bracket (ES.Day (now + tza) - (ES.DateFromTime (now + tza) - 1)))
    as Hb.
  rewrite Hyear in Hb.
  pose proof (DayFromYear_mono 1970 (ES.YearFromTime (now + tza)) Hy) as Hm.
  assert (ES.DayFromYear 1970 = 0) as Hc by reflexivity.
  pose proof (MakeDate_Day (now + tza)) as Hdd.
  pose proof (TimeWithinDay_range (now + tza)) as Hw.
  rewrite (monthStart_first_local (ES.fixed tza) now);
    unfold ES.LocalTime, ES.UTC, firstOfMonthLocal, firstOfMonth; cbn [ES.offsetAt ES.offsetOf ES.fixed].
  - done.
  - done.
  - unfold ES.MakeDate in Hdd. unfold_consts. lia.
  - f_equal. lia.
Qed.

End MonthWindow.

Section Counts.
Import ESFacts.
Local Open Scope Z_scope.
Implicit Types (tza now : Z) (s : TaskState).

(** X7.  The count of today starts at 00:00 local time of the current
    local day: [todayStart] is the instant that the zone assigns to the
    latest local midnight that is not after the local time of [now];
    when the offset at that midnight is the one in force at [now], it is
    at most a day before [now]. *)
Theorem todayStart_spec (zone : ES.Zone) now :
  let l := ES.LocalTime zone now in
  let m := ES.UTC zone (ES.Day l * ES.msPerDay) in
  Z.abs m ≤ ES.maxTime →
  todayStart zone (Time now) = Time m
  ∧ ES.Day (ES.Day l * ES.msPerDay) = ES.Day l
  ∧ ES.TimeWithinDay (ES.Day l * ES.msPerDay) = 0
  ∧ ES.Day l * ES.msPerDay ≤ l < ES.Day l * ES.msPerDay + ES.msPerDay
  ∧ (ES.offsetOf zone (ES.Day l * ES.msPerDay) = ES.offsetAt zone now →
     m ≤ now < m + ES.msPerDay).
Proof.
  intros l m Hr.
  pose proof (MakeDate_Day l) as Hd.
  pose proof (TimeWithinDay_range l) as Hw.
  unfold ES.MakeDate in Hd.
  split_and!.
  - unfold todayStart. by apply setHours_midnight_local.
  - apply Day_of_midnight.
  - apply Day_of_midnight.
  - lia.
  - lia.
  - intros Hoff. unfold m, ES.UTC. rewrite Hoff. unfold l, ES.LocalTime in *. lia.
Qed.

Lemma todayStart_spec_witness :
  todayStart sampleZone (Time sampleSunday) = Time 1698530400000
  ∧ todayStart (ES.fixed 32400000) (Time sampleNow) = Time 1698246000000.
Proof.
  split.
  - apply (todayStart_spec sampleZone sampleSunday). vm_compute. discriminate.
  - apply (todayStart_spec (ES.fixed 32400000) sampleNow). vm_compute. discriminate.
Defined.

(** X8.  The count of the month starts at 00:00 local time of the first
    day of the current local month: for an instant whose local time is
    from 1970 on, in a zone that reads that first midnight back on its
    day, [monthStart] is the instant the zone assigns to it. *)
Theorem monthStart_spec (zone : ES.Zone) now :
  let l := ES.LocalTime zone now in
  let f := firstOfMonthLocal l in
  0 ≤ l →
  Z.abs (ES.UTC zone f) ≤ ES.maxTime →
  ES.Day (ES.LocalTime zone (ES.UTC zone f)) = ES.Day f →
  monthStart zone (Time now) = Time (ES.UTC zone f)
  ∧ ES.DateFromTime f = 1
  ∧ ES.MonthFromTime f = ES.MonthFromTime l
  ∧ ES.YearFromTime f = ES.YearFromTime l
  ∧ ES.TimeWithinDay f = 0
  ∧ f ≤ l.
Proof.
  intros l f Hpos Hr Hback.
  split; [by apply monthStart_first_local|].
  pose proof (first_of_month l) as (Hyear & Hmonth & Hd & Hle).
  unfold f, firstOfMonthLocal.
  set (d := ES.Day l - (ES.DateFromTime l - 1)) in *.
  pose proof (Day_of_midnight d) as [HD HT].
  assert (ES.YearFromTime (d * ES.msPerDay) = ES.YearFromTime l) as Hy.
  { unfold ES.YearFromTime at 1. by rewrite HD. }
  assert (ES.InLeapYear (d * ES.msPerDay) = ES.InLeapYear l) as Hl.
  { unfold ES.InLeapYear. by rewrite Hy. }
  assert (ES.DayWithinYear (d * ES.msPerDay)
          = d - ES.DayFromYear (ES.YearFromTime l)) as Hw.
  { unfold ES.DayWithinYear. by rewrite HD, Hy. }
  assert (ES.MonthFromTime (d * ES.msPerDay) = ES.MonthFromTime l) as Hm.
  { unfold ES.MonthFromTime at 1. by rewrite Hw, Hl. }
  split_and!; [|done|done|done|].
  - unfold ES.DateFromTime at 1. rewrite Hw, Hm, Hl. lia.
  - pose proof (MakeDate_Day l) as Hdd.
    pose proof (TimeWithinDay_range l) as Hrr.
    unfold ES.MakeDate in Hdd. unfold_consts. lia.
Qed.

Lemma monthStart_spec_witness :
  monthStart sampleZone (Time sampleSunday) = Time 1696111200000
  ∧ ES.DateFromTime (firstOfMonthLocal (ES.LocalTime sampleZone sampleSunday)) = 1.
Proof.
  destruct (monthStart_spec sampleZone sampleSunday) as (H1 & H2 & _);
    [vm_compute; discriminate .. | reflexivity | ].
  split; [exact H1 | exact H2].
Defined.

Lemma completedSince_earlier (a b : Z) task :
  a ≤ b → completedSince (Time b) task → completedSince (Time a) task.
Proof.
  intros Hab. unfold completedSince.
  destruct (Entry.completed task); [|done].
  destruct (Entry.completedAt task) as [[c|]|]; [|done..]. simpl.
  rewrite !Is_true_true, !Z.leb_le. lia.
Qed.

Lemma length_filter_mono {A} (P Q : A → Prop) `{!∀ x, Decision (P x)}
    `{!∀ x, Decision (Q x)} (l : list A) :
  (∀ x, P x → Q x) → (length (filter P l) ≤ length (filter Q l))%nat.
Proof.
  intros HPQ. induction l as [|x l IH]; [done|].
  rewrite !filter_cons. destruct (decide (P x)) as [HP|HP].
  - rewrite decide_True by auto. simpl. lia.
  - destruct (decide (Q x)); simpl; lia.
Qed.

(** X9.  In a zone of one offset from UTC, the four counts are ordered:
    what was completed today was completed this week and this month,
    and each count is at most the total. *)
Theorem completed_counts_ordered tza now s :
  0 ≤ now + tza → now ≤ ES.maxTime → Z.abs tza ≤ ES.msPerDay →
  (getTasksCompletedTodayCount tza (Time now) s
   ≤ getTasksCompletedThisWeekCount tza (Time now) s
   ≤ getCompletedTasksTotalCount s)%nat
  ∧ (getTasksCompletedTodayCount tza (Time now) s
     ≤ getTasksCompletedThisMonthCount tza (Time now) s
     ≤ getCompletedTasksTotalCount s)%nat.
Proof.
  intros Hpos Hmax Htza.
  assert (- ES.maxTime + 8 * ES.msPerDay ≤ now ≤ ES.maxTime) as Hw
    by (unfold_consts; lia).
  assert (- ES.maxTime + 2 * ES.msPerDay ≤ now ≤ ES.maxTime) as Hd
    by (unfold_consts; lia).
  unfold getTasksCompletedTodayCount, getTasksCompletedThisWeekCount,
    getTasksCompletedThisMonthCount, getCompletedTasksTotalCount.
  rewrite todayStart_midnight, weekStart_monday, monthStart_first by done.
  assert (∀ start task, completedSince start task → Entry.completed task) as Htot.
  { intros start task. unfold completedSince. by destruct (Entry.completed task). }
  pose proof (ESFacts.DateFromTime_range (now + tza)) as Hdt.
  assert (0 ≤ (ES.WeekDay (now + tza) + 6) mod 7) by (Z.div_mod_to_equations; lia).
  split; (split; [apply length_filter_mono|apply length_filter_mono, Htot]);
    intros task; apply completedSince_earlier;
    unfold mondayOf, firstOfMonth; unfold_consts; lia.
Qed.

Lemma completed_counts_ordered_witness :
  (getTasksCompletedTodayCount 0%Z (Time sampleNow) (initialState (Time sampleNow))
   ≤ getTasksCompletedThisWeekCount 0%Z (Time sampleNow) (initialState (Time sampleNow)))%nat.
Proof.
  apply (completed_counts_ordered 0 sampleNow (initialState (Time sampleNow)));
    vm_compute; discriminate.
Defined.

End Counts.

(** ** The columns *)

Section Columns.
Variable clock : nat → Z.
Implicit Types (s : TaskState) (h : list string) (col : TaskColumn.t).

Lemma presentIds_present (ts : gmap string Entry.t) (ids : list string) :
  Forall (λ id, is_Some (taskAt ts id)) (presentIds ts ids).
Proof.
  apply Forall_forall. intros id Hid.
  unfold presentIds in Hid. by apply list_elem_of_filter in Hid as [? _].
Qed.

Lemma projection_lookup h s i col :
  projection clock h s !! i = Some col →
  TaskColumn.level col = i
  ∧ Forall (λ id, is_Some (taskAt (tasks s) id)) (TaskColumn.taskIds col)
  ∧ (i = 0%nat → TaskColumn.parentTaskId col = None)
  ∧ (i ≠ 0%nat →
     ∃ p, TaskColumn.parentTaskId col = Some p ∧ p ∈ h ∧ hasChildren (tasks s) p).
Proof.
  unfold projection.
  intros Hcol. apply lookup_take_Some in Hcol as [Hcol _].
  destruct i as [|i].
  - injection Hcol as <-. simpl.
    split_and!; [done|apply presentIds_present|done|done].
  - simpl in Hcol. apply list_lookup_imap_Some in Hcol as (p & Hp & ->).
    simpl. split_and!; [done|apply presentIds_present|done|].
    intros _. exists p. split; [done|].
    apply list_elem_of_lookup_2 in Hp.
    by apply list_elem_of_filter in Hp as [? ?].
Qed.


Lemma length_omap_filter {A B} (f : A → option B) (l : list A) :
  length (omap f l) = length (filter (λ x, is_Some (f x)) l).
Proof.
  induction l as [|x l IH]; [done|]. cbn [omap list_omap].
  destruct (f x) as [y|] eqn:Hf.
  - rewrite filter_cons_True by (by rewrite Hf). simpl. by rewrite IH.
  - rewrite filter_cons_False by (rewrite Hf; by intros []). done.
Qed.

Lemma filter_all {A} (P : A → Prop) `{!∀ x, Decision (P x)} (l : list A) :
  Forall P l → filter P l = l.
Proof.
  induction 1 as [|x l Hx Hl IH]; [done|]. by rewrite filter_cons_True, IH.
Qed.

Lemma length_filter_lt {A} (P : A → Prop) `{!∀ x, Decision (P x)} (l : list A) x :
  x ∈ l → ¬ P x → (length (filter P l) < length l)%nat.
Proof.
  induction l as [|y l IH]; intros Hx Hn; [by apply elem_of_nil in Hx|].
  apply elem_of_cons in Hx as [->|Hx].
  - rewrite filter_cons_False by done. simpl.
    pose proof (length_filter P l). lia.
  - specialize (IH Hx Hn). rewrite filter_cons.
    destruct (decide (P y)); simpl; lia.
Qed.


Implicit Types (cid : string).

(** X12.  [removeColumn] removes every column with the identifier and
    keeps the others in their order; removing a column that was just
    added, whose identifier no other column bears, gives the columns
    back. *)
Theorem removeColumn_spec cid col s :
  Forall (λ c, TaskColumn.id c ≠ cid) (columns (removeColumn cid s))
  ∧ (∀ c, c ∈ columns (removeColumn cid s)
          ↔ c ∈ columns s ∧ TaskColumn.id c ≠ cid)
  ∧ columns (removeColumn cid s) `sublist_of` columns s
  ∧ (Forall (λ c, TaskColumn.id c ≠ TaskColumn.id col) (columns s) →
     removeColumn (TaskColumn.id col) (addColumn col s) = s).
Proof.
  split_and!.
  - apply Forall_forall. intros c Hc. unfold removeColumn in Hc. simpl in Hc.
    by apply list_elem_of_filter in Hc as [? _].
  - intros c. unfold removeColumn. simpl. rewrite list_elem_of_filter. tauto.
  - unfold removeColumn. simpl. apply sublist_filter.
  - intros Hall. unfold removeColumn, addColumn, set_columns. simpl.
    rewrite filter_app, filter_cons_False, filter_nil, app_nil_r by (by intros ?).
    assert (filter (λ c, TaskColumn.id c ≠ TaskColumn.id col) (columns s) = columns s)
      as ->; [|by destruct s].
    induction Hall as [|c cs Hc Hcs IH]; [done|].
    by rewrite filter_cons_True, IH.
Qed.

End Columns.



Lemma removeColumn_spec_witness :
  let s := setActiveColumns (λ _, sampleNow) [] (initialState (Time sampleNow)) in
  let col := TaskColumn.mk "extra" [] None 7 in
  removeColumn "extra" (addColumn col s) = s.
Proof.
  intros s col.
  apply (removeColumn_spec "extra" col s).
  repeat constructor. discriminate.
Defined.

(** ** The templates *)

(** X13.  A template that was added is found under its identifier,
    whatever the store held; deleting it again gives the state back when
    the identifier was unused; and once deleted, [applyTemplate] on it
    returns nothing and changes nothing when its identifier is not the
    name of a property that every object inherits, and throws a
    [TypeError] when it is. *)
Theorem addTemplate_deleteTemplate (template : TaskTemplate.t) (s : TaskState)
    (uuidv4 : nat → string) (clock : nat → Date) (parentId : option string)
    (start : option Date) :
  let s1 := addTemplate template s in
  taskTemplates s1 ≫= (.!! TaskTemplate.id template) = Some template
  ∧ (∀ templateId, templateId ≠ TaskTemplate.id template →
       taskTemplates s1 ≫= (.!! templateId) = taskTemplates s ≫= (.!! templateId))
  ∧ tasks s1 = tasks s
  ∧ (∀ templates, taskTemplates s = Some templates →
       templates !! TaskTemplate.id template = None →
       deleteTemplate (TaskTemplate.id template) s1 = s)
  ∧ (inherited (TaskTemplate.id template) = false →
     applyTemplate uuidv4 clock (TaskTemplate.id template) parentId start
       (deleteTemplate (TaskTemplate.id template) s1)
     = Ok ([], deleteTemplate (TaskTemplate.id template) s1))
  ∧ (inherited (TaskTemplate.id template) = true →
     applyTemplate uuidv4 clock (TaskTemplate.id template) parentId start
       (deleteTemplate (TaskTemplate.id template) s1)
     = Throw TypeError).
Proof.
  intros s1. subst s1. unfold addTemplate. split_and!.
  - simpl. apply lookup_insert_eq.
  - intros templateId Hne. simpl. rewrite lookup_insert_ne by done.
    by destruct (taskTemplates s).
  - done.
  - intros templates Ht Hfresh. unfold deleteTemplate. rewrite Ht. simpl.
    rewrite delete_insert_id by done. destruct s; simpl in *. by subst.
  - intros Hi. eapply applyTemplate_absent; [reflexivity| |done].
    apply lookup_delete_eq.
  - intros Hi. eapply applyTemplate_inherited; [reflexivity| |done].
    apply lookup_delete_eq.
Qed.

Lemma addTemplate_deleteTemplate_witness :
  let s := initialState (Time sampleNow) in
  let template := TaskTemplate.mk "template-new" "new" [] in
  let inherited_name := TaskTemplate.mk "toString" "new" [] in
  deleteTemplate "template-new" (addTemplate template s) = s
  ∧ applyTemplate (λ _, "") (λ _, InvalidDate) "template-new" None None
      (deleteTemplate "template-new" (addTemplate template s))
    = Ok ([], deleteTemplate "template-new" (addTemplate template s))
  ∧ applyTemplate (λ _, "") (λ _, InvalidDate) "toString" None None
      (deleteTemplate "toString" (addTemplate inherited_name s))
    = Throw TypeError.
Proof.
  intros s template inherited_name.
  destruct (addTemplate_deleteTemplate template s (λ _, "") (λ _, InvalidDate)
              None None) as (_ & _ & _ & H & H1 & _).
  destruct (addTemplate_deleteTemplate inherited_name s (λ _, "") (λ _, InvalidDate)
              None None) as (_ & _ & _ & _ & _ & H2).
  split_and!; [apply (H _ eq_refl); reflexivity | by apply H1 | by apply H2].
Defined.

(** ** [importState] and its caller *)

Section ImportState.
Variable fallback : string → Date.
Implicit Types (s : TaskState) (data : ImportData.t).

(** X14.  [importState] returns false and leaves the state as it is when
    the document is no object, when [tasks] is missing, a primitive or
    [null], when [rootTaskIds] is not an array, and when [taskTemplates]
    is missing or a primitive. *)
Theorem importState_rejects (data : option ImportData.t) s :
  (data = None
   ∨ ∃ d, data = Some d
          ∧ (ImportData.tasks d = Undefined ∨ ImportData.tasks d = Primitive
             ∨ ImportData.tasks d = Null
             ∨ (∀ l, ImportData.rootTaskIds d ≠ Array l)
             ∨ ImportData.taskTemplates d = Undefined
             ∨ ImportData.taskTemplates d = Primitive)) →
  importState fallback data s = (false, s).
Proof.
  intros [-> | (d & -> & H)]; [done|].
  apply importState_rejected.
  destruct H as [H | [H | [H | [H | [H | H]]]]]; try rewrite H; auto.
  right. left. destruct (ImportData.rootTaskIds d) as [| | |l|]; try done.
  by destruct (H l).
Qed.

Lemma rehydrate_Some task :
  rehydrate fallback (Some task) = Ok (Entry.task (rehydrated fallback task)).
Proof.
  unfold rehydrate, rehydrated.
  by destruct (ExportedTask.completedAt task) as [[|c cs]|].
Qed.

(** X15.  One [null] among the entries of [tasks] makes [importState]
    return false and leave the state as it is: nothing is imported in
    part. *)
Theorem importState_null_entry v (m : gmap string (option ExportedTask.t))
    roots tpl k s :
  m !! k = Some None →
  importState fallback (Some (ImportData.mk v (Object m) roots tpl)) s = (false, s).
Proof.
  intros Hk. unfold importState.
  cbn [ImportData.tasks ImportData.rootTaskIds ImportData.taskTemplates].
  destruct (_ || _); [done|].
  cbn [Object_entries_of mbind Outcome_bind bind].
  rewrite (mapM_entries_Throw (rehydrate fallback) (Object_entries m) (k, None) TypeError).
  - done.
  - by apply elem_of_map_to_list.
  - intros [k' [e|]] _; [right|left; done].
    eexists. apply rehydrate_Some.
  - done.
Qed.

(** X16.  When every entry of [tasks] is an exported task, [rootTaskIds]
    is an array and [taskTemplates] is an object, [importState] returns
    true and the new state holds nothing of the old one: each entry
    rehydrated under its key, the roots and the templates as given, no
    selection, no task under edit and no column. *)
Theorem importState_replaces v (m : gmap string ExportedTask.t) roots
    (templates : gmap string TaskTemplate.t) s :
  importState fallback
    (Some (ImportData.mk v (Object (Some <$> m)) (Array roots) (Object templates))) s
  = (true, mkState (Entry.task <$> (rehydrated fallback <$> m)) [] roots None None
             (Some templates)).
Proof.
  rewrite (importState_accepted fallback v (Some <$> m) roots (Object templates)
             (λ e, match e with
                   | Some task => Entry.task (rehydrated fallback task)
                   | None => inhabitant
                   end)).
  - by rewrite <- !map_fmap_compose.
  - eauto.
  - intros k e Hke. apply lookup_fmap_Some in Hke as (task & <- & _).
    apply rehydrate_Some.
Qed.

(** The two outcomes of [importState]: on success every entry of the
    document was an exported task, and the state is the one of X16. *)
Lemma importState_outcomes data s :
  importState fallback (Some data) s = (false, s)
  ∨ ∃ (m : gmap string ExportedTask.t),
      ImportData.tasks data = Object (Some <$> m)
      ∧ importState fallback (Some data) s
        = (true, mkState (Entry.task <$> (rehydrated fallback <$> m)) []
                   (storedRootTaskIds (ImportData.rootTaskIds data))
                   None None (storedTaskTemplates (ImportData.taskTemplates data))).
Proof.
  unfold importState.
  destruct (ImportData.tasks data) as [| | |[]|m] eqn:Ht;
    cbn [typeof_object negb orb]; try (by left).
  { destruct (_ || _); by left. }
  destruct (_ || _); [by left|].
  cbn [Object_entries_of mbind Outcome_bind bind].
  - destruct (mapM _ (Object_entries m)) as [l|err] eqn:Hl; [|by left].
    right. exists (omap id m).
    pose proof Hl as Hall. apply mapM_entries_inv in Hall.
    rewrite Forall_forall in Hall.
    assert (Some <$> omap id m = m) as Hm.
    { apply map_eq. intros k. rewrite lookup_fmap, lookup_omap.
      destruct (m !! k) as [[x|]|] eqn:Hk; [done| |done].
      destruct (Hall (k, None)) as [y Hy]; [by apply elem_of_map_to_list|done]. }
    split; [by rewrite Hm|].
    rewrite <- Hm in Hl at 1.
    rewrite (mapM_entries_Ok (rehydrate fallback)
               (λ e, match e with
                     | Some task => Entry.task (rehydrated fallback task)
                     | None => inhabitant
                     end)) in Hl.
    + injection Hl as <-. cbn [mbind Outcome_bind bind].
      rewrite Object_fromEntries_fmap.
      by rewrite <- !map_fmap_compose.
    + apply Forall_forall. intros [k e] Hke.
      apply elem_of_map_to_list, lookup_fmap_Some in Hke as (task & <- & _).
      apply rehydrate_Some.
Qed.

Variable clock : nat → Z.

Lemma setActiveColumns_nil_columns st :
  columns (setActiveColumns clock [] st)
  = [rootColumnOf clock (setActiveColumns clock [] st)].
Proof.
  rewrite setActiveColumns_columns.
  destruct (setActiveColumns_others clock [] st) as (Ht & Hr & _).
  unfold projection, rootColumnOf. by rewrite Ht, Hr.
Qed.

(** What the handler does once its own checks have passed. *)
Lemma import_then_refresh data roots templates s :
  ImportData.rootTaskIds data = Array roots →
  ImportData.taskTemplates data = Object templates →
  let s' :=
    (let '(success, state) := importState fallback (Some data) s in
     if success then setActiveColumns clock [] state else state) in
  s' = s
  ∨ (columns s' = [rootColumnOf clock s']
     ∧ selectedTaskId s' = None ∧ editingTaskId s' = None
     ∧ rootTaskIds s' = roots ∧ taskTemplates s' = Some templates
     ∧ ∃ m : gmap string ExportedTask.t,
         ImportData.tasks data = Object (Some <$> m)
         ∧ tasks s' = Entry.task <$> (rehydrated fallback <$> m)).
Proof.
  intros Hr Htp s'. subst s'.
  destruct (importState_outcomes data s) as [-> | (m & Hm & ->)]; [by left|].
  right. rewrite Hr, Htp. cbn [storedRootTaskIds storedTaskTemplates].
  destruct (setActiveColumns_others clock []
              (mkState (Entry.task <$> (rehydrated fallback <$> m)) [] roots
                 None None (Some templates)))
    as (Ht' & Hr' & Hs' & He' & Htp').
  rewrite Hs', He', Hr', Htp', Ht'.
  split; [apply setActiveColumns_nil_columns|].
  split_and!; try done. by exists m.
Qed.

(** X17.  Through the panel: a document of another version that the
    user does not confirm changes nothing; whatever the document, the
    state is either untouched or wholly replaced: the tasks are the
    entries of the document, each rehydrated under its key, the roots
    and the templates are those of the document, nothing is selected or
    under edit, and the only column is the root column, which lists the
    roots under which a read of the new mapping finds a value; and the
    templates of the store never become [null]. *)
Theorem handleImportChange_spec (proceed : bool) (parsedData : option ImportData.t) s :
  let s' := handleImportChange fallback clock proceed parsedData s in
  (s' = s
   ∨ (columns s'
      = [TaskColumn.mk ("column-root-" +:+ pretty (clock 0%nat))
           (filter (λ id, is_Some (taskAt (tasks s') id)) (rootTaskIds s'))
           None 0]
      ∧ selectedTaskId s' = None ∧ editingTaskId s' = None
      ∧ ∃ data (m : gmap string ExportedTask.t) roots templates,
          parsedData = Some data
          ∧ ImportData.tasks data = Object (Some <$> m)
          ∧ ImportData.rootTaskIds data = Array roots
          ∧ ImportData.taskTemplates data = Object templates
          ∧ tasks s' = Entry.task <$> (rehydrated fallback <$> m)
          ∧ rootTaskIds s' = roots ∧ taskTemplates s' = Some templates))
  ∧ (proceed = false →
     (∀ data, parsedData = Some data →
              ImportData.version data ≠ Some CURRENT_DATA_VERSION) →
     s' = s)
  ∧ (taskTemplates s ≠ None → taskTemplates s' ≠ None).
Proof.
  intros s'.
  change (TaskColumn.mk ("column-root-" +:+ pretty (clock 0%nat))
            (filter (λ id, is_Some (taskAt (tasks s') id)) (rootTaskIds s')) None 0)
    with (rootColumnOf clock s').
  assert (s' = s
          ∨ (columns s' = [rootColumnOf clock s']
             ∧ selectedTaskId s' = None ∧ editingTaskId s' = None
             ∧ ∃ data (m : gmap string ExportedTask.t) roots templates,
                 parsedData = Some data
                 ∧ ImportData.tasks data = Object (Some <$> m)
                 ∧ ImportData.rootTaskIds data = Array roots
                 ∧ ImportData.taskTemplates data = Object templates
                 ∧ tasks s' = Entry.task <$> (rehydrated fallback <$> m)
                 ∧ rootTaskIds s' = roots ∧ taskTemplates s' = Some templates))
    as Hmain.
  { subst s'. unfold handleImportChange.
    destruct parsedData as [data|]; [|by left].
    destruct (_ && _); [by left|].
    destruct (ImportData.tasks data) as [| | |[]|m] eqn:Ht;
      cbn [falsy_or_not_object orb]; try (by left).
    destruct (ImportData.rootTaskIds data) as [| | |roots|] eqn:Hr;
      cbn [falsy_or_not_array orb]; try (by left).
    destruct (ImportData.taskTemplates data) as [| | |[]|templates] eqn:Htp;
      cbn [falsy_or_not_object orb]; try (by left).
    destruct (import_then_refresh data roots templates s Hr Htp)
      as [H | (Hc & Hs & He & Hro & Htpl & m' & Hm' & Hts)]; [by left|].
    right. split_and!; try done. exists data, m', roots, templates.
    split_and!; done. }
  split_and!; [exact Hmain| |].
  - intros -> Hver. subst s'. unfold handleImportChange.
    destruct parsedData as [data|]; [|done].
    by rewrite bool_decide_eq_false_2 by (by apply Hver).
  - intros Hs.
    destruct Hmain
      as [H | (_ & _ & _ & data & m & roots & templates & _ & _ & _ & _ & _ & _ & H)];
      by rewrite H.
Qed.

End ImportState.

Lemma importState_rejects_witness :
  importState (λ _, InvalidDate)
    (Some (ImportData.mk None (Object ∅) Undefined Undefined))
    (initialState (Time sampleNow))
  = (false, initialState (Time sampleNow)).
Proof.
  apply importState_rejects. right. eexists. split; [reflexivity|].
  right. right. right. left. intros l. discriminate.
Defined.

Lemma importState_null_entry_witness :
  importState (λ _, InvalidDate)
    (Some (ImportData.mk (Some 1%Z) (Object {["a" := None]}) (Array []) (Object ∅)))
    (initialState (Time sampleNow))
  = (false, initialState (Time sampleNow)).
Proof. by apply (importState_null_entry _ _ _ _ _ "a"). Defined.

Lemma handleImportChange_spec_witness :
  let s := initialState (Time sampleNow) in
  handleImportChange (λ _, InvalidDate) (λ _, sampleNow) false
    (Some (ImportData.mk (Some 2%Z) (Object ∅) (Array []) (Object ∅))) s = s.
Proof.
  intros s.
  apply (handleImportChange_spec (λ _, InvalidDate) (λ _, sampleNow) false _ s);
    [reflexivity|].
  intros data [= <-]. discriminate.
Defined.

(** ** The receipt *)

Section Receipt.
Import Escpos.
Implicit Types (cmds : list (list Z)) (written src : list Z) (k : nat).

Lemma totalLengthOf_from cmds n :
  foldl (λ sum arr, (sum + length arr)%nat) n cmds
  = (n + length (concat cmds))%nat.
Proof.
  revert n. induction cmds as [|c cmds IH]; intros n; simpl; [lia|].
  rewrite IH, length_app. lia.
Qed.

Lemma totalLengthOf_concat cmds : totalLengthOf cmds = length (concat cmds).
Proof. unfold totalLengthOf. by rewrite totalLengthOf_from. Qed.

(** Writing at the end of what is written, into a buffer of zeros that
    is long enough, appends. *)
Lemma Uint8Array_set_next written src k :
  Uint8Array_set (written ++ Uint8Array_new (length src + k)) src (length written)
  = Ok ((written ++ src) ++ Uint8Array_new k).
Proof.
  unfold Uint8Array_set, Uint8Array_new.
  rewrite ?length_app, ?length_replicate.
  destruct (Nat.leb_spec (length written + length src)
              (length written + (length src + k))) as [_|Hlt]; [|lia].
  rewrite take_app_length, drop_app_add', drop_replicate by done.
  replace (length src + k - length src)%nat with k by lia.
  by rewrite app_assoc.
Qed.

Lemma Uint8Array_set_first src k :
  Uint8Array_set (Uint8Array_new (length src + k)) src 0
  = Ok (src ++ Uint8Array_new k).
Proof. apply (Uint8Array_set_next [] src k). Qed.

Lemma setEach_next cmds written k :
  setEach cmds (written ++ Uint8Array_new (length (concat cmds) + k), length written)
  = Ok ((written ++ concat cmds) ++ Uint8Array_new k,
        (length written + length (concat cmds))%nat).
Proof.
  unfold setEach. revert written.
  induction cmds as [|c cmds IH]; intros written; cbn [foldl concat].
  - simpl. by rewrite app_nil_r, Nat.add_0_r.
  - cbn [mbind Outcome_bind bind].
    rewrite length_app, <- Nat.add_assoc, Uint8Array_set_next.
    cbn [mbind Outcome_bind bind].
    rewrite <- length_app, IH, !length_app.
    rewrite <- !app_assoc. do 2 f_equal. lia.
Qed.

Lemma setEach_all cmds :
  setEach cmds (Uint8Array_new (length (concat cmds)), 0%nat)
  = Ok (concat cmds, length (concat cmds)).
Proof.
  pose proof (setEach_next cmds [] 0) as H.
  rewrite Nat.add_0_r in H. cbn [app length] in H. rewrite H.
  unfold Uint8Array_new. cbn [replicate]. by rewrite app_nil_r.
Qed.

Lemma createTextBlock_Ok text align bold underline :
  createTextBlock text align bold underline
  = Ok (textBlock text align bold underline).
Proof.
  unfold createTextBlock, textBlock, encodeText.
  set (fmt := (if bold then [TXT_BOLD_ON] else [])
              ++ (if underline then [TXT_UNDERLINE_ON] else [])).
  set (reset := (if bold then [TXT_BOLD_OFF] else [])
                ++ (if underline then [TXT_UNDERLINE_OFF] else [])).
  set (text' := TextEncoder_encode text).
  rewrite !totalLengthOf_concat.
  replace (length align + length (concat fmt) + length text' + length [LF]
           + length (concat reset))%nat
    with (length align
          + (length (concat fmt)
             + (length text' + (length (concat reset) + (length [LF] + 0)))))%nat
    by lia.
  rewrite Uint8Array_set_first. cbn [mbind Outcome_bind bind].
  rewrite Nat.add_0_l, (setEach_next fmt align).
  cbn [mbind Outcome_bind bind].
  rewrite <- length_app, Uint8Array_set_next. cbn [mbind Outcome_bind bind].
  rewrite <- length_app, setEach_next. cbn [mbind Outcome_bind bind].
  rewrite <- length_app, Uint8Array_set_next. cbn [mbind Outcome_bind bind].
  f_equal. unfold Uint8Array_new. cbn [replicate].
  rewrite app_nil_r, <- !app_assoc. cbn [app].
  unfold fmt, reset. by destruct bold, underline.
Qed.

(** X18.  [createTextBlock] never runs out of its buffer: it returns
    the alignment, the formats switched on, the text, the formats
    switched off and a line feed, in this order, and nothing else; the
    block is as long as its parts together. *)
Theorem createTextBlock_bytes text align bold underline :
  ∃ block,
    createTextBlock text align bold underline = Ok block
    ∧ block = align
              ++ (if bold then TXT_BOLD_ON else [])
              ++ (if underline then TXT_UNDERLINE_ON else [])
              ++ encodeText text utf_8
              ++ (if bold then TXT_BOLD_OFF else [])
              ++ (if underline then TXT_UNDERLINE_OFF else [])
              ++ [LF]
    ∧ length block
      = (length align + (if bold then 3 else 0) + (if underline then 3 else 0)
         + length (encodeText text utf_8)
         + (if bold then 3 else 0) + (if underline then 3 else 0) + 1)%nat.
Proof.
  eexists. split; [apply createTextBlock_Ok|].
  unfold textBlock. split.
  - by destruct bold, underline.
  - destruct bold, underline; rewrite ?length_app; simpl; lia.
Qed.

Lemma push_Ok cmds text align bold underline :
  push (Ok cmds) (createTextBlock text align bold underline)
  = Ok (cmds ++ [textBlock text align bold underline]).
Proof. by rewrite createTextBlock_Ok. Qed.

Lemma push_lines cmds (tasks : list PrintedTask) :
  foldl (λ commands task,
           push commands
             (createTextBlock
                ((if completed task then "[X]" else "[ ]") +:+ " " +:+ name task)
                ALIGN_LEFT false false))
        (Ok cmds) tasks
  = Ok (cmds ++ (taskLine <$> tasks)).
Proof.
  revert cmds. induction tasks as [|t tasks IH]; intros cmds; cbn [foldl].
  - by rewrite app_nil_r.
  - rewrite push_Ok, IH, <- app_assoc. done.
Qed.

(** X19.  [generateReceipt] returns the commands one after the other,
    with no gap: the initialisation first; the header in bold, when
    there is one; the date line; one line for each task, in order, with
    its box ticked or empty; the total in bold, as the language prints
    the number; the footer underlined, when there is one; three line
    feeds and the cut last.  A total of at most 2^53 in size is printed
    with its decimal digits. *)
Theorem generateReceipt_bytes (beyond : Z → string) header date time
    (tasks : list PrintedTask) totalTasks footer :
  generateReceipt beyond header date time tasks totalTasks footer
  = Ok (INIT_PRINTER
        ++ (if truthy_string header
            then ALIGN_CENTER ++ textBlock header ALIGN_CENTER true false
            else [])
        ++ ALIGN_CENTER
        ++ textBlock ("Date: " +:+ date +:+ "   Time: " +:+ time)
             ALIGN_CENTER false false
        ++ textBlock separator ALIGN_CENTER false false
        ++ ALIGN_LEFT
        ++ concat (taskLine <$> tasks)
        ++ ALIGN_CENTER
        ++ textBlock separator ALIGN_CENTER false false
        ++ ALIGN_LEFT
        ++ textBlock ("Total Tasks: " +:+ Number_toString beyond totalTasks)
             ALIGN_LEFT true false
        ++ (if truthy_string footer
            then ALIGN_CENTER ++ textBlock footer ALIGN_CENTER false true
            else [])
        ++ [LF; LF; LF]
        ++ CUT_PAPER_FULL)
  ∧ ((Z.abs totalTasks ≤ 2 ^ 53)%Z →
     Number_toString beyond totalTasks = pretty totalTasks).
Proof.
  split.
  2: { intros Hlt. unfold Number_toString.
       by destruct (Z.leb_spec (Z.abs totalTasks) (2 ^ 53)); [|lia]. }
  unfold generateReceipt.
  assert (∀ cmds c, push (Ok cmds) (Ok c) = Ok (cmds ++ [c])) as Hpush by done.
  set (h := if truthy_string header
            then [ALIGN_CENTER; textBlock header ALIGN_CENTER true false]
            else []).
  set (f := if truthy_string footer
            then [ALIGN_CENTER; textBlock footer ALIGN_CENTER false true]
            else []).
  assert ((if truthy_string header
           then push (push (Ok [INIT_PRINTER]) (Ok ALIGN_CENTER))
                  (createTextBlock header ALIGN_CENTER true false)
           else Ok [INIT_PRINTER]) = Ok ([INIT_PRINTER] ++ h)) as ->.
  { unfold h. destruct (truthy_string header); [|done].
    by rewrite Hpush, push_Ok, <- app_assoc. }
  rewrite Hpush, !push_Ok, Hpush, push_lines, Hpush, push_Ok, Hpush, push_Ok.
  match goal with
  | |- context [if truthy_string footer then push (push (Ok ?c) _) _ else _] =>
      assert ((if truthy_string footer
               then push (push (Ok c) (Ok ALIGN_CENTER))
                      (createTextBlock footer ALIGN_CENTER false true)
               else Ok c) = Ok (c ++ f)) as ->
  end.
  { unfold f. destruct (truthy_string footer); [|by rewrite app_nil_r].
    by rewrite Hpush, push_Ok, <- app_assoc. }
  rewrite !Hpush. cbn [mbind Outcome_bind bind].
  rewrite totalLengthOf_from, Nat.add_0_l.
  rewrite setEach_all. cbn [mbind Outcome_bind bind]. f_equal.
  rewrite !concat_app. cbn [concat]. rewrite !app_nil_r, <- !app_assoc.
  unfold h, f.
  destruct (truthy_string header), (truthy_string footer); cbn [concat app];
    rewrite ?app_nil_r, <- ?app_assoc; reflexivity.
Qed.

End Receipt.

Lemma generateReceipt_bytes_witness :
  Escpos.Number_toString (λ _, "1e+21") 2 = "2"
  ∧ Escpos.Number_toString (λ _, "1e+21") (10 ^ 21) = "1e+21".
Proof.
  split; [|reflexivity].
  apply (generateReceipt_bytes (λ _, "1e+21") "" "" "" [] 2 "").
  vm_compute. discriminate.
Defined.

(** ** [buildHierarchy] *)

Section Hierarchy.
Implicit Types (ts : gmap string Entry.t) (id : string) (path chain : list string).

Lemma taskAt_with_parent ts id (e : Entry.t) P :
  taskAt ts id = Some e → Entry.parentId e = Some P → ts !! id = Some e.
Proof.
  unfold taskAt, get. destruct (ts !! id) as [e'|]; simpl; [congruence|].
  destruct (inherited id); simpl; [|done]. by intros [= <-].
Qed.



(** X21.  [buildHierarchy] returns when the parent links go down along
    some measure: calls one more than the measure of the clicked task are
    enough. *)
Theorem buildHierarchy_returns (depth : string → nat) fuel ts id path :
  (∀ k t P, ts !! k = Some t → Entry.parentId t = Some P → P ≠ "" →
            depth P < depth k) →
  depth id < fuel →
  is_Some (buildHierarchy fuel ts id path).
Proof.
  intros Hdepth. revert id path.
  induction fuel as [|fuel IH]; intros id path Hfuel; [lia|].
  cbn [buildHierarchy].
  destruct (taskAt ts id) as [t|] eqn:Ht; [|eauto].
  destruct (Entry.parentId t) as [P|] eqn:HP; [|eauto]. cbn [truthy default].
  destruct P as [|c P']; [eauto|]. cbn [truthy_string].
  apply IH. change (Datatypes.id (String c P')) with (String c P').
  pose proof (Hdepth id t (String c P') (taskAt_with_parent ts id t _ Ht HP) HP
                ltac:(done)). lia.
Qed.

Lemma buildHierarchy_returns_witness :
  is_Some (buildHierarchy 3 (tasks (initialState (Time sampleNow))) "task-4" []).
Proof.
  apply (buildHierarchy_returns sampleDepth).
  - intros k t P Hk HP _.
    assert (map_Forall
              (λ k t, default true
                        ((λ P, bool_decide (sampleDepth P < sampleDepth k))
                           <$> Entry.parentId t))
              (tasks (initialState (Time sampleNow)))) as Hall.
    { apply (bool_decide_unpack _). vm_compute. exact I. }
    specialize (Hall k t Hk). cbv beta in Hall. rewrite HP in Hall. simpl in Hall.
    by apply bool_decide_unpack in Hall.
  - vm_compute. lia.
Defined.

(** X27.  [buildHierarchy] never returns on a cycle of parents: when
    the clicked task lies in a set of tasks each of which has its
    parent in the set, no depth of calls is enough. *)
Theorem buildHierarchy_cycle (cycle : string → Prop) fuel ts id path :
  (∀ k, cycle k →
        ∃ t P, ts !! k = Some t ∧ Entry.parentId t = Some P ∧ P ≠ "" ∧ cycle P) →
  cycle id →
  buildHierarchy fuel ts id path = None.
Proof.
  intros Hcycle. revert id path.
  induction fuel as [|fuel IH]; intros id path Hid; [done|].
  cbn [buildHierarchy].
  destruct (Hcycle id Hid) as (t & P & Ht & HPt & HP & HcP).
  rewrite (taskAt_own _ _ _ Ht), HPt.
  rewrite (truthy_Some_ne P HP). cbn [default].
  by apply IH.
Qed.

Lemma buildHierarchy_cycle_witness :
  buildHierarchy 100
    {[ "a" := Entry.task (plainTask "a" (Some "b") ["b"]);
       "b" := Entry.task (plainTask "b" (Some "a") ["a"]) ]} "a" []
  = None.
Proof.
  apply (buildHierarchy_cycle (λ k, k = "a" ∨ k = "b")); [|by left].
  intros k [-> | ->]; eexists _, _.
  - split_and!; [reflexivity|reflexivity|discriminate|by right].
  - split_and!; [reflexivity|reflexivity|discriminate|by left].
Defined.

End Hierarchy.

(** ** The earlier [applyTemplate] *)

Section LegacyTemplate.
Variables (uuidv4 : nat → string) (clock : nat → Date).
Implicit Types (s : TaskState) (P : string) (L : list Task.t).

Lemma Legacy_ids parentId (defs : list TaskDef) n :
  Task.id <$> imap (λ i taskDef, Legacy.newTask uuidv4 clock parentId (n + i) taskDef) defs
  = uuidv4 <$> seq n (length defs).
Proof.
  revert n. induction defs as [|d defs IH]; intros n; [done|].
  cbn [imap fmap list_fmap length seq]. rewrite Nat.add_0_r. f_equal.
  rewrite <- IH. f_equal. apply imap_ext. intros i x _. simpl. f_equal. lia.
Qed.

(** X22.  The earlier [applyTemplate], on a stored template: it returns
    one identifier for each top-level definition, in order, taken from
    [uuidv4] call after call, and the state is the one that [addTask]
    gives when it is handed the new tasks one after the other; nested
    definitions produce nothing. *)
Theorem Legacy_applyTemplate_generates templateId parentId start s templates template :
  taskTemplates s = Some templates →
  templates !! templateId = Some template →
  let newTasks :=
    imap (λ i taskDef, Legacy.newTask uuidv4 clock parentId i taskDef)
         (TaskTemplate.tasks template) in
  Legacy.applyTemplate uuidv4 clock templateId parentId start s
  = Ok (Task.id <$> newTasks, foldl (λ state task, addTask task state) s newTasks)
  ∧ Task.id <$> newTasks = uuidv4 <$> seq 0 (length (TaskTemplate.tasks template))
  ∧ Forall (λ task, Task.parentId task = parentId ∧ Task.childrenIds task = []
                    ∧ Task.completed task = false ∧ Task.completedAt task = None)
           newTasks.
Proof.
  intros Ht Hl newTasks.
  assert (Task.id <$> newTasks
          = uuidv4 <$> seq 0 (length (TaskTemplate.tasks template))) as Hids
    by apply (Legacy_ids parentId (TaskTemplate.tasks template) 0).
  split_and!.
  - rewrite (Legacy_applyTemplate_spec uuidv4 clock templateId parentId start s
               templates Ht), (get_own _ _ _ Hl).
    by rewrite Hids.
  - exact Hids.
  - apply Forall_forall. intros task Htask.
    apply list_elem_of_lookup_1 in Htask as [i Hi].
    apply list_lookup_imap_Some in Hi as (d & _ & ->). done.
Qed.

Lemma addTask_fold_parent L s P (p : Task.t) :
  P ≠ "" → tasks s !! P = Some (Entry.task p) →
  Forall (λ task, Task.parentId task = Some P ∧ Task.id task ≠ P) L →
  ∃ p' : Task.t,
    tasks (foldl (λ state task, addTask task state) s L) !! P = Some (Entry.task p')
        ∧ (∀ c, c ∈ Task.childrenIds p'
                ↔ c ∈ Task.childrenIds p ∨ c ∈ Task.id <$> L)
        ∧ (L ≠ [] → NoDup (Task.childrenIds p')).
Proof.
  intros Hne Hp HL. revert s p Hp.
  induction HL as [|task L [Hpar Hid] HL IH]; intros s p Hp.
  - exists p. split_and!; [done| |done]. intros c. simpl. rewrite elem_of_nil. tauto.
  - cbn [foldl].
    assert (<[Task.id task := Entry.task task]> (tasks s) !! P = Some (Entry.task p))
      as Hp' by (by rewrite lookup_insert_ne).
    pose proof (addTask_child task s P (Entry.task p) Hpar Hne
                  (taskAt_own _ _ _ Hp')) as Hadd.
    rewrite assign_own in Hadd by eauto. cbn [Entry.childrenIds default
      Entry.with_childrenIds] in Hadd.
    destruct (IH (addTask task s)
                (Task.with_childrenIds
                   (Set_add (Set_new (Task.childrenIds p)) (Task.id task)) p))
      as (p' & Hlook & Hmem & Hnd).
    { rewrite Hadd. simpl. apply lookup_insert_eq. }
    exists p'. split_and!; [done| |].
    + intros c. rewrite Hmem. simpl.
      rewrite elem_of_Set_add, elem_of_Set_new, elem_of_cons. tauto.
    + intros _. destruct L as [|task' L'] eqn:HL'; [|by apply Hnd].
      simpl in Hlook. rewrite Hadd in Hlook. simpl in Hlook.
      rewrite lookup_insert_eq in Hlook. injection Hlook as <-. simpl.
      apply NoDup_Set_add, NoDup_Set_new.
Qed.

(** X23.  With an existing parent, the earlier [applyTemplate] links
    what it generates: afterwards the [childrenIds] of the parent hold
    what they held before and every generated identifier, each once
    (provided no generated identifier is the parent's own). *)
Theorem Legacy_applyTemplate_links templateId P start s templates template
    (p : Task.t) :
  taskTemplates s = Some templates →
  templates !! templateId = Some template →
  TaskTemplate.tasks template ≠ [] →
  P ≠ "" → tasks s !! P = Some (Entry.task p) →
  (∀ n, n < length (TaskTemplate.tasks template) → uuidv4 n ≠ P) →
  ∃ ids s' (p' : Task.t),
    Legacy.applyTemplate uuidv4 clock templateId (Some P) start s = Ok (ids, s')
    ∧ length ids = length (TaskTemplate.tasks template)
    ∧ tasks s' !! P = Some (Entry.task p')
    ∧ (∀ c, c ∈ Task.childrenIds p' ↔ c ∈ Task.childrenIds p ∨ c ∈ ids)
    ∧ NoDup (Task.childrenIds p').
Proof.
  intros Ht Hl Hdefs Hne Hp Hfresh.
  pose proof (Legacy_applyTemplate_spec uuidv4 clock templateId (Some P) start s
                templates Ht) as Happly.
  rewrite (get_own _ _ _ Hl) in Happly.
  set (newTasks := imap (λ i taskDef, Legacy.newTask uuidv4 clock (Some P) i taskDef)
                        (TaskTemplate.tasks template)) in *.
  destruct (addTask_fold_parent newTasks s P p Hne Hp) as (p' & Hlook & Hmem & Hnd).
  { apply Forall_forall. intros task Htask.
    apply list_elem_of_lookup_1 in Htask as [i Hi].
    apply list_lookup_imap_Some in Hi as (d & Hd & ->). split; [done|].
    apply Hfresh. by apply lookup_lt_Some in Hd. }
  pose proof (Legacy_ids (Some P) (TaskTemplate.tasks template) 0) as Hids.
  change (Task.id <$> newTasks
          = uuidv4 <$> seq 0 (length (TaskTemplate.tasks template))) in Hids.
  rewrite Hids in Hmem.
  eexists _, _, p'. split_and!; [exact Happly| |exact Hlook|exact Hmem|].
  - by rewrite length_fmap, length_seq.
  - apply Hnd. unfold newTasks.
    destruct (TaskTemplate.tasks template); [done|discriminate].
Qed.

End LegacyTemplate.

Lemma Legacy_applyTemplate_generates_witness :
  ∃ s', Legacy.applyTemplate (λ n, pretty n) (λ _, Time 0) "template-morning" None None
          (initialState (Time sampleNow))
        = Ok (["0"; "1"; "2"; "3"], s').
Proof.
  eexists.
  rewrite (proj1 (Legacy_applyTemplate_generates (λ n, pretty n) (λ _, Time 0)
                    "template-morning" None None (initialState (Time sampleNow))
                    _ template_morning eq_refl eq_refl)).
  reflexivity.
Defined.

Lemma Legacy_applyTemplate_links_witness :
  ∃ ids s' p',
    Legacy.applyTemplate (λ n, pretty n) (λ _, Time 0) "template-morning"
      (Some "task-5") None (initialState (Time sampleNow)) = Ok (ids, s')
    ∧ length ids = 4
    ∧ tasks s' !! "task-5" = Some (Entry.task p').
Proof.
  destruct (Legacy_applyTemplate_links (λ n, pretty n) (λ _, Time 0) "template-morning"
              "task-5" None (initialState (Time sampleNow)) _ template_morning _
              eq_refl eq_refl ltac:(discriminate) ltac:(discriminate) eq_refl)
    as (ids & s' & p' & H1 & H2 & H3 & _).
  - intros n Hn. simpl in Hn.
    do 4 (destruct n as [|n]; [discriminate|]). lia.
  - exists ids, s', p'. by split_and!.
Defined.

(** ** The links between parents and children *)

Section Mirror.
Implicit Types (ts : gmap string Entry.t) (s : TaskState) (T : Task.t)
  (e t p : Entry.t) (id P c k : string).

(** [p.childrenIds], read as the list it stands for. *)
Local Abbreviation children p := (default [] (Entry.childrenIds p)).

Lemma childrenMirror_iff ts :
  childrenMirror ts ↔
  ∀ P p, ts !! P = Some p →
    ∀ c, c ∈ children p
         ↔ ∃ t, ts !! c = Some t ∧ Entry.parentId t = Some P.
Proof.
  unfold childrenMirror. rewrite map_Forall_lookup. split.
  - intros H P p HP c. destruct (H P p HP) as [Hch Hpar].
    rewrite Forall_forall in Hch. rewrite map_Forall_lookup in Hpar. split.
    + intros Hc. apply Hch in Hc. apply fmap_Some in Hc as (t & Ht & Ht').
      exists t. split; [done|]. congruence.
    + intros (t & Ht & Ht'). by apply (Hpar c t).
  - intros H P p HP. split.
    + apply Forall_forall. intros c Hc. apply (H P p HP) in Hc as (t & -> & Ht).
      simpl. by rewrite Ht.
    + apply map_Forall_lookup. intros c t Ht Ht'. apply (H P p HP). eauto.
Qed.

Lemma truthy_parent e k :
  Entry.parentId e ≠ Some "" →
  bool_decide (Entry.parentId e = Some k) && truthy (Entry.parentId e)
  = bool_decide (Entry.parentId e = Some k).
Proof.
  intros Hne. case_bool_decide as Hk; [|done].
  rewrite Hk in *. destruct k; [done|]. done.
Qed.

Lemma children_with_childrenIds l p :
  children (Entry.with_childrenIds l p) = l.
Proof. by rewrite childrenIds_with_childrenIds. Qed.

(** X24.  [deleteTask] keeps the links consistent: when every
    [childrenIds] lists exactly the tasks whose [parentId] names that
    task, this still holds after a deletion (of a task whose [parentId]
    is not the empty string), whether [deleteTask] returns or throws. *)
Theorem deleteTask_keeps_childrenMirror id s :
  childrenMirror (tasks s) →
  (∀ t, tasks s !! id = Some t → Entry.parentId t ≠ Some "") →
  childrenMirror (tasks (stateAfter s (deleteTask id s))).
Proof.
  intros Hm Hne.
  destruct (deleteTask id s) as [s'|err] eqn:Hdel; cbn [stateAfter]; [|done].
  destruct (taskAt (tasks s) id) as [e|] eqn:He.
  2: { unfold deleteTask in Hdel. rewrite He in Hdel. by injection Hdel as <-. }
  assert (Entry.parentId e ≠ Some "") as Hne'.
  { unfold taskAt, get in He. destruct (tasks s !! id) as [e'|] eqn:He'.
    - injection He as <-. by apply Hne.
    - destruct (inherited id); [|done]. by injection He as <-. }
  rewrite childrenMirror_iff in Hm. apply childrenMirror_iff.
  assert (∀ k, tasks s' !! k =
               if bool_decide (k = id) then None
               else if bool_decide (Entry.parentId e = Some k)
               then (λ p, Entry.with_childrenIds
                            (filter (λ x, x ≠ id) (children p)) p)
                      <$> tasks s !! k
               else tasks s !! k) as Hlook.
  { intros k. rewrite (deleteTask_lookup id s s' e k He Hdel).
    by rewrite truthy_parent. }
  assert (∀ k t', tasks s' !! k = Some t' →
            k ≠ id ∧ ∃ t0, tasks s !! k = Some t0
                           ∧ Entry.parentId t' = Entry.parentId t0
                           ∧ children t'
                             = if bool_decide (Entry.parentId e = Some k)
                               then filter (λ x, x ≠ id) (children t0)
                               else children t0) as Hinv.
  { intros k t' Hk. rewrite Hlook in Hk.
    case_bool_decide as Hkid; [done|]. split; [done|].
    case_bool_decide as Hpar.
    - apply fmap_Some in Hk as (t0 & Ht0 & ->). exists t0.
      by rewrite parentId_with_childrenIds, children_with_childrenIds.
    - by exists t'. }
  assert (∀ k t0, k ≠ id → tasks s !! k = Some t0 →
            ∃ t', tasks s' !! k = Some t'
                  ∧ Entry.parentId t' = Entry.parentId t0) as Hfwd.
  { intros k t0 Hk Ht0. rewrite Hlook, bool_decide_eq_false_2 by done.
    rewrite Ht0. case_bool_decide; simpl; eauto using parentId_with_childrenIds. }
  intros P p' HP c.
  apply Hinv in HP as (HPid & p0 & Hp0 & _ & Hch). rewrite Hch.
  specialize (Hm P p0 Hp0 c). split.
  - intros Hc.
    assert (c ∈ children p0) as Hc0.
    { case_bool_decide; [|done]. by apply list_elem_of_filter in Hc as [_ ?]. }
    apply Hm in Hc0 as (tc & Htc & Hpar).
    assert (c ≠ id) as Hcid.
    { intros ->. rewrite (taskAt_own _ _ _ Htc) in He. injection He as ->.
      rewrite bool_decide_eq_true_2 in Hc by done.
      by apply list_elem_of_filter in Hc as [? _]. }
    destruct (Hfwd c tc Hcid Htc) as (tc' & Htc' & Hpar').
    exists tc'. split; [done|]. congruence.
  - intros (tc' & Htc' & Hpar').
    apply Hinv in Htc' as (Hcid & tc0 & Htc0 & Hpar0 & _).
    assert (c ∈ children p0) as Hc0.
    { apply Hm. exists tc0. split; [done|]. congruence. }
    case_bool_decide; [|done]. apply list_elem_of_filter. done.
Qed.

Lemma deleteTask_keeps_childrenMirror_witness :
  childrenMirror
    (tasks (stateAfter (initialState (Time sampleNow))
              (deleteTask "task-3" (initialState (Time sampleNow))))).
Proof.
  apply deleteTask_keeps_childrenMirror.
  - apply (bool_decide_unpack _). vm_compute. exact I.
  - intros t [= <-]. discriminate.
Defined.

Lemma addTask_lookup T s k :
  Task.parentId T ≠ Some (Task.id T) → Task.parentId T ≠ Some "" →
  (∀ P, Task.parentId T = Some P → is_Some (tasks s !! P) ∨ inherited P = false) →
  tasks (addTask T s) !! k =
    if bool_decide (k = Task.id T) then Some (Entry.task T)
    else if bool_decide (Task.parentId T = Some k)
    then (λ p, Entry.with_childrenIds
                 (Set_add (Set_new (children p)) (Task.id T)) p)
           <$> tasks s !! k
    else tasks s !! k.
Proof.
  intros Hself Hne Hfound.
  destruct (Task.parentId T) as [P|] eqn:HP.
  2: { rewrite addTask_root by (by rewrite HP). cbn [tasks set_tasks_roots].
       case_bool_decide as Hk; [subst; apply lookup_insert_eq|].
       by rewrite lookup_insert_ne. }
  assert (P ≠ "") as HPne by congruence.
  assert (P ≠ Task.id T) as HPid by congruence.
  assert (<[Task.id T := Entry.task T]> (tasks s) !! P = tasks s !! P) as Hnew
    by (by rewrite lookup_insert_ne).
  destruct (tasks s !! P) as [p|] eqn:Hp.
  - rewrite (addTask_child T s P p HP HPne) by (by apply taskAt_own).
    rewrite assign_own by (rewrite Hnew; eauto). cbn [tasks set_tasks_roots].
    case_bool_decide as Hk.
    + subst k. by rewrite lookup_insert_ne, lookup_insert_eq.
    + case_bool_decide as Hpk.
      * injection Hpk as <-. by rewrite lookup_insert_eq, Hp.
      * rewrite !lookup_insert_ne by congruence. done.
  - destruct (Hfound P eq_refl) as [[x Hx]|Hinh]; [congruence|].
    rewrite (addTask_orphan T s P HP HPne) by (by apply taskAt_absent).
    cbn [tasks set_tasks_roots].
    case_bool_decide as Hk; [subst; apply lookup_insert_eq|].
    rewrite lookup_insert_ne by done.
    case_bool_decide as Hpk; [|done]. injection Hpk as <-. by rewrite Hp.
Qed.

(** X25.  [addTask] keeps the links consistent too, for a new task
    without children: its identifier unused, no task waiting for it as
    a parent, its [parentId] null or a non-empty identifier other than
    its own, under which the mapping holds an entry or which is not the
    name of a property that every object inherits. *)
Theorem addTask_keeps_childrenMirror T s :
  childrenMirror (tasks s) →
  tasks s !! Task.id T = None →
  Task.childrenIds T = [] →
  (∀ k t, tasks s !! k = Some t → Entry.parentId t ≠ Some (Task.id T)) →
  Task.parentId T ≠ Some "" →
  Task.parentId T ≠ Some (Task.id T) →
  (∀ P, Task.parentId T = Some P → is_Some (tasks s !! P) ∨ inherited P = false) →
  childrenMirror (tasks (addTask T s)).
Proof.
  intros Hm Hfresh Hch Horph Hne Hself Hfound.
  rewrite childrenMirror_iff in Hm. apply childrenMirror_iff.
  pose proof (λ k, addTask_lookup T s k Hself Hne Hfound) as Hlook.
  assert (∀ k t', k ≠ Task.id T → tasks (addTask T s) !! k = Some t' →
            ∃ t0, tasks s !! k = Some t0
                  ∧ Entry.parentId t' = Entry.parentId t0
                  ∧ children t'
                    = if bool_decide (Task.parentId T = Some k)
                      then Set_add (Set_new (children t0)) (Task.id T)
                      else children t0) as Hinv.
  { intros k t' Hkid Hk. rewrite Hlook, bool_decide_eq_false_2 in Hk by done.
    case_bool_decide as Hpar.
    - apply fmap_Some in Hk as (t0 & Ht0 & ->). exists t0.
      by rewrite parentId_with_childrenIds, children_with_childrenIds.
    - by exists t'. }
  assert (∀ k t0, tasks s !! k = Some t0 →
            k ≠ Task.id T
            ∧ ∃ t', tasks (addTask T s) !! k = Some t'
                    ∧ Entry.parentId t' = Entry.parentId t0) as Hfwd.
  { intros k t0 Ht0. assert (k ≠ Task.id T) as Hk by congruence.
    split; [done|]. rewrite Hlook, bool_decide_eq_false_2 by done.
    rewrite Ht0. case_bool_decide; simpl; eauto using parentId_with_childrenIds. }
  intros P p' HP c.
  destruct (decide (P = Task.id T)) as [->|HPid].
  - rewrite Hlook, bool_decide_eq_true_2 in HP by done. injection HP as <-.
    cbn [Entry.childrenIds default]. rewrite Hch.
    split; [by intros ?%elem_of_nil|].
    intros (tc' & Htc' & Hpar').
    destruct (decide (c = Task.id T)) as [->|Hc].
    + rewrite Hlook, bool_decide_eq_true_2 in Htc' by done.
      injection Htc' as <-. simpl in Hpar'. congruence.
    + apply Hinv in Htc' as (tc0 & Htc0 & Hpar0 & _); [|done].
      destruct (Horph c tc0 Htc0). congruence.
  - apply Hinv in HP as (p0 & Hp0 & _ & Hchildren); [|done].
    rewrite Hchildren. specialize (Hm P p0 Hp0 c).
    assert (c ∈ (if bool_decide (Task.parentId T = Some P)
                 then Set_add (Set_new (children p0)) (Task.id T)
                 else children p0)
            ↔ c ∈ children p0
              ∨ (c = Task.id T ∧ Task.parentId T = Some P)) as ->.
    { case_bool_decide as Hpar.
      - rewrite elem_of_Set_add, elem_of_Set_new. tauto.
      - tauto. }
    split.
    + intros [Hc0 | [-> Hpar]].
      * apply Hm in Hc0 as (tc & Htc & Hpar).
        destruct (Hfwd c tc Htc) as (_ & tc' & Htc' & Hpar').
        exists tc'. split; [done|]. congruence.
      * exists (Entry.task T). split; [|done].
        by rewrite Hlook, bool_decide_eq_true_2.
    + intros (tc' & Htc' & Hpar').
      destruct (decide (c = Task.id T)) as [->|Hc].
      * rewrite Hlook, bool_decide_eq_true_2 in Htc' by done.
        injection Htc' as <-. by right.
      * apply Hinv in Htc' as (tc0 & Htc0 & Hpar0 & _); [|done].
        left. apply Hm. exists tc0. split; [done|]. congruence.
Qed.

Lemma addTask_keeps_childrenMirror_witness :
  childrenMirror
    (tasks (addTask (plainTask "task-6" (Some "task-5") [])
              (initialState (Time sampleNow)))).
Proof.
  apply addTask_keeps_childrenMirror;
    [ apply (bool_decide_unpack _); vm_compute; exact I
    | reflexivity | reflexivity | | discriminate | discriminate | ].
  - apply (map_Forall_lookup (λ k t, Entry.parentId t ≠ Some "task-6")).
    apply (bool_decide_unpack _). vm_compute. exact I.
  - intros P [= <-]. left. vm_compute. eauto.
Defined.

End Mirror.

(** ** The helper of [applyTemplate] *)

Section ProcessTaskDefinition.
Variables (uuidv4 : nat → string) (clock : nat → Date) (start : option Date).

Lemma inherited_proto k : inherited k = false → k ≠ "__proto__".
Proof. by intros Hk ->. Qed.

Lemma processTaskDefinition_aux :
  (∀ n, uuidv4 n ≠ "") →
  (∀ n, inherited (uuidv4 n) = false) →
  ∀ taskDef parent g,
  (∀ P, parent = Some P → P ≠ "" → inherited P = false) →
  ∃ g', processTaskDefinition uuidv4 clock start taskDef parent g
        = Ok (uuidv4 (uuidCalls g), g')
  ∧ uuidCalls g' = (uuidCalls g + defSize taskDef)%nat
  ∧ generatedTopLevelTaskIds g'
    = generatedTopLevelTaskIds g
      ++ (if truthy parent then [] else [uuidv4 (uuidCalls g)])
  ∧ tempRootTaskIds g'
    = tempRootTaskIds g
      ++ (if truthy parent then [] else [uuidv4 (uuidCalls g)])
  ∧ (∀ k, is_Some (tempTasks g !! k) → is_Some (tempTasks g' !! k))
  ∧ (∀ i, (uuidCalls g ≤ i < uuidCalls g + defSize taskDef)%nat →
          is_Some (tempTasks g' !! uuidv4 i)).
Proof.
  intros Hne Hinh. fix IH 1.
  intros [title description estimatedMinutes priority tags children] parent g Hpar.
  cbn [processTaskDefinition defSize]. cbv zeta.
  rewrite (assign_ne _ _ _ (inherited_proto _ (Hinh (uuidCalls g)))).
  match goal with
  | |- ∃ g', mbind _ ?m = _ ∧ _ => set (m1 := m)
  end.
  assert (∃ g1, m1 = Ok g1
          ∧ uuidCalls g1 = S (uuidCalls g)
          ∧ generatedTopLevelTaskIds g1
            = generatedTopLevelTaskIds g
              ++ (if truthy parent then [] else [uuidv4 (uuidCalls g)])
          ∧ tempRootTaskIds g1
            = tempRootTaskIds g
              ++ (if truthy parent then [] else [uuidv4 (uuidCalls g)])
          ∧ (∀ k, is_Some (tempTasks g !! k) → is_Some (tempTasks g1 !! k))
          ∧ is_Some (tempTasks g1 !! uuidv4 (uuidCalls g)))
    as (g1 & -> & Hc1 & Hg1 & Hr1 & Hm1 & Hn1).
  { subst m1. destruct (truthy parent) eqn:Htr.
    - destruct parent as [P|]; [|done]. cbn [default from_option id].
      assert (P ≠ "") as HP by (by intros ->).
      assert (∃ l, match get (tempParentChildMap g) P with
                   | Own children => Ok children
                   | Inherited => Throw TypeError
                   | NotFound => Ok []
                   end = Ok l) as [l ->].
      { unfold get. destruct (tempParentChildMap g !! P); [eauto|].
        rewrite (Hpar P eq_refl HP). eauto. }
      cbn [mbind Outcome_bind bind]. eexists. split; [reflexivity|].
      cbn [uuidCalls generatedTopLevelTaskIds tempRootTaskIds tempTasks].
      rewrite !app_nil_r.
      split_and!; [done|done|done| |by rewrite lookup_insert_eq].
      intros k Hk. destruct (decide (k = uuidv4 (uuidCalls g))) as [->|];
        [by rewrite lookup_insert_eq|by rewrite lookup_insert_ne].
    - eexists. split; [reflexivity|].
      cbn [uuidCalls generatedTopLevelTaskIds tempRootTaskIds tempTasks].
      split_and!; [done|done|done| |by rewrite lookup_insert_eq].
      intros k Hk. destruct (decide (k = uuidv4 (uuidCalls g))) as [->|];
        [by rewrite lookup_insert_eq|by rewrite lookup_insert_ne]. }
  cbn [mbind Outcome_bind bind].
  destruct children as [children|].
  2: { exists g1. split_and!; [done|lia|done|done|done|].
       intros i Hi. by replace i with (uuidCalls g) by lia. }
  match goal with
  | |- context [?f children g1] => set (forEach := f)
  end.
  match goal with
  | |- context [S (?f children)] => set (sizes := f)
  end.
  assert (∀ g0, ∃ g2,
            forEach children g0 = Ok g2
            ∧ uuidCalls g2 = (uuidCalls g0 + sizes children)%nat
            ∧ generatedTopLevelTaskIds g2 = generatedTopLevelTaskIds g0
            ∧ tempRootTaskIds g2 = tempRootTaskIds g0
            ∧ (∀ k, is_Some (tempTasks g0 !! k) → is_Some (tempTasks g2 !! k))
            ∧ (∀ i, (uuidCalls g0 ≤ i < uuidCalls g0 + sizes children)%nat →
                    is_Some (tempTasks g2 !! uuidv4 i)))
    as Hloop.
  { induction children as [|childDef defs IHdefs]; intros g0.
    - exists g0. cbn [forEach sizes].
      split_and!; [done|lia|done|done|done|intros i; lia].
    - cbn [forEach sizes].
      destruct (IH childDef (Some (uuidv4 (uuidCalls g))) g0)
        as (gc & -> & Hc & Hg & Hr & Hm & Hn).
      { intros P [= <-] _. apply Hinh. }
      rewrite (truthy_Some_ne _ (Hne _)), app_nil_r in Hg, Hr.
      cbn [snd].
      destruct (IHdefs gc) as (g2 & Hg2 & Hc' & Hg' & Hr' & Hm' & Hn').
      exists g2. split_and!.
      + exact Hg2.
      + rewrite Hc', Hc. lia.
      + by rewrite Hg', Hg.
      + by rewrite Hr', Hr.
      + intros k Hk. by apply Hm', Hm.
      + intros i Hi.
        destruct (decide (i < uuidCalls g0 + defSize childDef)%nat) as [Hlt|Hge].
        * apply Hm', Hn. lia.
        * apply Hn'. rewrite Hc. lia. }
  destruct (Hloop g1) as (g2 & -> & Hc & Hg & Hr & Hm & Hn).
  exists g2. split_and!.
  - done.
  - rewrite Hc, Hc1. lia.
  - by rewrite Hg, Hg1.
  - by rewrite Hr, Hr1.
  - intros k Hk. by apply Hm, Hm1.
  - intros i Hi. destruct (decide (i = uuidCalls g)) as [->|Hi'].
    + by apply Hm.
    + apply Hn. rewrite Hc1. lia.
Qed.

(** X26.  [processTaskDefinition], were it called, with an [uuidv4]
    that returns neither the empty string nor the name of a property
    that every object inherits.  Under a parent that is no such name
    either, it takes one identifier for the definition and each
    definition under it, the first for the definition itself, which it
    returns; every one of them names a task of [tempTasks] afterwards
    and no task already there is lost; only a definition without parent
    is recorded, once, as a generated top-level task and as a root.
    Under a parent that is such a name, and for which nothing was
    generated yet, it throws a [TypeError]. *)
Theorem processTaskDefinition_spec taskDef parent g :
  (∀ n, uuidv4 n ≠ "") →
  (∀ n, inherited (uuidv4 n) = false) →
  ((∀ P, parent = Some P → P ≠ "" → inherited P = false) →
   ∃ g', processTaskDefinition uuidv4 clock start taskDef parent g
         = Ok (uuidv4 (uuidCalls g), g')
   ∧ uuidCalls g' = (uuidCalls g + defSize taskDef)%nat
   ∧ generatedTopLevelTaskIds g'
     = generatedTopLevelTaskIds g
       ++ (if truthy parent then [] else [uuidv4 (uuidCalls g)])
   ∧ tempRootTaskIds g'
     = tempRootTaskIds g
       ++ (if truthy parent then [] else [uuidv4 (uuidCalls g)])
   ∧ (∀ k, is_Some (tempTasks g !! k) → is_Some (tempTasks g' !! k))
   ∧ (∀ i, (uuidCalls g ≤ i < uuidCalls g + defSize taskDef)%nat →
           is_Some (tempTasks g' !! uuidv4 i)))
  ∧ (∀ P, parent = Some P → inherited P = true →
       tempParentChildMap g !! P = None →
       processTaskDefinition uuidv4 clock start taskDef parent g
       = Throw TypeError).
Proof.
  intros Hne Hinh. split.
  - intros Hpar. by apply processTaskDefinition_aux.
  - intros P -> HP Hnone.
    destruct taskDef as [title description estimatedMinutes priority tags children].
    cbn [processTaskDefinition]. cbv zeta.
    assert (truthy (Some P) = true) as -> by (destruct P; [done|done]).
    cbn [default from_option id]. by rewrite (get_inherited _ _ Hnone HP).
Qed.

End ProcessTaskDefinition.

Lemma processTaskDefinition_spec_witness :
  let uuidv4 := λ n : nat, String "u"%char (pretty n) in
  let taskDef := mkTaskDef "plan" None None None None
                   (Some [simpleDef "a" None None None None;
                          simpleDef "b" None None None None]) in
  (∃ g', processTaskDefinition uuidv4 (λ _, Time 0) None taskDef None noneGenerated
         = Ok ("u0", g')
         ∧ uuidCalls g' = 3%nat
         ∧ generatedTopLevelTaskIds g' = ["u0"])
  ∧ processTaskDefinition uuidv4 (λ _, Time 0) None taskDef (Some "valueOf")
      noneGenerated
    = Throw TypeError.
Proof.
  intros uuidv4 taskDef.
  assert (∀ n, uuidv4 n ≠ "") as Hne by (intros n; discriminate).
  assert (∀ n, inherited (uuidv4 n) = false) as Hinh.
  { intros n. unfold inherited. apply bool_decide_eq_false_2.
    unfold Object_prototype, uuidv4. rewrite !elem_of_cons, elem_of_nil.
    intros H. repeat (destruct H as [H|H]; [discriminate|]). done. }
  split.
  - destruct (proj1 (processTaskDefinition_spec uuidv4 (λ _, Time 0) None taskDef None
                       noneGenerated Hne Hinh)) as (g' & H1 & H2 & H3 & _).
    + intros P [=].
    + exists g'. split_and!; [exact H1|exact H2|exact H3].
  - apply (proj2 (processTaskDefinition_spec uuidv4 (λ _, Time 0) None taskDef
                    (Some "valueOf") noneGenerated Hne Hinh) "valueOf");
      reflexivity.
Defined.
